(** * Feed fan-out and timeline service: shallow embedding and properties

    The development follows the Go sources of the feed system:
    - [SortedSet]: the Redis sorted-set commands that the timeline cache
      issues through [pkg/cache/redis.go];
    - [TimelineCache]: [TimelineCacheService] (timeline cache service);
    - [Activity]: [ActivityService] ([internal/services/activity.go]);
    - [Distributor]: the fan-out of [internal/services/feed_optimized.go];
    - [Recovery]: [RecoveryService] ([internal/services/recovery.go]);
    - [Feed]: [FeedService.DeletePost] ([internal/services/feed.go]);
    - [ActivityService]: [IsUserActive] and [SetUserOffline] of
      [internal/services/activity.go];
    - [PostQueries], [OptimizedFeed]: reading the posts of a page, rebuilding
      the cache and the ranking score ([internal/repository/post.go],
      [internal/services/feed_optimized.go]);
    - [TimelineRows], [FeedService]: the [timelines] table and the fan-out of
      [internal/services/feed.go] into it;
    - [CacheStrategy]: [CacheStrategyService] (cache strategy service).

    Conventions.  A [time.Time] is its Unix time in nanoseconds, a
    [time.Duration] a number of nanoseconds.  A [uuid.UUID] is kept in its
    canonical textual form, so that [uuid.String] is the identity.  The
    commands sent to Redis and the statements sent to the database are taken
    to succeed: the errors that the functions below return are the ones the Go
    code raises itself (not found, permission denied, a string that does not
    parse); the one exception is an insertion into the [timelines] table,
    which the table's constraints can refuse.  Redis is read as the last
    operation left it: the time to live of a key is recorded, its expiry is
    not played, and a statement about a later read is meant within the
    lifetime of the keys it reads.  Sorted-set scores are always [float64(t.Unix())] in the sources,
    hence integers; they are kept in [Z].  The other [float64] values (the
    activity score, the ranking score of a post) are idealised as real
    numbers, and a parsed cursor as a rational.  One clock reading [now]
    stands for the calls of [time.Now()] within one operation. *)

From Stdlib Require Import ZArith QArith Reals Lra Lia.
From stdpp Require Import gmap strings list sorting pretty.

Local Open Scope Z_scope.

Definition uuid : Type := string.
Definition uuid_String (u : uuid) : string := u.

Definition Time : Type := Z.
Definition Duration : Type := Z.

Definition Second : Duration := 1000000000.
Definition Minute : Duration := 60 * Second.
Definition Hour : Duration := 60 * Minute.

(** [t.Unix()]: whole seconds since the epoch (rounded down). *)
Definition Unix (t : Time) : Z := t / Second.

(** [time.Unix(sec, 0)]. *)
Definition time_Unix (sec : Z) : Time := sec * Second.

(** [t.Sub(u)]. *)
Definition Sub (t u : Time) : Duration := t - u.

(** * Redis sorted sets *)

Module SortedSet.

(** [redis.Z]: a member with its score. *)
Record ZEntry : Type := mkZ { Score : Z; Member : string }.

Global Instance ZEntry_eq_dec : EqDecision ZEntry.
Proof. solve_decision. Defined.

(** Redis keeps a sorted set ordered by score, members of equal score by the
    lexicographic order of their bytes. *)
Definition zleb (a b : ZEntry) : bool :=
  (Score a <? Score b) || ((Score a =? Score b) && String.leb (Member a) (Member b)).

Definition zle (a b : ZEntry) : Prop := zleb a b = true.

Global Instance zle_dec : RelDecision zle.
Proof. intros a b. unfold zle. solve_decision. Defined.

(** A sorted set is the list of its entries in rank order (rank 0 first). *)
Definition zset : Type := list ZEntry.

Fixpoint zinsert (e : ZEntry) (l : zset) : zset :=
  match l with
  | [] => [e]
  | x :: r => if zleb e x then e :: l else x :: zinsert e r
  end.

(** ZREM key member *)
Definition ZRem (member : string) (l : zset) : zset :=
  List.filter (fun e => negb (String.eqb (Member e) member)) l.

(** ZADD key score member: a member already present is moved to the rank of
    its new score. *)
Definition ZAdd (e : ZEntry) (l : zset) : zset :=
  zinsert e (ZRem (Member e) l).

(** ZREMRANGEBYRANK key start stop, with the index normalisation of Redis:
    negative indices count from the end, the range is inclusive. *)
Definition ZRemRangeByRank (start stop : Z) (l : zset) : zset :=
  let llen := Z.of_nat (length l) in
  let start1 := if start <? 0 then llen + start else start in
  let stop1 := if stop <? 0 then llen + stop else stop in
  let start2 := if start1 <? 0 then 0 else start1 in
  if (stop1 <? start2) || (llen <=? start2) then l
  else
    let stop2 := if llen <=? stop1 then llen - 1 else stop1 in
    take (Z.to_nat start2) l ++ drop (Z.to_nat (stop2 + 1)) l.

(** ZCARD key *)
Definition ZCard (l : zset) : Z := Z.of_nat (length l).

(** ZSCORE key member: [None] is the reply [redis.Nil]. *)
Definition ZScore (member : string) (l : zset) : option Z :=
  Score <$> List.find (fun e => String.eqb (Member e) member) l.

(** ZREVRANGE key 0 -1 *)
Definition ZRevRangeAll (l : zset) : list string := Member <$> rev l.

(** ZRANGE key 0 0 WITHSCORES *)
Definition ZRangeFirst (l : zset) : list ZEntry := take 1 l.

Definition Qltb (x y : Q) : bool := (Qnum x * QDen y <? Qnum y * QDen x).

(** ZREVRANGEBYSCORE key (max -inf WITHSCORES [LIMIT 0 count].  go-redis
    sends the LIMIT clause only when offset or count is non-zero, and Redis
    reads a negative count as no limit. *)
Definition ZRevRangeByScoreWithScores (maxExcl : Q) (count : Z) (l : zset) : list ZEntry :=
  let hits := rev (List.filter (fun e => Qltb (inject_Z (Score e)) maxExcl) l) in
  if count <=? 0 then hits else take (Z.to_nat count) hits.

(** Well-formed sorted sets: in rank order, one entry per member. *)
Definition wf (l : zset) : Prop :=
  StronglySorted zle l /\ NoDup (Member <$> l).

End SortedSet.

(** * The Redis key space used by the services *)

(** [DistributionStatus] of [recovery.go]; [recordDistributionStatus] of
    [feed_optimized.go] marshals a map with the same four JSON fields. *)
Record DistributionStatus : Type := mkStatus {
  PostID : string;
  AuthorID : string;
  Status : string;
  Timestamp : Z
}.

(** The Redis data the services touch: sorted sets ([timeline:*],
    [active_followers:*]), plain string values ([user_online:*],
    [user_active:*]), the JSON documents under [distribution_status:*]
    (kept decoded), and the time to live last set on each key. *)
Record Redis : Type := mkRedis {
  zsets : gmap string SortedSet.zset;
  strs : gmap string string;
  statuses : gmap string DistributionStatus;
  expires : gmap string Duration
}.

Module RedisClient.
Import SortedSet.

Definition empty : Redis := mkRedis ∅ ∅ ∅ ∅.

(** The sorted set under a key; a key that does not exist reads as empty. *)
Definition zget (key : string) (r : Redis) : zset := default [] (zsets r !! key).

(** DEL key *)
Definition Delete (key : string) (r : Redis) : Redis :=
  mkRedis (delete key (zsets r)) (delete key (strs r))
          (delete key (statuses r)) (delete key (expires r)).

(** Redis removes a sorted-set key as soon as the set is empty. *)
Definition zput (key : string) (l : zset) (r : Redis) : Redis :=
  match l with
  | [] => mkRedis (delete key (zsets r)) (strs r) (statuses r) (delete key (expires r))
  | _ => mkRedis (<[key := l]> (zsets r)) (strs r) (statuses r) (expires r)
  end.

Definition ZAdd (key : string) (e : ZEntry) (r : Redis) : Redis :=
  zput key (SortedSet.ZAdd e (zget key r)) r.

Definition ZRem (key : string) (member : string) (r : Redis) : Redis :=
  zput key (SortedSet.ZRem member (zget key r)) r.

Definition ZRemRangeByRank (key : string) (start stop : Z) (r : Redis) : Redis :=
  zput key (SortedSet.ZRemRangeByRank start stop (zget key r)) r.

Definition ZCard (key : string) (r : Redis) : Z := SortedSet.ZCard (zget key r).

Definition ZScore (key member : string) (r : Redis) : option Z :=
  SortedSet.ZScore member (zget key r).

Definition ZRevRange (key : string) (r : Redis) : list string :=
  SortedSet.ZRevRangeAll (zget key r).

Definition ZRangeWithScores (key : string) (r : Redis) : list ZEntry :=
  SortedSet.ZRangeFirst (zget key r).

Definition ZRevRangeByScoreWithScores (key : string) (maxExcl : Q) (count : Z)
    (r : Redis) : list ZEntry :=
  SortedSet.ZRevRangeByScoreWithScores maxExcl count (zget key r).

(** EXISTS key *)
Definition Exists (key : string) (r : Redis) : Z :=
  if bool_decide (is_Some (zsets r !! key)) || bool_decide (is_Some (strs r !! key))
     || bool_decide (is_Some (statuses r !! key))
  then 1 else 0.

(** EXPIRE key ttl: sets the time to live of a key that exists. *)
Definition Expire (key : string) (ttl : Duration) (r : Redis) : Redis :=
  if Exists key r =? 1
  then mkRedis (zsets r) (strs r) (statuses r) (<[key := ttl]> (expires r))
  else r.

(** SET key value EX ttl *)
Definition Set_ (key value : string) (ttl : Duration) (r : Redis) : Redis :=
  mkRedis (delete key (zsets r)) (<[key := value]> (strs r))
          (delete key (statuses r)) (<[key := ttl]> (expires r)).

(** SET key json EX ttl, for the JSON of a distribution status. *)
Definition SetStatus (key : string) (d : DistributionStatus) (ttl : Duration)
    (r : Redis) : Redis :=
  mkRedis (delete key (zsets r)) (delete key (strs r))
          (<[key := d]> (statuses r)) (<[key := ttl]> (expires r)).

(** GET key *)
Definition Get (key : string) (r : Redis) : option string := strs r !! key.
Definition GetStatus (key : string) (r : Redis) : option DistributionStatus :=
  statuses r !! key.

End RedisClient.

(** * Timeline cache service *)

(** [models.Timeline]; [Score] is the ranking score of the post, a
    [float64] computed with logarithms and exponentials. *)
Record Timeline : Type := mkTimeline {
  tl_UserID : uuid;
  tl_PostID : uuid;
  tl_Score : R;
  tl_CreatedAt : Time
}.

(** Two's-complement wrap-around of Go's 64-bit [int]. *)
Definition wrap64 (z : Z) : Z := (z + 2 ^ 63) mod 2 ^ 64 - 2 ^ 63.
Definition MaxInt64 : Z := 2 ^ 63 - 1.

(** Rounding of the fraction [n / d] ([0 < d]) to the nearest integer, ties
    to even. *)
Definition round_half_even (n d : Z) : Z :=
  let k := n / d in
  let r := n mod d in
  if 2 * r <? d then k
  else if d <? 2 * r then k + 1
  else if Z.even k then k else k + 1.

(** The number that [fmt.Sprintf("%f", x)] writes: [x] rounded to six
    decimals. *)
Definition Sprintf_f (x : Q) : Q :=
  round_half_even (Qnum x * 1000000) (QDen x) # 1000000.

(** [fmt.Sprintf("%.0f", x)] for an integral [x]. *)
Definition Sprintf_0f (x : Z) : string := pretty x.

Module TimelineCache.
Import SortedSet.

Definition TimelineCacheTTL : Duration := 24 * Hour.
Definition MaxTimelineSize : Z := 1000.
Definition ActiveUserCacheTTL : Duration := 7 * 24 * Hour.
Definition InactiveUserCacheTTL : Duration := 2 * Hour.

Record TimelineItem : Type := mkItem {
  item_PostID : string;
  item_Score : Z;
  item_Timestamp : Time
}.

Definition getTimelineKey (userID : uuid) : string :=
  "timeline:" +:+ uuid_String userID.

Definition AddToTimeline (r : Redis) (userID postID : uuid) (score : R)
    (timestamp : Time) : Redis :=
  let key := getTimelineKey userID in
  let scoreValue := Unix timestamp in
  let r := RedisClient.ZAdd key (mkZ scoreValue (uuid_String postID)) r in
  let r := RedisClient.ZRemRangeByRank key 0 (- MaxTimelineSize - 1) r in
  RedisClient.Expire key TimelineCacheTTL r.

Definition RemoveFromTimeline (r : Redis) (userID postID : uuid) : Redis :=
  RedisClient.ZRem (getTimelineKey userID) (uuid_String postID) r.

(** The pipeline queues three commands per user and runs them in order. *)
Definition BatchAddToTimeline (r : Redis) (userIDs : list uuid) (postID : uuid)
    (score : R) (timestamp : Time) : Redis :=
  let scoreValue := Unix timestamp in
  fold_left
    (fun pipe userID =>
       let key := getTimelineKey userID in
       let pipe := RedisClient.ZAdd key (mkZ scoreValue (uuid_String postID)) pipe in
       let pipe := RedisClient.ZRemRangeByRank key 0 (- MaxTimelineSize - 1) pipe in
       RedisClient.Expire key TimelineCacheTTL pipe)
    userIDs r.

Definition ClearUserTimeline (r : Redis) (userID : uuid) : Redis :=
  RedisClient.Delete (getTimelineKey userID) r.

Definition IsTimelineCached (r : Redis) (userID : uuid) : bool :=
  0 <? RedisClient.Exists (getTimelineKey userID) r.

Definition GetTimelineSize (r : Redis) (userID : uuid) : Z :=
  RedisClient.ZCard (getTimelineKey userID) r.

Definition SetTimelineExpiration (r : Redis) (userID : uuid) (isActiveUser : bool) : Redis :=
  let ttl := if isActiveUser then ActiveUserCacheTTL else InactiveUserCacheTTL in
  RedisClient.Expire (getTimelineKey userID) ttl r.

Definition RebuildTimelineFromDB (r : Redis) (userID : uuid)
    (timelines : list Timeline) : Redis :=
  let key := getTimelineKey userID in
  let r := RedisClient.Delete key r in
  match timelines with
  | [] => r
  | _ =>
    let pipe :=
      fold_left
        (fun pipe timeline =>
           RedisClient.ZAdd key
             (mkZ (Unix (tl_CreatedAt timeline)) (uuid_String (tl_PostID timeline))) pipe)
        timelines r in
    RedisClient.Expire key TimelineCacheTTL pipe
  end.

Definition GetOldestPostScore (r : Redis) (userID : uuid) : Z :=
  match RedisClient.ZRangeWithScores (getTimelineKey userID) r with
  | [] => 0
  | e :: _ => Score e
  end.

(** The sorted set that [AddToTimeline] leaves under the key, as a function
    of the one it finds there. *)
Definition added (e : ZEntry) (l : zset) : zset :=
  SortedSet.ZRemRangeByRank 0 (- MaxTimelineSize - 1) (SortedSet.ZAdd e l).

(** What Redis holds for one key of the timeline cache: the sorted set and
    the time to live. *)
Definition view (key : string) (r : Redis) : option zset * option Duration :=
  (zsets r !! key, expires r !! key).

(** The entries of a sorted set that refer to a post. *)
Definition entries_of (postID : uuid) (l : zset) : list ZEntry :=
  List.filter (fun e => String.eqb (Member e) (uuid_String postID)) l.

Section GetTimeline.
(** [strconv.ParseFloat(s, 64)], a function of the Go library: [None] is a
    non-nil error.  Only finite results are represented. *)
Variable ParseFloat : string -> option Q.

(** The page of a user's timeline below a cursor.  [None] is the run-time
    panic of the slice expression [results[:limit]] when [limit] is
    negative; the error result of the Go function only reports a failed
    Redis command and is not represented. *)
Definition GetTimeline (r : Redis) (userID : uuid) (cursor : string) (limit : Z)
    (now : Time) : option (list TimelineItem * string * bool) :=
  let key := getTimelineKey userID in
  let maxScore : Q := inject_Z (Unix now) in
  let maxScore :=
    if negb (String.eqb cursor "")
    then match ParseFloat cursor with
         | Some score => score
         | None => maxScore
         end
    else maxScore in
  let results :=
    RedisClient.ZRevRangeByScoreWithScores key (Sprintf_f maxScore)
      (wrap64 (limit + 1)) r in
  let hasMore := limit <? Z.of_nat (length results) in
  if hasMore && (limit <? 0) then None
  else
    let results := if hasMore then take (Z.to_nat limit) results else results in
    let '(items, nextCursor) :=
      fold_left
        (fun '(items, nextCursor) result =>
           (items ++ [mkItem (Member result) (Score result) (time_Unix (Score result))],
            Sprintf_0f (Score result)))
        results ([], "") in
    Some (items, nextCursor, hasMore).

End GetTimeline.

End TimelineCache.

(** * The database, the event bus and the state of the system *)

(** Go's [error] values are kept as their messages; a wrapped error keeps the
    message of the wrapping [fmt.Errorf]. *)
Definition error : Type := string.

(** Modelled from the spec: the fields [LastActiveAt], [ActivityScore] and
    [IsOnline], which [activity.go] reads and writes, are not declared by the
    [models.User] struct of the sources; the data model of the specification
    gives a nullable last-active time, a double score and an online flag. *)
Record User : Type := mkUser {
  ID : uuid;
  Followers : Z;
  Following : Z;
  LastActiveAt : option Time;
  ActivityScore : R;
  IsOnline : bool
}.

(** [models.Post] *)
Record Post : Type := mkPost {
  post_ID : uuid;
  post_UserID : uuid;
  Content : string;
  LikeCount : Z;
  CommentCount : Z;
  ShareCount : Z;
  post_Score : R;
  IsDeleted : bool;
  CreatedAt : Time
}.

(** [models.Follow] *)
Record Follow : Type := mkFollow {
  FollowerID : uuid;
  FollowingID : uuid
}.

(** The tables: [users] and [posts] by primary key, [follows] and
    [timelines] as their rows. *)
Record DB : Type := mkDB {
  users : gmap uuid User;
  posts : gmap uuid Post;
  follows : list Follow;
  timelines : list Timeline
}.

(** [queue.Event] *)
Record Event : Type := mkEvent {
  ev_Type : string;
  ev_Timestamp : Time;
  ev_Data : list (string * string)
}.

(** The writes of the fan-out, in the order in which they are issued: a
    ghost log that the services append to next to each write. *)
Inductive Write : Type :=
  | WTimeline (owners : list uuid) (postID : uuid)
  | WStatus (key : string) (status : string).

Record World : Type := mkWorld {
  db : DB;
  redis : Redis;
  bus : list (string * Event);
  writes : list Write
}.

Definition with_db (f : DB -> DB) (w : World) : World :=
  mkWorld (f (db w)) (redis w) (bus w) (writes w).
Definition with_redis (f : Redis -> Redis) (w : World) : World :=
  mkWorld (db w) (f (redis w)) (bus w) (writes w).
Definition logged (x : Write) (w : World) : World :=
  mkWorld (db w) (redis w) (bus w) (writes w ++ [x]).
(** [producer.Publish(ctx, key, event)] *)
Definition Publish (key : string) (e : Event) (w : World) : World :=
  mkWorld (db w) (redis w) (bus w ++ [(key, e)]) (writes w).

Module UserRepository.
Definition GetByID (d : DB) (id : uuid) : option User := users d !! id.
(** [Save] writes the row of the user's primary key. *)
Definition Update (d : DB) (user : User) : DB :=
  mkDB (<[ID user := user]> (users d)) (posts d) (follows d) (timelines d).
End UserRepository.

Module FollowRepository.
(** The users joined to the follow rows that point at [userID], from
    [offset], at most [limit] of them. *)
Definition GetFollowers (d : DB) (userID : uuid) (offset limit : Z) : list User :=
  let rows :=
    omap (fun f => if String.eqb (FollowingID f) userID
                   then users d !! FollowerID f else None)
         (follows d) in
  take (Z.to_nat limit) (drop (Z.to_nat offset) rows).
End FollowRepository.

(** * Activity service *)

Module Activity.
Import SortedSet.

Definition ActiveUserScoreThreshold : R := 50.
Definition OnlineUserCacheTTL : Duration := 15 * Minute.
Definition ActivityDecayFactor : R := 9 / 10.
Definition MaxActivityScore : R := 1000.

(** [d.Hours()] *)
Definition Hours (d : Duration) : R := IZR d / IZR Hour.

Definition getActivityIncrement (activityType : string) : R :=
  if String.eqb activityType "login" then 5
  else if String.eqb activityType "post" then 15
  else if String.eqb activityType "like" then 2
  else if String.eqb activityType "comment" then 8
  else if String.eqb activityType "share" then 10
  else if String.eqb activityType "view_feed" then 1
  else 1.

Definition set_LastActiveAt (t : option Time) (u : User) : User :=
  mkUser (ID u) (Followers u) (Following u) t (ActivityScore u) (IsOnline u).
Definition set_IsOnline (b : bool) (u : User) : User :=
  mkUser (ID u) (Followers u) (Following u) (LastActiveAt u) (ActivityScore u) b.
Definition set_ActivityScore (s : R) (u : User) : User :=
  mkUser (ID u) (Followers u) (Following u) (LastActiveAt u) s (IsOnline u).

(** The statements of [UpdateUserActivity] on the fetched user, in the order
    of the source: the last-active time is overwritten first, the decay is
    computed afterwards from the field just written. *)
Definition updatedUser (user : User) (activityType : string) (now : Time) : User :=
  let user := set_LastActiveAt (Some now) user in
  let user := set_IsOnline true user in
  let increment := getActivityIncrement activityType in
  let user :=
    match LastActiveAt user with
    | Some last =>
      let hoursSinceLastActive := Hours (Sub now last) in
      let decay := Rpower ActivityDecayFactor (hoursSinceLastActive / 24) in
      set_ActivityScore (ActivityScore user * decay + increment) user
    | None => set_ActivityScore increment user
    end in
  if Rlt_dec MaxActivityScore (ActivityScore user)
  then set_ActivityScore MaxActivityScore user
  else user.

Definition UpdateUserActivity (w : World) (userID : uuid) (activityType : string)
    (now : Time) : World * option error :=
  match UserRepository.GetByID (db w) userID with
  | None => (w, Some "user not found")
  | Some user =>
    let user := updatedUser user activityType now in
    let w := with_db (fun d => UserRepository.Update d user) w in
    let onlineKey := "user_online:" +:+ uuid_String userID in
    let w := with_redis (RedisClient.Set_ onlineKey "1" OnlineUserCacheTTL) w in
    let activeKey := "user_active:" +:+ uuid_String userID in
    let w := with_redis (RedisClient.Delete activeKey) w in
    (w, None)
  end.

(** [time.Since(t) < 7*24*time.Hour] is decided on the clock reading [now]. *)
Definition calculateUserActivity (user : User) (now : Time) : bool :=
  if IsOnline user then true
  else if Rle_dec ActiveUserScoreThreshold (ActivityScore user) then true
  else match LastActiveAt user with
       | Some last => Sub now last <? 7 * 24 * Hour
       | None => false
       end.

Section WithParse.
(** [uuid.Parse] of the uuid library; [None] is a non-nil error. *)
Variable uuid_Parse : string -> option uuid.

Definition getActiveFollowersFromCache (r : Redis) (key : string) : list uuid :=
  omap uuid_Parse (RedisClient.ZRevRange key r).

Definition cacheActiveFollowers (r : Redis) (key : string) (followers : list uuid)
    (now : Time) : Redis :=
  match followers with
  | [] => r
  | _ =>
    let r := fold_left (fun r follower =>
                          RedisClient.ZAdd key (mkZ (Unix now) (uuid_String follower)) r)
                       followers r in
    RedisClient.Expire key (10 * Minute) r
  end.

(** The branch that should query the database is a placeholder in the
    source: it caches and returns the empty list. *)
Definition GetActiveFollowers (r : Redis) (userID : uuid) (limit : Z) (now : Time)
    : Redis * list uuid :=
  let cacheKey := "active_followers:" +:+ uuid_String userID in
  let cachedFollowers := getActiveFollowersFromCache r cacheKey in
  if 0 <? Z.of_nat (length cachedFollowers) then
    if limit <? Z.of_nat (length cachedFollowers)
    then (r, take (Z.to_nat limit) cachedFollowers)
    else (r, cachedFollowers)
  else
    let activeFollowers : list uuid := [] in
    let r := cacheActiveFollowers r cacheKey activeFollowers now in
    (r, activeFollowers).

End WithParse.

End Activity.

Module PostRepository.
(** [First(&post, "id = ? AND is_deleted = ?", id, false)] *)
Definition GetByID (d : DB) (id : uuid) : option Post :=
  match posts d !! id with
  | Some post => if IsDeleted post then None else Some post
  | None => None
  end.

Definition set_IsDeleted (b : bool) (p : Post) : Post :=
  mkPost (post_ID p) (post_UserID p) (Content p) (LikeCount p) (CommentCount p)
         (ShareCount p) (post_Score p) b (CreatedAt p).

(** [Model(&models.Post{}).Where("id = ?", id).Update("is_deleted", true)] *)
Definition Delete (d : DB) (id : uuid) : DB :=
  mkDB (users d) (alter (set_IsDeleted true) id (posts d)) (follows d) (timelines d).
End PostRepository.

Module TimelineRepository.
(** [Where("post_id = ?", postID).Delete(&models.Timeline{})] *)
Definition DeleteByPostID (d : DB) (postID : uuid) : DB :=
  mkDB (users d) (posts d) (follows d)
       (List.filter (fun t => negb (String.eqb (tl_PostID t) postID)) (timelines d)).
End TimelineRepository.

(** * The distributor of the optimised feed service *)

(** [config.FeedConfig], the two fields the fan-out reads. *)
Record FeedConfig : Type := mkFeedConfig {
  PushThreshold : Z;
  MaxFeedSize : Z
}.

Module Distributor.

Section WithParse.
Variable uuid_Parse : string -> option uuid.
Variable config : FeedConfig.

Definition recordDistributionStatus (w : World) (postID authorID : uuid)
    (status : string) (now : Time) : World :=
  let key := "distribution_status:" +:+ uuid_String postID in
  let data := mkStatus (uuid_String postID) (uuid_String authorID) status (Unix now) in
  logged (WStatus key status)
         (with_redis (RedisClient.SetStatus key data (24 * Hour)) w).

Definition distributeForInfluencer (w : World) (post : Post) (author : User)
    (now : Time) : World * option error :=
  let '(r, activeFollowers) :=
    Activity.GetActiveFollowers uuid_Parse (redis w) (ID author) 1000 now in
  let w := with_redis (fun _ => r) w in
  let w :=
    if 0 <? Z.of_nat (length activeFollowers)
    then logged (WTimeline activeFollowers (post_ID post))
           (with_redis (fun r => TimelineCache.BatchAddToTimeline r activeFollowers
                                   (post_ID post) (post_Score post) (CreatedAt post)) w)
    else w in
  let w := recordDistributionStatus w (post_ID post) (ID author)
             "influencer_push_completed" now in
  let event :=
    mkEvent "post_distribution_completed" now
      [("post_id", uuid_String (post_ID post));
       ("author_id", uuid_String (ID author));
       ("active_followers", pretty (Z.of_nat (length activeFollowers)));
       ("distribution_type", "influencer")] in
  let w := Publish (uuid_String (ID author)) event w in
  (w, None).

Definition distributeForRegularUser (w : World) (post : Post) (author : User)
    : World * option error :=
  let followers :=
    FollowRepository.GetFollowers (db w) (ID author) 0 (MaxFeedSize config) in
  let followerIDs := ID <$> followers in
  let w :=
    if 0 <? Z.of_nat (length followerIDs)
    then logged (WTimeline followerIDs (post_ID post))
           (with_redis (fun r => TimelineCache.BatchAddToTimeline r followerIDs
                                   (post_ID post) (post_Score post) (CreatedAt post)) w)
    else w in
  let w :=
    logged (WTimeline [ID author] (post_ID post))
      (with_redis (fun r => TimelineCache.AddToTimeline r (ID author)
                              (post_ID post) (post_Score post) (CreatedAt post)) w) in
  (w, None).

Definition distributePostOptimized (w : World) (post : Post) (author : User)
    (now : Time) : World * option error :=
  if PushThreshold config <? Followers author
  then distributeForInfluencer w post author now
  else distributeForRegularUser w post author.

(** [rebuildTimelineCache] hands the posts of a pull-mode page to the cache:
    the rows it builds. *)
Definition rebuildRows (userID : uuid) (posts : list Post) : list Timeline :=
  (fun post => mkTimeline userID (post_ID post) (post_Score post) (CreatedAt post))
    <$> posts.

End WithParse.

End Distributor.

(** * Recovery service *)

Module Recovery.

Section WithParse.
Variable uuid_Parse : string -> option uuid.

Definition checkPostInTimeline (r : Redis) (userID postID : uuid) : bool :=
  let timelineKey := "timeline:" +:+ uuid_String userID in
  match RedisClient.ZScore timelineKey (uuid_String postID) r with
  | Some _ => true
  | None => false
  end.

Definition updateDistributionStatus (w : World) (key status : string) (now : Time)
    : World * option error :=
  match RedisClient.GetStatus key (redis w) with
  | None => (w, Some "redis: nil")
  | Some distributionStatus =>
    let distributionStatus :=
      mkStatus (PostID distributionStatus) (AuthorID distributionStatus)
               status (Unix now) in
    let ttl := if String.eqb status "completed" then 1 * Hour else 24 * Hour in
    (logged (WStatus key status)
       (with_redis (RedisClient.SetStatus key distributionStatus ttl) w), None)
  end.

Definition recoverInfluencerDistribution (w : World) (post : Post) (author : User)
    (now : Time) : World * option error :=
  let '(r, activeFollowers) :=
    Activity.GetActiveFollowers uuid_Parse (redis w) (ID author) 1000 now in
  let w := with_redis (fun _ => r) w in
  let needDistribution :=
    List.filter (fun followerID =>
                   negb (checkPostInTimeline (redis w) followerID (post_ID post)))
                activeFollowers in
  let w :=
    if 0 <? Z.of_nat (length needDistribution)
    then logged (WTimeline needDistribution (post_ID post))
           (with_redis (fun r => TimelineCache.BatchAddToTimeline r needDistribution
                                   (post_ID post) (post_Score post) (CreatedAt post)) w)
    else w in
  let key := "distribution_status:" +:+ uuid_String (post_ID post) in
  let w := fst (updateDistributionStatus w key "influencer_push_completed" now) in
  (w, None).

Definition recoverRegularDistribution (w : World) (post : Post) (author : User)
    (now : Time) : World * option error :=
  let followers := FollowRepository.GetFollowers (db w) (ID author) 0 10000 in
  let followerIDs := ID <$> followers in
  let needDistribution :=
    List.filter (fun followerID =>
                   negb (checkPostInTimeline (redis w) followerID (post_ID post)))
                followerIDs in
  let w :=
    if 0 <? Z.of_nat (length needDistribution)
    then logged (WTimeline needDistribution (post_ID post))
           (with_redis (fun r => TimelineCache.BatchAddToTimeline r needDistribution
                                   (post_ID post) (post_Score post) (CreatedAt post)) w)
    else w in
  let key := "distribution_status:" +:+ uuid_String (post_ID post) in
  let w := fst (updateDistributionStatus w key "regular_push_completed" now) in
  (w, None).

Definition recoverSingleDistribution (w : World) (key : string) (now : Time)
    : World * option error :=
  match RedisClient.GetStatus key (redis w) with
  | None => (w, Some "failed to get distribution status")
  | Some status =>
    if Unix now - Timestamp status <? 300 then (w, None)
    else
      match uuid_Parse (PostID status) with
      | None => (w, Some "invalid post ID")
      | Some postID =>
        match uuid_Parse (AuthorID status) with
        | None => (w, Some "invalid author ID")
        | Some authorID =>
          match PostRepository.GetByID (db w) postID with
          | None => (with_redis (RedisClient.Delete key) w, None)
          | Some post =>
            match UserRepository.GetByID (db w) authorID with
            | None => (with_redis (RedisClient.Delete key) w, None)
            | Some author =>
              if String.eqb (Status status) "influencer_push_started" then
                match recoverInfluencerDistribution w post author now with
                | (w, Some _) => (w, Some "failed to recover influencer distribution")
                | (w, None) => (w, None)
                end
              else if String.eqb (Status status) "regular_push_started" then
                match recoverRegularDistribution w post author now with
                | (w, Some _) => (w, Some "failed to recover regular distribution")
                | (w, None) => (w, None)
                end
              else (with_redis (RedisClient.Delete key) w, None)
            end
          end
        end
      end
  end.

(** The source has no SCAN command yet: the body returns the empty list. *)
Definition scanKeys (r : Redis) (pattern : string) : list string := [].

Definition RecoverPendingDistributions (w : World) (now : Time) : World * option error :=
  let pattern := "distribution_status:*" in
  let keys := scanKeys (redis w) pattern in
  let w :=
    fold_left (fun w key => fst (recoverSingleDistribution w key now)) keys w in
  (w, None).

End WithParse.

End Recovery.

(** * Feed service: deleting a post *)

Module Feed.

Section WithParse.
Variable uuid_Parse : string -> option uuid.

Definition DeletePost (w : World) (userID postID : string) (now : Time)
    : World * option error :=
  match uuid_Parse postID with
  | None => (w, Some "invalid post ID")
  | Some postUUID =>
    match PostRepository.GetByID (db w) postUUID with
    | None => (w, Some "post not found")
    | Some post =>
      if negb (String.eqb (uuid_String (post_UserID post)) userID)
      then (w, Some "permission denied")
      else
        let w := with_db (fun d => PostRepository.Delete d postUUID) w in
        let w := with_db (fun d => TimelineRepository.DeleteByPostID d postUUID) w in
        let event :=
          mkEvent "post_deleted" now [("post_id", postID); ("user_id", userID)] in
        let w := Publish userID event w in
        (w, None)
    end
  end.

End WithParse.

End Feed.

(** * Further functions of the services *)

Module ActivityService.
Import Activity.

(** The cached answer is returned when there is one; otherwise the answer is
    computed from the stored user and cached for five minutes.  A user that
    does not exist is inactive, and that answer is not cached. *)
Definition IsUserActive (w : World) (userID : uuid) (now : Time) : World * bool :=
  let cacheKey := "user_active:" +:+ uuid_String userID in
  match RedisClient.Get cacheKey (redis w) with
  | Some active => (w, String.eqb active "1")
  | None =>
    match UserRepository.GetByID (db w) userID with
    | None => (w, false)
    | Some user =>
      let isActive := calculateUserActivity user now in
      let cacheValue := if isActive then "1" else "0" in
      (with_redis (RedisClient.Set_ cacheKey cacheValue (5 * Minute)) w, isActive)
    end
  end.

Definition SetUserOffline (w : World) (userID : uuid) : World * option error :=
  match UserRepository.GetByID (db w) userID with
  | None => (w, None)
  | Some user =>
    let user := set_IsOnline false user in
    let w := with_db (fun d => UserRepository.Update d user) w in
    let onlineKey := "user_online:" +:+ uuid_String userID in
    let w := with_redis (RedisClient.Delete onlineKey) w in
    (w, None)
  end.

End ActivityService.

Module PostQueries.
(** [Where("id IN (?)", postIDs).Where("is_deleted = ?", false).Find(&posts)]:
    the rows come in the order of the table. *)
Definition GetByIDs (d : DB) (postIDs : list uuid) : list Post :=
  snd <$> List.filter (fun row => bool_decide (fst row ∈ postIDs) && negb (IsDeleted (snd row)))
                      (map_to_list (posts d)).
End PostQueries.

Module OptimizedFeed.
Import TimelineCache.

Section WithParse.
Variable uuid_Parse : string -> option uuid.

Definition getPostsByIDs (d : DB) (timelineItems : list TimelineItem) : list Post :=
  let postIDs := omap (fun item => uuid_Parse (item_PostID item)) timelineItems in
  match postIDs with
  | [] => []
  | _ =>
    let posts := PostQueries.GetByIDs d postIDs in
    let postMap : gmap uuid Post :=
      fold_left (fun postMap post => <[post_ID post := post]> postMap) posts ∅ in
    omap (fun item =>
            match uuid_Parse (item_PostID item) with
            | Some postID =>
              match postMap !! postID with
              | Some post => if IsDeleted post then None else Some post
              | None => None
              end
            | None => None
            end)
         timelineItems
  end.

End WithParse.

Definition rebuildTimelineCache (w : World) (userID : uuid) (posts : list Post)
    (now : Time) : World :=
  let timelines :=
    (fun post => mkTimeline userID (post_ID post) (post_Score post) (CreatedAt post))
      <$> posts in
  let w := with_redis (fun r => RebuildTimelineFromDB r userID timelines) w in
  let '(w, isActive) := ActivityService.IsUserActive w userID now in
  with_redis (fun r => SetTimelineExpiration r userID isActive) w.

(** [math.Log10] *)
Definition Log10 (x : R) : R := (ln x / ln 10)%R.

Definition calculateInitialScore (user : User) : R :=
  let score : R := 1%R in
  let score : R :=
    if 0 <? Followers user
    then (score + Log10 (IZR (Followers user) + 1) * (5 / 10))%R
    else score in
  (score + IZR (Following user) * (1 / 100))%R.

Definition calculatePostScore (post : Post) (user : User) (now : Time) : R :=
  let score := calculateInitialScore user in
  let hoursSinceCreated := Activity.Hours (Sub now (CreatedAt post)) in
  let timeDecay := exp (- hoursSinceCreated / 24) in
  let engagementScore : R :=
    (IZR (LikeCount post) * (1 / 10) + IZR (CommentCount post) * (2 / 10)
     + IZR (ShareCount post) * (3 / 10))%R in
  ((score + engagementScore) * timeDecay)%R.

End OptimizedFeed.

(** * The fan-out of the first feed service, into the [timelines] table *)

Module TimelineRows.

(** The pair of columns that [UNIQUE(user_id, post_id)] constrains. *)
Definition pair (t : Timeline) : uuid * uuid := (tl_UserID t, tl_PostID t).

(** The foreign keys of a row, [user_id] into [users] and [post_id] into
    [posts], which the database script declares ([REFERENCES]) and
    [models.Timeline] declares as associations: both rows are stored. *)
Definition references (d : DB) (t : Timeline) : bool :=
  bool_decide (is_Some (users d !! tl_UserID t))
  && bool_decide (is_Some (posts d !! tl_PostID t)).

(** A row of the table holds the pair already. *)
Definition present (d : DB) (t : Timeline) : bool :=
  bool_decide (pair t ∈ pair <$> timelines d).

Section WithSchema.
(** Whether the table carries [UNIQUE(user_id, post_id)].  The table that the
    database initialisation script creates does ([create_timelines_table]);
    the one that [AutoMigrate] creates from the tags of [models.Timeline] has
    a plain index on the pair. *)
Variable unique_user_post : bool.

(** Whether the database accepts the rows of one insertion: their foreign
    keys hold and, under the unique constraint, no pair occurs twice among
    them or is held by the table. *)
Definition accepts (d : DB) (rows : list Timeline) : bool :=
  forallb (references d) rows
  && (negb unique_user_post
      || (bool_decide (NoDup (pair <$> rows))
          && forallb (fun t => negb (present d t)) rows)).

(** [Create(timeline)]: [None] is the error of a refused insertion. *)
Definition Create (d : DB) (timeline : Timeline) : option DB :=
  if accepts d [timeline]
  then Some (mkDB (users d) (posts d) (follows d) (timelines d ++ [timeline]))
  else None.

(** [CreateInBatches(timelines, 100)]: GORM sends up to a hundred rows as one
    statement and more within one transaction, so that a refused row leaves
    the table as it was. *)
Definition CreateBatch (d : DB) (rows : list Timeline) : option DB :=
  if accepts d rows
  then Some (mkDB (users d) (posts d) (follows d) (timelines d ++ rows))
  else None.

End WithSchema.

(** [Where("user_id = ?", userID).Count(&count)] *)
Definition CountByUserID (d : DB) (userID : uuid) : Z :=
  Z.of_nat (length (List.filter (fun t => String.eqb (tl_UserID t) userID) (timelines d))).
(** [Where("user_id = ? AND post_id = ?", userID, postID).Delete(...)] *)
Definition DeleteByUserIDAndPostID (d : DB) (userID postID : uuid) : DB :=
  mkDB (users d) (posts d) (follows d)
       (List.filter (fun t => negb (String.eqb (tl_UserID t) userID
                                    && String.eqb (tl_PostID t) postID))
                    (timelines d)).
End TimelineRows.

Module FeedService.

Section WithConfig.
Variable unique_user_post : bool.
Variable config : FeedConfig.

Definition pushPost (w : World) (post : Post) (author : User) : World * option error :=
  let followers :=
    FollowRepository.GetFollowers (db w) (ID author) 0 (MaxFeedSize config) in
  let rows :=
    (fun follower => mkTimeline (ID follower) (post_ID post) (post_Score post)
                       (CreatedAt post)) <$> followers in
  let created :=
    if 0 <? Z.of_nat (length rows)
    then TimelineRows.CreateBatch unique_user_post (db w) rows
    else Some (db w) in
  match created with
  | None => (w, Some "failed to create timelines")
  | Some d =>
    let w := with_db (fun _ => d) w in
    let authorTimeline :=
      mkTimeline (ID author) (post_ID post) (post_Score post) (CreatedAt post) in
    let w :=
      match TimelineRows.Create unique_user_post (db w) authorTimeline with
      | Some d => with_db (fun _ => d) w
      | None => w
      end in
    (w, None)
  end.

Definition pullPost (w : World) (post : Post) (author : User) : World * option error :=
  let followers := FollowRepository.GetFollowers (db w) (ID author) 0 1000 in
  let rows :=
    (fun follower => mkTimeline (ID follower) (post_ID post) (post_Score post)
                       (CreatedAt post)) <$> followers in
  let created :=
    if 0 <? Z.of_nat (length rows)
    then TimelineRows.CreateBatch unique_user_post (db w) rows
    else Some (db w) in
  match created with
  | None => (w, Some "failed to create timelines")
  | Some d =>
    let w := with_db (fun _ => d) w in
    let authorTimeline :=
      mkTimeline (ID author) (post_ID post) (post_Score post) (CreatedAt post) in
    let w :=
      match TimelineRows.Create unique_user_post (db w) authorTimeline with
      | Some d => with_db (fun _ => d) w
      | None => w
      end in
    (w, None)
  end.

Definition distributePost (w : World) (post : Post) (author : User)
    : World * option error :=
  if Followers author <=? PushThreshold config
  then pushPost w post author
  else pullPost w post author.

End WithConfig.

End FeedService.

(** * Cache strategy service *)

Record UserCacheStrategy : Type := mkStrategy {
  cs_UserID : uuid;
  cs_IsActive : bool;
  cs_IsVIP : bool;
  cs_CacheTTL : Duration;
  cs_MaxTimelineItems : Z;
  cs_LastUpdated : Time
}.

Module CacheStrategy.

Definition ActiveUserCacheHours : Z := 7 * 24.
Definition InactiveUserCacheHours : Z := 2.
Definition VIPUserCacheHours : Z := 30 * 24.
Definition MaxTimelineItemsActive : Z := 1000.
Definition MaxTimelineItemsInactive : Z := 200.

(** The VIP test is a placeholder in the source: [isVIP] stays false. *)
Definition DetermineUserCacheStrategy (w : World) (userID : uuid) (now : Time)
    : World * UserCacheStrategy :=
  let '(w, isActive) := ActivityService.IsUserActive w userID now in
  let isVIP := false in
  let '(cacheTTL, maxItems) :=
    if isVIP then (VIPUserCacheHours * Hour, MaxTimelineItemsActive * 2)
    else if isActive then (ActiveUserCacheHours * Hour, MaxTimelineItemsActive)
    else (InactiveUserCacheHours * Hour, MaxTimelineItemsInactive) in
  (w, mkStrategy userID isActive isVIP cacheTTL maxItems now).

Definition trimUserTimeline (r : Redis) (userID : uuid) (maxItems : Z) : Redis :=
  let timelineKey := "timeline:" +:+ uuid_String userID in
  RedisClient.ZRemRangeByRank timelineKey 0 (- maxItems - 1) r.

(** The body returns the empty list: there is no SCAN command yet. *)
Definition scanTimelineKeys (r : Redis) (pattern : string) : list string := [].

Section WithLibraries.
(** [json.Marshal] of a strategy and [uuid.Parse], functions of libraries. *)
Variable json_Marshal : UserCacheStrategy -> string.
Variable uuid_Parse : string -> option uuid.

Definition cacheUserStrategy (r : Redis) (userID : uuid) (strategy : UserCacheStrategy)
    : Redis :=
  let key := "user_cache_strategy:" +:+ uuid_String userID in
  RedisClient.Set_ key (json_Marshal strategy) (24 * Hour) r.

Definition ApplyCacheStrategy (w : World) (userID : uuid) (now : Time)
    : World * option error :=
  let '(w, strategy) := DetermineUserCacheStrategy w userID now in
  let w :=
    with_redis (fun r => TimelineCache.SetTimelineExpiration r userID
                           (cs_IsActive strategy)) w in
  let w :=
    if negb (cs_IsActive strategy) then
      let timelineSize := TimelineCache.GetTimelineSize (redis w) userID in
      if cs_MaxTimelineItems strategy <? timelineSize
      then with_redis (fun r => trimUserTimeline r userID (cs_MaxTimelineItems strategy)) w
      else w
    else w in
  let w := with_redis (fun r => cacheUserStrategy r userID strategy) w in
  (w, None).

(** [None] is a non-nil error: a key that is too short or lacks the prefix,
    or a suffix that [uuid.Parse] rejects. *)
Definition extractUserIDFromTimelineKey (key : string) : option uuid :=
  if (Z.of_nat (String.length key) <? 10)
     || negb (String.eqb (String.substring 0 9 key) "timeline:")
  then None
  else
    let userIDStr := String.substring 9 (String.length key - 9) key in
    uuid_Parse userIDStr.

End WithLibraries.

End CacheStrategy.

(** * Notions used in the statements *)

(** The entry that [RebuildTimelineFromDB] files for a row. *)
Definition rebuild_entry (timeline : Timeline) : SortedSet.ZEntry :=
  SortedSet.mkZ (Unix (tl_CreatedAt timeline)) (uuid_String (tl_PostID timeline)).

(** The entries of other members that rank above the entry [e] in a sorted
    set: the ones that the trim removes only after [e]. *)
Definition ranking_above (e : SortedSet.ZEntry) (l : SortedSet.zset) : list SortedSet.ZEntry :=
  List.filter (fun x => negb (SortedSet.zleb x e)) (SortedSet.ZRem (SortedSet.Member e) l).

Module Page.
Import SortedSet TimelineCache.

(** The entries of a sorted set whose score is strictly below [c], the
    highest rank first. *)
Definition below (c : Z) (l : zset) : list ZEntry :=
  rev (List.filter (fun e => Score e <? c) l).

Definition toItem (e : ZEntry) : TimelineItem :=
  mkItem (Member e) (Score e) (time_Unix (Score e)).

(** The cursor written after a page: the score of its last item, empty when
    the page is empty. *)
Definition cursor_after (items : list TimelineItem) : string :=
  match last items with
  | Some item => Sprintf_0f (item_Score item)
  | None => ""
  end.

(** The epoch [c] that a cursor string denotes at the clock reading [now]:
    the number it parses to, and the current Unix time when it is empty or
    does not parse. *)
Definition cursor_epoch (ParseFloat : string -> option Q) (cursor : string)
    (now : Time) (c : Z) : Prop :=
  if String.eqb cursor "" then c = Unix now
  else match ParseFloat cursor with
       | Some q => q == inject_Z c
       | None => c = Unix now
       end.

End Page.

Module Fanout.

Section WithParse.
Variable uuid_Parse : string -> option uuid.
Variable config : FeedConfig.

(** The users whose cached timeline a fan-out of the optimised service
    writes: the cached active followers of an author above the push
    threshold; otherwise the followers read from the database, and the
    author. *)
Definition recipients (w : World) (author : User) (now : Time) : list uuid :=
  if PushThreshold config <? Followers author
  then snd (Activity.GetActiveFollowers uuid_Parse (redis w) (ID author) 1000 now)
  else (ID <$> FollowRepository.GetFollowers (db w) (ID author) 0 (MaxFeedSize config))
       ++ [ID author].

(** The users that the recovery of a started fan-out looks at. *)
Definition recovery_targets (w : World) (status : string) (author : User) (now : Time)
    : list uuid :=
  if String.eqb status "influencer_push_started"
  then snd (Activity.GetActiveFollowers uuid_Parse (redis w) (ID author) 1000 now)
  else ID <$> FollowRepository.GetFollowers (db w) (ID author) 0 10000.

(** A record that [recoverSingleDistribution] acts on: it is at least [300]
    seconds old, names a stored post and a stored author, and says that a
    fan-out started. *)
Definition stalled (w : World) (key : string) (now : Time)
    (status : DistributionStatus) (post : Post) (author : User) : Prop :=
  RedisClient.GetStatus key (redis w) = Some status
  /\ 300 <= Unix now - Timestamp status
  /\ (exists postID, uuid_Parse (PostID status) = Some postID
                     /\ PostRepository.GetByID (db w) postID = Some post)
  /\ (exists authorID, uuid_Parse (AuthorID status) = Some authorID
                       /\ UserRepository.GetByID (db w) authorID = Some author)
  /\ (Status status = "influencer_push_started"
      \/ Status status = "regular_push_started").

End WithParse.

(** The entry that the fan-out files for a post. *)
Definition entry (post : Post) : SortedSet.ZEntry :=
  SortedSet.mkZ (Unix (CreatedAt post)) (uuid_String (post_ID post)).

End Fanout.

Module Rows.

(** The row of the [timelines] table that files a post for a user. *)
Definition row (post : Post) (userID : uuid) : Timeline :=
  mkTimeline userID (post_ID post) (post_Score post) (CreatedAt post).

(** The followers that the fan-out of the first feed service reads:
    [MaxFeedSize] of them in push mode, [1000] in pull mode. *)
Definition followers (config : FeedConfig) (w : World) (author : User) : list uuid :=
  let limit :=
    if Followers author <=? PushThreshold config then MaxFeedSize config else 1000 in
  ID <$> FollowRepository.GetFollowers (db w) (ID author) 0 limit.

(** The users for whom the fan-out of the first feed service files a row:
    the followers it reads, then the author. *)
Definition recipients (config : FeedConfig) (w : World) (author : User) : list uuid :=
  let limit :=
    if Followers author <=? PushThreshold config then MaxFeedSize config else 1000 in
  (ID <$> FollowRepository.GetFollowers (db w) (ID author) 0 limit) ++ [ID author].

(** The rows of a table that do not file the post. *)
Definition without (postID : uuid) (rows : list Timeline) : list Timeline :=
  List.filter (fun t => negb (String.eqb (tl_PostID t) postID)) rows.

End Rows.

(** * Concrete states *)

Module Examples.
Import SortedSet.

(** A parser that accepts every string as a uuid in canonical form. *)
Definition parse_any (s : string) : option uuid := Some s.

(** A parser of floats that knows one numeral. *)
Definition parse_100 (s : string) : option Q :=
  if String.eqb s "100" then Some (inject_Z 100) else None.

(** The timeline of user [u] with three posts. *)
Definition small_timeline : Redis :=
  mkRedis {[ "timeline:u" := [mkZ 50 "a"; mkZ 60 "b"; mkZ 70 "c"] ]} ∅ ∅
          {[ "timeline:u" := TimelineCache.TimelineCacheTTL ]}.

(** The timeline of user [u] at its cap: a thousand posts created at the
    seconds 2000 to 2999. *)
Definition full_timeline : Redis :=
  mkRedis {[ "timeline:u" :=
               (fun i => mkZ (2000 + Z.of_nat i) (pretty i)) <$> seq 0 1000 ]} ∅ ∅
          {[ "timeline:u" := TimelineCache.TimelineCacheTTL ]}.

(** A user with score [100] who was last active at time [0]. *)
Definition alice : User := mkUser "u" 0 0 (Some 0) 100 false.

Definition activity_world : World :=
  mkWorld (mkDB {[ "u" := alice ]} ∅ [] []) RedisClient.empty [] [].

Definition config : FeedConfig := mkFeedConfig 5000 1000.

(** An author [a] with one follower [f], an author [star] above the push
    threshold whom [f] follows too, and a post of each. *)
Definition author_a : User := mkUser "a" 1 0 None 0 false.
Definition follower_f : User := mkUser "f" 0 2 None 0 false.
Definition author_star : User := mkUser "star" 6000 0 None 0 false.
Definition post_p1 : Post := mkPost "p1" "a" "hi" 0 0 0 1 false (100 * Second).
Definition post_p2 : Post := mkPost "p2" "star" "hello" 0 0 0 1 false (200 * Second).

Definition database : DB :=
  mkDB {[ "a" := author_a; "f" := follower_f; "star" := author_star ]}
       {[ "p1" := post_p1; "p2" := post_p2 ]}
       [mkFollow "f" "a"; mkFollow "f" "star"]
       [mkTimeline "f" "p1" 1 (100 * Second); mkTimeline "a" "p1" 1 (100 * Second)].

(** Nothing cached yet. *)
Definition fresh_world : World := mkWorld database RedisClient.empty [] [].

(** The cache names [f] as an active follower of [star]. *)
Definition active_world : World :=
  mkWorld database
    (mkRedis {[ "active_followers:star" := [mkZ 1 "f"] ]} ∅ ∅ ∅) [] [].

(** A fan-out of [p1] that stopped after its start was recorded at second
    [0]: no timeline holds the post. *)
Definition stalled_world : World :=
  mkWorld database
    (mkRedis ∅ ∅
       {[ "distribution_status:p1" := mkStatus "p1" "a" "regular_push_started" 0 ]}
       {[ "distribution_status:p1" := 24 * Hour ]}) [] [].

End Examples.

(** * Further concrete data *)

Module Scenarios.
Import SortedSet.

Fixpoint digits_value (s : string) (acc : Z) : option Z :=
  match s with
  | EmptyString => Some acc
  | String c s' =>
    let n := Z.of_N (Ascii.N_of_ascii c) - 48 in
    if (0 <=? n) && (n <=? 9) then digits_value s' (10 * acc + n) else None
  end.

(** A parser of floats that reads the unsigned decimal numerals and rejects
    every other string. *)
Definition parse_digits (s : string) : option Q :=
  match s with
  | EmptyString => None
  | _ => inject_Z <$> digits_value s 0
  end.

(** Two rows of the [timelines] table for user [u]. *)
Definition two_rows : list Timeline :=
  [mkTimeline "u" "p1" 1 (100 * Second); mkTimeline "u" "p2" 1 (200 * Second)].

End Scenarios.

(** * Properties of the sorted-set commands *)

(** Closes a decidable statement about concrete data by evaluation. *)
Ltac by_evaluation := apply (bool_decide_unpack _); vm_compute; reflexivity.

Section SortedSetFacts.
Import SortedSet.

Lemma zle_iff (a b : ZEntry) :
  zle a b <->
  Score a < Score b \/ (Score a = Score b /\ String.le (Member a) (Member b)).
Proof.
  unfold zle, zleb, String.le.
  rewrite orb_true_iff, andb_true_iff, Z.ltb_lt, Z.eqb_eq, Is_true_true.
  reflexivity.
Qed.

Global Instance zle_refl : Reflexive zle.
Proof. intros a. apply zle_iff. right. split; [reflexivity | reflexivity]. Qed.

Global Instance zle_trans : Transitive zle.
Proof.
  intros a b c Hab Hbc. apply zle_iff in Hab, Hbc. apply zle_iff.
  destruct Hab as [Hab | [Hab Hab']], Hbc as [Hbc | [Hbc Hbc']];
    [left; lia | left; lia | left; lia | right].
  split; [lia | by etrans].
Qed.

Global Instance zle_total : Total zle.
Proof.
  intros a b. rewrite !zle_iff.
  destruct (Z.lt_trichotomy (Score a) (Score b)) as [H | [H | H]]; [tauto | | tauto].
  destruct (total String.le (Member a) (Member b)); [left | right]; right; by split.
Qed.

Global Instance zle_antisymm : AntiSymm (=) zle.
Proof.
  intros [sa ma] [sb mb] Hab Hba. apply zle_iff in Hab, Hba. simpl in *.
  destruct Hab as [Hab | [Hab Hab']], Hba as [Hba | [Hba Hba']]; try lia.
  f_equal; [done | by apply (anti_symm String.le)].
Qed.

Lemma zleb_false (a b : ZEntry) : zleb a b = false -> zle b a.
Proof.
  intros H. destruct (total zle a b) as [Hab | Hba]; [| done].
  unfold zle in Hab. congruence.
Qed.

Lemma zinsert_elem_of (e x : ZEntry) (l : zset) :
  x ∈ zinsert e l <-> x = e \/ x ∈ l.
Proof.
  induction l as [| y r IH]; simpl.
  - rewrite list_elem_of_singleton. split; [by left | intros [H | H]; [done | by apply elem_of_nil in H]].
  - destruct (zleb e y); rewrite !elem_of_cons; [tauto |]. rewrite IH. tauto.
Qed.

Lemma zinsert_length (e : ZEntry) (l : zset) : length (zinsert e l) = S (length l).
Proof. induction l as [| y r IH]; simpl; [done |]. destruct (zleb e y); simpl; lia. Qed.

Lemma zinsert_sorted (e : ZEntry) (l : zset) :
  StronglySorted zle l -> StronglySorted zle (zinsert e l).
Proof.
  induction 1 as [| y r Hr IH Hy]; simpl.
  - repeat constructor.
  - destruct (zleb e y) eqn:E.
    + constructor; [by constructor |].
      constructor; [done |]. eapply Forall_impl; [exact Hy |].
      intros z Hz. by etrans.
    + constructor; [done |]. apply Forall_forall. intros z Hz.
      apply zinsert_elem_of in Hz as [-> | Hz]; [by apply zleb_false |].
      rewrite Forall_forall in Hy. by apply Hy.
Qed.

Lemma zinsert_min (e : ZEntry) (l : zset) :
  Forall (zle e) l -> zinsert e l = e :: l.
Proof. destruct 1 as [| y r Hy _]; simpl; [done |]. by rewrite Hy. Qed.

Lemma ZRem_elem_of (m : string) (x : ZEntry) (l : zset) :
  x ∈ ZRem m l <-> x ∈ l /\ Member x <> m.
Proof.
  unfold ZRem. rewrite !list_elem_of_In, filter_In, negb_true_iff, String.eqb_neq.
  reflexivity.
Qed.

Lemma ZRem_notin (m : string) (l : zset) : m ∉ Member <$> l -> ZRem m l = l.
Proof.
  induction l as [| y r IH]; simpl; [done |]. intros H.
  apply not_elem_of_cons in H as [H1 H2].
  destruct (String.eqb_spec (Member y) m) as [E | E]; simpl; [congruence |].
  f_equal. by apply IH.
Qed.

Lemma ZRem_zinsert (e : ZEntry) (l : zset) :
  ZRem (Member e) (zinsert e l) = ZRem (Member e) l.
Proof.
  induction l as [| y r IH]; simpl.
  - by rewrite String.eqb_refl.
  - destruct (zleb e y); simpl.
    + by rewrite String.eqb_refl.
    + destruct (negb (Member y =? Member e)%string); [by f_equal | done].
Qed.

Lemma ZRem_members_subseteq (m : string) (l : zset) :
  Member <$> ZRem m l ⊆ Member <$> l.
Proof.
  intros x Hx. apply list_elem_of_fmap in Hx as [y [-> Hy]].
  apply ZRem_elem_of in Hy as [Hy _]. by apply list_elem_of_fmap_2.
Qed.

Lemma ZRem_member_gone (m : string) (l : zset) : m ∉ Member <$> ZRem m l.
Proof.
  intros Hx. apply list_elem_of_fmap in Hx as [y [-> Hy]].
  by apply ZRem_elem_of in Hy as [_ Hy].
Qed.

Lemma ZRem_sorted (m : string) (l : zset) :
  StronglySorted zle l -> StronglySorted zle (ZRem m l).
Proof.
  induction 1 as [| y r Hr IH Hy]; simpl; [constructor |].
  destruct (negb (Member y =? m)%string); [| done].
  constructor; [done |]. apply Forall_forall. intros z Hz.
  apply ZRem_elem_of in Hz as [Hz _]. rewrite Forall_forall in Hy. by apply Hy.
Qed.

Lemma ZRem_NoDup (m : string) (l : zset) :
  NoDup (Member <$> l) -> NoDup (Member <$> ZRem m l).
Proof.
  induction l as [| y r IH]; simpl; [done |]. rewrite NoDup_cons. intros [H1 H2].
  destruct (negb (Member y =? m)%string); [| by apply IH].
  simpl. apply NoDup_cons. split; [| by apply IH].
  intros H. apply H1. by apply (ZRem_members_subseteq m).
Qed.

Lemma zinsert_members (e : ZEntry) (l : zset) :
  Member <$> zinsert e l ≡ₚ Member e :: (Member <$> l).
Proof.
  induction l as [| y r IH]; simpl; [done |].
  destruct (zleb e y); simpl; [done |]. rewrite IH. apply Permutation_swap.
Qed.

Lemma wf_nil : wf [].
Proof. split; constructor. Qed.

Lemma ZAdd_wf (e : ZEntry) (l : zset) : wf l -> wf (ZAdd e l).
Proof.
  intros [Hs Hn]. split.
  - by apply zinsert_sorted, ZRem_sorted.
  - unfold ZAdd. rewrite zinsert_members. apply NoDup_cons. split.
    + apply ZRem_member_gone.
    + by apply ZRem_NoDup.
Qed.

Lemma ZAdd_elem_of (e x : ZEntry) (l : zset) :
  x ∈ ZAdd e l <-> x = e \/ (x ∈ l /\ Member x <> Member e).
Proof. unfold ZAdd. by rewrite zinsert_elem_of, ZRem_elem_of. Qed.

(** In a well-formed set an entry is determined by its member. *)
Lemma wf_member_inj (l : zset) (x y : ZEntry) :
  NoDup (Member <$> l) -> x ∈ l -> y ∈ l -> Member x = Member y -> x = y.
Proof.
  induction l as [| z r IH]; simpl; [by intros _ H; apply elem_of_nil in H |].
  rewrite NoDup_cons. intros [H1 H2] Hx Hy E.
  apply elem_of_cons in Hx as [-> | Hx], Hy as [-> | Hy]; [done | | | by apply IH].
  - exfalso. apply H1. rewrite E. by apply list_elem_of_fmap_2.
  - exfalso. apply H1. rewrite <- E. by apply list_elem_of_fmap_2.
Qed.

(** Adding an entry that the set already holds changes nothing. *)
Lemma ZAdd_present (e : ZEntry) (l : zset) : wf l -> e ∈ l -> ZAdd e l = l.
Proof.
  unfold ZAdd. intros [Hs Hn] He. induction Hs as [| y r Hr IH Hy]; simpl.
  - by apply elem_of_nil in He.
  - simpl in Hn. apply NoDup_cons in Hn as [Hn1 Hn2].
    apply elem_of_cons in He as [-> | He].
    + rewrite String.eqb_refl. simpl. rewrite ZRem_notin by done.
      by apply zinsert_min.
    + destruct (String.eqb_spec (Member y) (Member e)) as [E | E]; simpl.
      * exfalso. apply Hn1. rewrite E. by apply list_elem_of_fmap_2.
      * assert (zleb e y = false) as ->.
        { destruct (zleb e y) eqn:Hey; [| done]. exfalso.
          rewrite Forall_forall in Hy.
          assert (y = e) by (apply (anti_symm zle); [by apply Hy | done]).
          congruence. }
        f_equal. by apply IH.
Qed.

Lemma wf_drop (n : nat) (l : zset) : wf l -> wf (drop n l).
Proof.
  intros [Hs Hn]. rewrite <- (take_drop n l) in Hs, Hn. split.
  - by apply StronglySorted_app_1_r in Hs.
  - rewrite fmap_app in Hn. by apply NoDup_app in Hn as (_ & _ & Hn).
Qed.

(** The trim that follows every insertion keeps the [1000] entries of
    highest rank. *)
Lemma ZRemRangeByRank_trim (l : zset) :
  ZRemRangeByRank 0 (- TimelineCache.MaxTimelineSize - 1) l
  = drop (length l - 1000) l.
Proof.
  unfold ZRemRangeByRank, TimelineCache.MaxTimelineSize. cbv zeta.
  change (- (1000) - 1 <? 0) with true.
  change (0 <? 0) with false; cbv iota. change (0 <? 0) with false; cbv iota.
  destruct (Z.ltb_spec (Z.of_nat (length l) + (- (1000) - 1)) 0) as [E | E]; simpl.
  - replace (length l - 1000)%nat with 0%nat by lia. reflexivity.
  - destruct (Z.leb_spec (Z.of_nat (length l)) 0) as [E1 | E1]; [lia |].
    destruct (Z.leb_spec (Z.of_nat (length l))
                (Z.of_nat (length l) + (- (1000) - 1))) as [E2 | E2]; [lia |].
    f_equal. lia.
Qed.

End SortedSetFacts.

(** * Properties of the timeline cache *)

Section TimelineFacts.
Import SortedSet TimelineCache.

Lemma ZAdd_length_pos (e : ZEntry) (l : zset) : (0 < length (SortedSet.ZAdd e l))%nat.
Proof. unfold SortedSet.ZAdd. rewrite zinsert_length. lia. Qed.

Lemma added_eq (e : ZEntry) (l : zset) :
  added e l = drop (length (SortedSet.ZAdd e l) - 1000) (SortedSet.ZAdd e l).
Proof. apply ZRemRangeByRank_trim. Qed.

Lemma added_length (e : ZEntry) (l : zset) : (length (added e l) <= 1000)%nat.
Proof. rewrite added_eq, length_drop. lia. Qed.

Lemma added_nonempty (e : ZEntry) (l : zset) : added e l <> [].
Proof.
  intros H. apply (f_equal length) in H. rewrite added_eq, length_drop in H.
  pose proof (ZAdd_length_pos e l). simpl in H. lia.
Qed.

Lemma added_wf (e : ZEntry) (l : zset) : wf l -> wf (added e l).
Proof. intros H. rewrite added_eq. by apply wf_drop, ZAdd_wf. Qed.

(** The entries that the trim evicts and the ones it keeps. *)
Lemma added_split (e : ZEntry) (l : zset) :
  SortedSet.ZAdd e l
  = take (length (SortedSet.ZAdd e l) - 1000) (SortedSet.ZAdd e l) ++ added e l.
Proof. by rewrite added_eq, take_drop. Qed.

Lemma added_idem (e : ZEntry) (l : zset) :
  wf l -> added e (added e l) = added e l.
Proof.
  intros Hl. pose proof (ZAdd_wf e l Hl) as Hwf. pose proof (added_wf e l Hl) as Hwf1.
  pose proof (added_length e l) as Hlen.
  destruct (decide (e ∈ added e l)) as [Hin | Hout].
  - rewrite (added_eq e (added e l)), (ZAdd_present e (added e l)) by done.
    replace (length (added e l) - 1000)%nat with 0%nat by lia. done.
  - pose proof (added_split e l) as Hsplit.
    set (k := (length (SortedSet.ZAdd e l) - 1000)%nat) in *.
    assert (e ∈ take k (SortedSet.ZAdd e l)) as Hev.
    { assert (e ∈ SortedSet.ZAdd e l) as He by (apply ZAdd_elem_of; by left).
      rewrite Hsplit in He. apply elem_of_app in He as [He | He]; done. }
    destruct Hwf as [Hs Hn]. rewrite Hsplit in Hs.
    assert (Member e ∉ Member <$> added e l) as Hm.
    { intros Hx. apply list_elem_of_fmap in Hx as [y [Ey Hy]]. apply Hout.
      assert (y = e) as ->; [| done].
      apply (wf_member_inj (SortedSet.ZAdd e l)); [done | | | done].
      - rewrite Hsplit. apply elem_of_app. by right.
      - apply ZAdd_elem_of. by left. }
    assert (SortedSet.ZAdd e (added e l) = e :: added e l) as Hadd.
    { unfold SortedSet.ZAdd. rewrite ZRem_notin by done. apply zinsert_min.
      apply Forall_forall. intros y Hy.
      by apply (StronglySorted_app_1_elem_of zle _ _ e y Hs). }
    assert (length (added e l) = 1000%nat) as Hfull.
    { assert (0 < k)%nat.
      { destruct k; [by apply elem_of_nil in Hev | lia]. }
      rewrite added_eq, length_drop. lia. }
    rewrite (added_eq e (added e l)), Hadd. simpl. rewrite Hfull.
    replace (1001 - 1000)%nat with 1%nat by lia. done.
Qed.

Lemma zget_insert (key : string) (l : zset) zs ss ds es :
  RedisClient.zget key (mkRedis (<[key := l]> zs) ss ds es) = l.
Proof. unfold RedisClient.zget. simpl. by rewrite lookup_insert_eq. Qed.

(** The state that [AddToTimeline] leaves. *)
Lemma AddToTimeline_eq (r : Redis) (userID postID : uuid) (score : R) (timestamp : Time) :
  let key := getTimelineKey userID in
  AddToTimeline r userID postID score timestamp
  = mkRedis (<[key := added (mkZ (Unix timestamp) (uuid_String postID))
                            (RedisClient.zget key r)]> (zsets r))
            (strs r) (statuses r) (<[key := TimelineCacheTTL]> (expires r)).
Proof.
  intros key. unfold AddToTimeline. fold key.
  set (e := mkZ (Unix timestamp) (uuid_String postID)).
  unfold RedisClient.ZAdd at 1.
  assert (SortedSet.ZAdd e (RedisClient.zget key r) <> []) as Hne.
  { intros H. pose proof (ZAdd_length_pos e (RedisClient.zget key r)) as Hp.
    rewrite H in Hp. simpl in Hp. lia. }
  unfold RedisClient.zput at 1.
  destruct (SortedSet.ZAdd e (RedisClient.zget key r)) as [| x l1] eqn:E1; [done |].
  unfold RedisClient.ZRemRangeByRank. rewrite zget_insert. rewrite <- E1.
  fold (added e (RedisClient.zget key r)).
  pose proof (added_nonempty e (RedisClient.zget key r)) as Hne'.
  unfold RedisClient.zput.
  destruct (added e (RedisClient.zget key r)) as [| y l2] eqn:E2; [done |].
  simpl. rewrite insert_insert_eq.
  unfold RedisClient.Expire, RedisClient.Exists. simpl.
  rewrite lookup_insert_eq. rewrite bool_decide_eq_true_2 by eauto. simpl. done.
Qed.

Lemma AddToTimeline_zget (r : Redis) (userID postID : uuid) (score : R) (timestamp : Time) :
  RedisClient.zget (getTimelineKey userID)
    (AddToTimeline r userID postID score timestamp)
  = added (mkZ (Unix timestamp) (uuid_String postID))
          (RedisClient.zget (getTimelineKey userID) r).
Proof. rewrite AddToTimeline_eq. apply zget_insert. Qed.

Lemma AddToTimeline_idem (r : Redis) (userID postID : uuid) (score : R) (timestamp : Time) :
  wf (RedisClient.zget (getTimelineKey userID) r) ->
  AddToTimeline (AddToTimeline r userID postID score timestamp)
                userID postID score timestamp
  = AddToTimeline r userID postID score timestamp.
Proof.
  intros Hwf. rewrite (AddToTimeline_eq (AddToTimeline _ _ _ _ _)).
  rewrite AddToTimeline_zget, added_idem by done.
  rewrite AddToTimeline_eq. simpl. by rewrite !insert_insert_eq.
Qed.

Lemma getTimelineKey_inj (u v : uuid) : getTimelineKey u = getTimelineKey v -> u = v.
Proof. unfold getTimelineKey, uuid_String. apply (inj (String.app _)). Qed.

Lemma AddToTimeline_view_eq (r : Redis) (userID postID : uuid) (score : R) (timestamp : Time) :
  view (getTimelineKey userID) (AddToTimeline r userID postID score timestamp)
  = (Some (added (mkZ (Unix timestamp) (uuid_String postID))
                 (RedisClient.zget (getTimelineKey userID) r)),
     Some TimelineCacheTTL).
Proof. rewrite AddToTimeline_eq. unfold view. simpl. by rewrite !lookup_insert_eq. Qed.

Lemma AddToTimeline_view_ne (r : Redis) (key : string) (userID postID : uuid)
    (score : R) (timestamp : Time) :
  key <> getTimelineKey userID ->
  view key (AddToTimeline r userID postID score timestamp) = view key r.
Proof.
  intros H. rewrite AddToTimeline_eq. unfold view. simpl.
  by rewrite !lookup_insert_ne.
Qed.

Lemma zget_view (key : string) (r : Redis) :
  RedisClient.zget key r = default [] (fst (view key r)).
Proof. done. Qed.

Lemma BatchAddToTimeline_fold (r : Redis) (userIDs : list uuid) (postID : uuid)
    (score : R) (timestamp : Time) :
  BatchAddToTimeline r userIDs postID score timestamp
  = fold_left (fun r userID => AddToTimeline r userID postID score timestamp) userIDs r.
Proof. reflexivity. Qed.

Lemma BatchAddToTimeline_cons (r : Redis) (u : uuid) (userIDs : list uuid) (postID : uuid)
    (score : R) (timestamp : Time) :
  BatchAddToTimeline r (u :: userIDs) postID score timestamp
  = BatchAddToTimeline (AddToTimeline r u postID score timestamp) userIDs
      postID score timestamp.
Proof. reflexivity. Qed.

(** A batch leaves, for each user it names, what a single insertion
    leaves, and nothing else changes. *)
Lemma BatchAddToTimeline_view (r : Redis) (userIDs : list uuid) (userID postID : uuid)
    (score : R) (timestamp : Time) :
  wf (RedisClient.zget (getTimelineKey userID) r) ->
  view (getTimelineKey userID) (BatchAddToTimeline r userIDs postID score timestamp)
  = if decide (userID ∈ userIDs)
    then view (getTimelineKey userID) (AddToTimeline r userID postID score timestamp)
    else view (getTimelineKey userID) r.
Proof.
  revert r. induction userIDs as [| v us IH]; intros r Hwf.
  - destruct (decide (userID ∈ [])) as [H | H]; [by apply elem_of_nil in H | done].
  - rewrite BatchAddToTimeline_cons. destruct (decide (v = userID)) as [-> | Hne].
    + rewrite (decide_True (P := userID ∈ userID :: us)) by apply list_elem_of_here.
      rewrite IH by (rewrite AddToTimeline_zget; by apply added_wf).
      destruct (decide (userID ∈ us)); [| done].
      by rewrite AddToTimeline_idem.
    + assert (getTimelineKey userID <> getTimelineKey v) as Hk.
      { intros H. apply getTimelineKey_inj in H. congruence. }
      rewrite IH.
      2:{ rewrite zget_view, AddToTimeline_view_ne by done. by rewrite <- zget_view. }
      destruct (decide (userID ∈ us)) as [Hin | Hout].
      * rewrite (decide_True (P := userID ∈ v :: us)) by (by apply list_elem_of_further).
        rewrite !AddToTimeline_view_eq.
        by rewrite (zget_view _ (AddToTimeline r v _ _ _)), AddToTimeline_view_ne.
      * rewrite (decide_False (P := userID ∈ v :: us)).
        2:{ intros H. apply elem_of_cons in H as [H | H]; congruence. }
        by apply AddToTimeline_view_ne.
Qed.

Lemma BatchAddToTimeline_other (r : Redis) (userIDs : list uuid) (key : string)
    (postID : uuid) (score : R) (timestamp : Time) :
  (forall u, u ∈ userIDs -> key <> getTimelineKey u) ->
  view key (BatchAddToTimeline r userIDs postID score timestamp) = view key r.
Proof.
  revert r. induction userIDs as [| v us IH]; intros r H; [done |].
  rewrite BatchAddToTimeline_cons, IH.
  - apply AddToTimeline_view_ne, H, list_elem_of_here.
  - intros u Hu. by apply H, list_elem_of_further.
Qed.

End TimelineFacts.

(** * Properties of [GetTimeline] *)

Section GetTimelineFacts.
Import SortedSet TimelineCache Page.
Variable ParseFloat : string -> option Q.

Lemma round_half_even_exact (k d : Z) : 0 < d -> round_half_even (k * d) d = k.
Proof.
  intros Hd. unfold round_half_even.
  rewrite Z.div_mul, Z.mod_mul by lia. change (2 * 0) with 0.
  destruct (Z.ltb_spec 0 d); [done | lia].
Qed.

(** An integral bound is written exactly by [%f]. *)
Lemma Sprintf_f_integral (q : Q) (c s : Z) :
  q == inject_Z c -> Qltb (inject_Z s) (Sprintf_f q) = (s <? c).
Proof.
  intros Hq. unfold Qeq in Hq. simpl in Hq. rewrite Z.mul_1_r in Hq.
  unfold Sprintf_f, Qltb. rewrite Hq.
  replace (c * QDen q * 1000000) with ((c * 1000000) * QDen q) by lia.
  rewrite round_half_even_exact by done. simpl.
  destruct (Z.ltb_spec s c), (Z.ltb_spec (s * 1000000) (c * 1000000 * 1)); done || lia.
Qed.

Lemma wrap64_small (z : Z) : - 2 ^ 63 <= z < 2 ^ 63 -> wrap64 z = z.
Proof. intros H. unfold wrap64. rewrite Z.mod_small; lia. Qed.

Lemma wrap64_MaxInt64_succ : wrap64 (MaxInt64 + 1) = - 2 ^ 63.
Proof. reflexivity. Qed.

Lemma page_loop (results : list ZEntry) (items : list TimelineItem) (nextCursor : string) :
  fold_left
    (fun '(items, nextCursor) result =>
       (items ++ [mkItem (Member result) (Score result) (time_Unix (Score result))],
        Sprintf_0f (Score result)))
    results (items, nextCursor)
  = (items ++ (toItem <$> results),
     match last results with
     | Some e => Sprintf_0f (Score e)
     | None => nextCursor
     end).
Proof.
  revert items nextCursor. induction results as [| e l IH]; intros items nc; simpl.
  - by rewrite app_nil_r.
  - rewrite IH, <- app_assoc. simpl. f_equal.
    change (e :: l) with ([e] ++ l). rewrite last_app. by destruct (last l).
Qed.

Lemma cursor_after_fmap (results : list ZEntry) :
  cursor_after (toItem <$> results)
  = match last results with
    | Some e => Sprintf_0f (Score e)
    | None => ""
    end.
Proof. unfold cursor_after. rewrite fmap_last. by destruct (last results). Qed.

Lemma ZRevRangeByScore_integral (q : Q) (c count : Z) (l : zset) :
  q == inject_Z c ->
  SortedSet.ZRevRangeByScoreWithScores (Sprintf_f q) count l
  = if count <=? 0 then below c l else take (Z.to_nat count) (below c l).
Proof.
  intros Hq. unfold SortedSet.ZRevRangeByScoreWithScores, below.
  assert (List.filter (fun e => Qltb (inject_Z (Score e)) (Sprintf_f q)) l
          = List.filter (fun e => Score e <? c) l) as ->; [| done].
  apply filter_ext. intros e. by apply Sprintf_f_integral.
Qed.

(** The page that [GetTimeline] returns for a cursor that denotes [c]. *)
Lemma GetTimeline_page (r : Redis) (userID : uuid) (cursor : string) (limit : Z)
    (now : Time) (c : Z) :
  0 <= limit <= MaxInt64 ->
  cursor_epoch ParseFloat cursor now c ->
  let hits := below c (RedisClient.zget (getTimelineKey userID) r) in
  let items := toItem <$> take (Z.to_nat limit) hits in
  GetTimeline ParseFloat r userID cursor limit now
  = Some (items, cursor_after items, limit <? Z.of_nat (length hits)).
Proof.
  intros Hlimit Hc hits items. unfold GetTimeline.
  set (maxScore := if negb (cursor =? "")%string then _ else _).
  assert (maxScore == inject_Z c) as Hmax.
  { unfold maxScore, cursor_epoch in *. destruct (cursor =? "")%string; simpl.
    - by rewrite Hc.
    - destruct (ParseFloat cursor); [done | by rewrite Hc]. }
  unfold RedisClient.ZRevRangeByScoreWithScores.
  rewrite (ZRevRangeByScore_integral _ c) by done. fold hits.
  set (results := if wrap64 (limit + 1) <=? 0 then _ else _).
  assert (take (Z.to_nat limit) results = take (Z.to_nat limit) hits
          /\ (limit <? Z.of_nat (length results)) = (limit <? Z.of_nat (length hits)))
    as [Htake Hmore].
  { unfold results. destruct (decide (limit = MaxInt64)) as [-> | Hne].
    - by rewrite wrap64_MaxInt64_succ.
    - unfold MaxInt64 in *. rewrite wrap64_small by lia.
      destruct (Z.leb_spec (limit + 1) 0); [lia |]. split.
      + rewrite take_take. f_equal. lia.
      + rewrite length_take.
        destruct (Z.ltb_spec limit (Z.of_nat (Z.to_nat (limit + 1) `min` length hits))),
                 (Z.ltb_spec limit (Z.of_nat (length hits))); done || lia. }
  rewrite Hmore.
  destruct (Z.ltb_spec limit 0) as [Hneg | _]; [lia |]. rewrite andb_false_r.
  assert ((if limit <? Z.of_nat (length hits)
           then take (Z.to_nat limit) results else results)
          = take (Z.to_nat limit) hits) as ->.
  { destruct (Z.ltb_spec limit (Z.of_nat (length hits))) as [H | H]; [done |].
    rewrite <- Htake. symmetry. apply take_ge.
    apply Z.ltb_ge in Hmore. lia. }
  rewrite page_loop. simpl. fold items. f_equal. f_equal.
  unfold items. by rewrite cursor_after_fmap.
Qed.

Lemma StronglySorted_filter {A} (rel : relation A) (f : A -> bool) (l : list A) :
  StronglySorted rel l -> StronglySorted rel (List.filter f l).
Proof.
  induction 1 as [| y r Hr IH Hy]; simpl; [constructor |].
  destruct (f y); [| done]. constructor; [done |].
  apply Forall_forall. intros z Hz. apply list_elem_of_In, filter_In in Hz as [Hz _].
  rewrite Forall_forall in Hy. by apply Hy, list_elem_of_In.
Qed.

Lemma StronglySorted_rev {A} (rel : relation A) (l : list A) :
  StronglySorted rel l -> StronglySorted (flip rel) (rev l).
Proof.
  induction 1 as [| y r Hr IH Hy]; simpl; [constructor |].
  apply StronglySorted_app_2; [| done | repeat constructor].
  intros x1 x2 H1 H2. apply list_elem_of_singleton in H2 as ->.
  rewrite Forall_forall in Hy. apply Hy. by apply list_elem_of_In, in_rev, list_elem_of_In.
Qed.

Lemma StronglySorted_take {A} (rel : relation A) (n : nat) (l : list A) :
  StronglySorted rel l -> StronglySorted rel (take n l).
Proof.
  intros H. rewrite <- (take_drop n l) in H. by apply StronglySorted_app_1_l in H.
Qed.

Lemma StronglySorted_weaken {A} (rel1 rel2 : relation A) (l : list A) :
  (forall x y, rel1 x y -> rel2 x y) -> StronglySorted rel1 l -> StronglySorted rel2 l.
Proof.
  intros H. induction 1 as [| y r Hr IH Hy]; constructor; [done |].
  eapply Forall_impl; [exact Hy | auto].
Qed.

Lemma below_elem_of (c : Z) (l : zset) (e : ZEntry) :
  e ∈ below c l <-> e ∈ l /\ Score e < c.
Proof.
  unfold below. rewrite list_elem_of_In, <- in_rev, filter_In, Z.ltb_lt.
  by rewrite list_elem_of_In.
Qed.

Lemma below_length (c : Z) (l : zset) :
  length (below c l) = length (List.filter (fun e => Score e <? c) l).
Proof. unfold below. apply length_rev. Qed.

Lemma below_sorted (c : Z) (l : zset) :
  StronglySorted zle l -> StronglySorted (fun a b => Score b <= Score a) (below c l).
Proof.
  intros H. unfold below.
  apply (StronglySorted_weaken (flip zle)).
  - intros x y Hxy. unfold flip in Hxy. apply zle_iff in Hxy. lia.
  - by apply StronglySorted_rev, StronglySorted_filter.
Qed.

End GetTimelineFacts.

(** * Cursor pagination *)

Section Pagination.
Import SortedSet TimelineCache Page.

(** C5.  For a cursor that denotes the epoch [c] and a limit [0 <= n],
    [GetTimeline] returns the [n] highest-ranked entries whose score is
    strictly below [c]: every returned item has a score below [c] and is an
    entry of the timeline, the items come in descending score order, there are
    at most [n] of them, [has_more] holds exactly when at least [n + 1]
    entries lie below [c], and when none does [has_more] is false and the
    next cursor is empty.  The next cursor is empty whenever no item is
    returned, which also happens for [n = 0]; when an item is returned, as
    it is for [1 <= n] as soon as an entry lies below [c], the next cursor is
    the score of the last returned item. *)
Theorem GetTimeline_cursor_page (ParseFloat : string -> option Q) (r : Redis)
    (userID : uuid) (cursor : string) (limit : Z) (now : Time) (c : Z) :
  wf (RedisClient.zget (getTimelineKey userID) r) ->
  0 <= limit <= MaxInt64 ->
  cursor_epoch ParseFloat cursor now c ->
  let timeline := RedisClient.zget (getTimelineKey userID) r in
  exists items nextCursor hasMore,
    GetTimeline ParseFloat r userID cursor limit now = Some (items, nextCursor, hasMore)
    /\ items = toItem <$> take (Z.to_nat limit) (below c timeline)
    /\ (forall item, item ∈ items ->
          item_Score item < c
          /\ mkZ (item_Score item) (item_PostID item) ∈ timeline)
    /\ StronglySorted (fun a b => item_Score b <= item_Score a) items
    /\ Z.of_nat (length items) <= limit
    /\ (hasMore = true <->
        limit + 1 <= Z.of_nat (length (List.filter (fun e => Score e <? c) timeline)))
    /\ (List.filter (fun e => Score e <? c) timeline = [] ->
        hasMore = false /\ nextCursor = "")
    /\ nextCursor = cursor_after items
    /\ (items = [] -> nextCursor = "")
    /\ (0 < limit -> List.filter (fun e => Score e <? c) timeline <> [] ->
        exists item,
          last items = Some item /\ nextCursor = Sprintf_0f (item_Score item)).
Proof.
  intros Hwf Hlimit Hc timeline.
  pose proof (GetTimeline_page ParseFloat r userID cursor limit now c Hlimit Hc) as Hpage.
  simpl in Hpage. fold timeline in Hpage.
  eexists _, _, _. split; [exact Hpage |]. split; [done |].
  split; [| split; [| split; [| split; [| split; [| split; [| split]]]]]].
  - intros item Hitem. apply list_elem_of_fmap in Hitem as [e [-> He]].
    apply subseteq_take in He.
    apply below_elem_of in He as [He Hs]. simpl. split; [done |]. by destruct e.
  - apply (StronglySorted_fmap toItem (fun a b => Score b <= Score a)); [done |].
    by apply StronglySorted_take, below_sorted, Hwf.
  - rewrite length_fmap, length_take. lia.
  - rewrite Z.ltb_lt, below_length. lia.
  - intros Hnone. unfold below. rewrite Hnone. simpl. split.
    + apply Z.ltb_ge. lia.
    + by rewrite take_nil.
  - done.
  - intros Hnil. unfold cursor_after. by rewrite Hnil.
  - intros Hpos Hsome. unfold cursor_after.
    destruct (last (toItem <$> take (Z.to_nat limit) (below c timeline)))
      as [item |] eqn:Hlast; [by exists item |].
    exfalso. apply last_None, fmap_nil_inv in Hlast.
    apply (f_equal length) in Hlast. rewrite length_take, below_length in Hlast.
    simpl in Hlast.
    destruct (List.filter (fun e => Score e <? c) timeline); [done |].
    simpl in Hlast. lia.
Qed.

(** C5, as the claim states it, fails for the limit [0]: three entries of the
    timeline lie below the cursor [100], so [has_more] is true, but no item
    is returned and the next cursor is empty instead of the score of a last
    returned entry. *)
Lemma GetTimeline_limit_zero_counterexample :
  cursor_epoch Examples.parse_100 "100" 0 100
  /\ List.filter (fun e => Score e <? 100)
        (RedisClient.zget (getTimelineKey "u") Examples.small_timeline) <> []
  /\ GetTimeline Examples.parse_100 Examples.small_timeline "u" "100" 0 0
     = Some ([], "", true)
  /\ ~ (exists items nextCursor hasMore item,
          GetTimeline Examples.parse_100 Examples.small_timeline "u" "100" 0 0
          = Some (items, nextCursor, hasMore)
          /\ last items = Some item
          /\ nextCursor = Sprintf_0f (item_Score item)).
Proof.
  split; [reflexivity |]. split; [vm_compute; discriminate |].
  assert (GetTimeline Examples.parse_100 Examples.small_timeline "u" "100" 0 0
          = Some ([], "", true)) as Hget by (vm_compute; reflexivity).
  split; [exact Hget |].
  intros (items & nextCursor & hasMore & item & Hget' & Hlast & _).
  rewrite Hget in Hget'. by simplify_eq.
Qed.

Lemma GetTimeline_cursor_page_witness :
  wf (RedisClient.zget (getTimelineKey "u") Examples.small_timeline)
  /\ 0 <= 1 <= MaxInt64
  /\ cursor_epoch Examples.parse_100 "100" 0 100
  /\ GetTimeline Examples.parse_100 Examples.small_timeline "u" "100" 1 0
     = Some ([mkItem "c" 70 (time_Unix 70)], "70", true).
Proof.
  assert (wf (RedisClient.zget (getTimelineKey "u") Examples.small_timeline)) as Hwf.
  { split; by_evaluation. }
  assert (0 <= 1 <= MaxInt64) as Hlimit by (vm_compute; split; discriminate).
  assert (cursor_epoch Examples.parse_100 "100" 0 100) as Hc by reflexivity.
  split; [exact Hwf |]. split; [exact Hlimit |]. split; [exact Hc |].
  destruct (GetTimeline_cursor_page Examples.parse_100 Examples.small_timeline
              "u" "100" 1 0 100 Hwf Hlimit Hc)
    as (items & nextCursor & hasMore & Hget & _).
  rewrite Hget. vm_compute in Hget. symmetry. exact Hget.
Defined.

(** C10.  A cursor that does not parse as a float never makes [GetTimeline]
    fail: the call returns what the first-page request (empty cursor) returns,
    the page below the current Unix time. *)
Theorem GetTimeline_malformed_cursor (ParseFloat : string -> option Q) (r : Redis)
    (userID : uuid) (cursor : string) (limit : Z) (now : Time) :
  ParseFloat cursor = None ->
  GetTimeline ParseFloat r userID cursor limit now
  = GetTimeline ParseFloat r userID "" limit now
  /\ (0 <= limit <= MaxInt64 ->
      let hits := below (Unix now) (RedisClient.zget (getTimelineKey userID) r) in
      let items := toItem <$> take (Z.to_nat limit) hits in
      GetTimeline ParseFloat r userID cursor limit now
      = Some (items, cursor_after items, limit <? Z.of_nat (length hits))).
Proof.
  intros Hparse. split.
  - unfold GetTimeline. rewrite Hparse. simpl. by destruct (negb (cursor =? "")%string).
  - intros Hlimit. apply GetTimeline_page; [done |].
    unfold cursor_epoch. rewrite Hparse. by destruct (cursor =? "")%string.
Qed.

Lemma GetTimeline_malformed_cursor_witness :
  Examples.parse_100 "not-a-number" = None
  /\ GetTimeline Examples.parse_100 Examples.small_timeline "u" "not-a-number" 2
       (65 * Second)
     = GetTimeline Examples.parse_100 Examples.small_timeline "u" "" 2 (65 * Second).
Proof.
  split; [reflexivity |].
  exact (proj1 (GetTimeline_malformed_cursor Examples.parse_100 Examples.small_timeline
                  "u" "not-a-number" 2 (65 * Second) eq_refl)).
Defined.

End Pagination.

(** * Idempotence, cap and ordering key of the timeline writes *)

Section TimelineWrites.
Import SortedSet TimelineCache.

Lemma entries_of_absent (p : uuid) (l : zset) :
  uuid_String p ∉ Member <$> l -> entries_of p l = [].
Proof.
  induction l as [| y r IH]; simpl; [done |]. intros H.
  apply not_elem_of_cons in H as [H1 H2].
  destruct (String.eqb_spec (Member y) (uuid_String p)); [congruence | by apply IH].
Qed.

Lemma entries_of_present (p : uuid) (l : zset) (x : ZEntry) :
  NoDup (Member <$> l) -> x ∈ l -> Member x = uuid_String p -> entries_of p l = [x].
Proof.
  induction l as [| y r IH]; simpl; [by intros _ H; apply elem_of_nil in H |].
  rewrite NoDup_cons. intros [H1 H2] Hx Hm.
  apply elem_of_cons in Hx as [<- | Hx].
  - rewrite Hm, String.eqb_refl. f_equal. apply entries_of_absent. by rewrite <- Hm.
  - destruct (String.eqb_spec (Member y) (uuid_String p)) as [E | E]; [| by apply IH].
    exfalso. apply H1. rewrite E, <- Hm. by apply list_elem_of_fmap_2.
Qed.

Lemma entries_of_length (p : uuid) (l : zset) :
  NoDup (Member <$> l) -> (length (entries_of p l) <= 1)%nat.
Proof.
  intros Hn. destruct (decide (uuid_String p ∈ Member <$> l)) as [Hin | Hout].
  - apply list_elem_of_fmap in Hin as [x [Hm Hx]].
    rewrite (entries_of_present p l x) by done. simpl. lia.
  - rewrite entries_of_absent by done. simpl. lia.
Qed.

Lemma AddToTimeline_iter (r : Redis) (userID postID : uuid) (score : R)
    (timestamp : Time) (n : nat) :
  wf (RedisClient.zget (getTimelineKey userID) r) ->
  Nat.iter (S n) (fun r => AddToTimeline r userID postID score timestamp) r
  = AddToTimeline r userID postID score timestamp.
Proof.
  intros Hwf. induction n as [| n IH]; [done |].
  change (Nat.iter (S (S n)) ?f r) with (f (Nat.iter (S n) f r)).
  rewrite IH. cbv beta. by apply AddToTimeline_idem.
Qed.

Lemma BatchAddToTimeline_iter (r : Redis) (userIDs : list uuid) (userID postID : uuid)
    (score : R) (timestamp : Time) (n : nat) :
  wf (RedisClient.zget (getTimelineKey userID) r) ->
  userID ∈ userIDs ->
  view (getTimelineKey userID)
    (Nat.iter (S n) (fun r => BatchAddToTimeline r userIDs postID score timestamp) r)
  = view (getTimelineKey userID) (AddToTimeline r userID postID score timestamp).
Proof.
  intros Hwf Hin. induction n as [| n IH].
  - simpl. by rewrite BatchAddToTimeline_view, decide_True.
  - change (Nat.iter (S (S n)) ?f r) with (f (Nat.iter (S n) f r)).
    set (r' := Nat.iter (S n) _ r) in *. cbv beta.
    assert (RedisClient.zget (getTimelineKey userID) r'
            = added (mkZ (Unix timestamp) (uuid_String postID))
                    (RedisClient.zget (getTimelineKey userID) r)) as Hr'.
    { by rewrite zget_view, IH, <- zget_view, AddToTimeline_zget. }
    rewrite BatchAddToTimeline_view, decide_True by (done || rewrite Hr'; by apply added_wf).
    rewrite !AddToTimeline_view_eq, Hr'. by rewrite added_idem.
Qed.

(** Where [zinsert] puts an entry: after the entries that rank at or below
    it, before the ones that rank above. *)
Lemma zinsert_split (e : ZEntry) (l : zset) :
  StronglySorted zle l -> e ∉ l ->
  zinsert e l
  = List.filter (fun x => zleb x e) l ++ e :: List.filter (fun x => negb (zleb x e)) l.
Proof.
  induction l as [| x r IH]; intros Hs Hout; [done |].
  apply StronglySorted_inv in Hs as [Hr Hx].
  apply not_elem_of_cons in Hout as [Hne Hout].
  simpl. destruct (zleb e x) eqn:Eex.
  - assert (forall y, y ∈ x :: r -> zleb y e = false) as Hall.
    { intros y Hy. destruct (zleb y e) eqn:Eye; [exfalso | done].
      assert (zle e y) as Hey.
      { apply elem_of_cons in Hy as [-> | Hy]; [done |].
        rewrite Forall_forall in Hx. by trans x; [| apply Hx]. }
      assert (y = e) as -> by (by apply (anti_symm zle)).
      apply elem_of_cons in Hy as [? | ?]; congruence. }
    rewrite (Hall x) by apply list_elem_of_here. simpl.
    assert (List.filter (fun y => zleb y e) r = []) as ->.
    { clear -Hall. induction r as [| y r IH]; [done |]. simpl.
      rewrite (Hall y) by (apply list_elem_of_further, list_elem_of_here).
      apply IH. intros z Hz. apply Hall.
      apply elem_of_cons in Hz as [-> | Hz];
        [apply list_elem_of_here | by do 2 apply list_elem_of_further]. }
    assert (List.filter (fun y => negb (zleb y e)) r = r) as ->; [| done].
    { clear -Hall. induction r as [| y r IH]; [done |]. simpl.
      rewrite (Hall y) by (apply list_elem_of_further, list_elem_of_here). simpl.
      f_equal. apply IH. intros z Hz. apply Hall.
      apply elem_of_cons in Hz as [-> | Hz];
        [apply list_elem_of_here | by do 2 apply list_elem_of_further]. }
  - apply zleb_false in Eex. unfold zle in Eex. rewrite Eex. simpl.
    by rewrite IH.
Qed.

(** The entry that [AddToTimeline] inserts survives the trim exactly when
    fewer than [1000] entries of other posts rank above it. *)
Lemma added_keeps (e : ZEntry) (l : zset) :
  wf l ->
  (length (ranking_above e l) < 1000)%nat -> e ∈ added e l.
Proof.
  intros [Hs Hn] Hlen. rewrite added_eq. unfold SortedSet.ZAdd.
  rewrite zinsert_split.
  2:{ by apply ZRem_sorted. }
  2:{ intros He. apply (ZRem_member_gone (Member e) l). by apply list_elem_of_fmap_2. }
  fold (ranking_above e l).
  set (lo := List.filter _ _). rewrite length_app. simpl.
  rewrite drop_app_le by lia. apply elem_of_app. right. apply list_elem_of_here.
Qed.

Lemma added_evicts (e : ZEntry) (l : zset) :
  wf l ->
  (1000 <= length (ranking_above e l))%nat -> Member e ∉ Member <$> added e l.
Proof.
  intros [Hs Hn] Hlen. rewrite added_eq. unfold SortedSet.ZAdd.
  rewrite zinsert_split.
  2:{ by apply ZRem_sorted. }
  2:{ intros He. apply (ZRem_member_gone (Member e) l). by apply list_elem_of_fmap_2. }
  fold (ranking_above e l).
  set (lo := List.filter _ _). rewrite length_app. simpl.
  rewrite drop_app_ge by lia.
  assert (length lo + S (length (ranking_above e l)) - 1000 - length lo
          = S (length (ranking_above e l) - 1000))%nat as -> by (clearbody lo; lia).
  simpl. intros Hin. apply list_elem_of_fmap in Hin as (x & Hm & Hx).
  apply subseteq_drop in Hx. unfold ranking_above in Hx.
  apply list_elem_of_In, filter_In in Hx as [Hx _]. apply list_elem_of_In in Hx.
  apply (ZRem_member_gone (Member e) l). apply list_elem_of_fmap. by exists x.
Qed.

(** C6.  Timeline insertion is idempotent: repeating [AddToTimeline] leaves
    Redis in the state that one call leaves, and repeating a
    [BatchAddToTimeline] that names the user leaves the user's timeline (its
    sorted set and its time to live) as one [AddToTimeline] leaves it.  The
    timeline stays well formed, so it holds at most one entry for the post.
    It holds exactly one, with the post's creation second as score, when
    fewer than [1000] entries of other posts rank above that entry in the
    timeline as it was, and none when [1000] or more do: only then does the
    size cap evict the entry.  In particular the cap cannot evict it when the
    insertion leaves at most [1000] entries. *)
Theorem timeline_insert_idempotent (r : Redis) (userIDs : list uuid)
    (userID postID : uuid) (score : R) (timestamp : Time) (n : nat) :
  wf (RedisClient.zget (getTimelineKey userID) r) ->
  userID ∈ userIDs ->
  let key := getTimelineKey userID in
  let e := mkZ (Unix timestamp) (uuid_String postID) in
  let add := fun r => AddToTimeline r userID postID score timestamp in
  let batch := fun r => BatchAddToTimeline r userIDs postID score timestamp in
  let after := RedisClient.zget key (Nat.iter (S n) batch r) in
  Nat.iter (S n) add r = add r
  /\ view key (Nat.iter (S n) batch r) = view key (batch r)
  /\ view key (batch r) = view key (add r)
  /\ wf after
  /\ (length (entries_of postID after) <= 1)%nat
  /\ (e ∈ after -> entries_of postID after = [e])
  /\ ((length (SortedSet.ZAdd e (RedisClient.zget key r)) <= 1000)%nat ->
      entries_of postID after = [e])
  /\ ((length (ranking_above e (RedisClient.zget key r)) < 1000)%nat ->
      entries_of postID after = [e])
  /\ ((1000 <= length (ranking_above e (RedisClient.zget key r)))%nat ->
      entries_of postID after = []).
Proof.
  intros Hwf Hin key e add batch after.
  assert (after = added e (RedisClient.zget key r)) as Hafter.
  { unfold after, batch, key.
    by rewrite zget_view, BatchAddToTimeline_iter, <- zget_view, AddToTimeline_zget. }
  assert (wf after) as Hwf' by (rewrite Hafter; by apply added_wf).
  split; [by apply AddToTimeline_iter |].
  split; [unfold batch, key; rewrite BatchAddToTimeline_iter by done;
          by rewrite BatchAddToTimeline_view, decide_True |].
  split; [unfold batch, key; by rewrite BatchAddToTimeline_view, decide_True |].
  split; [done |].
  split; [apply entries_of_length, Hwf' |].
  split; [| split; [| split]].
  - intros He. by apply entries_of_present; [apply Hwf' | |].
  - intros Hlen. apply entries_of_present; [apply Hwf' | | done].
    rewrite Hafter, added_eq.
    replace (length (SortedSet.ZAdd e (RedisClient.zget key r)) - 1000)%nat
      with 0%nat by lia.
    simpl. apply ZAdd_elem_of. by left.
  - intros Hlen. apply entries_of_present; [apply Hwf' | | done].
    rewrite Hafter. by apply added_keeps.
  - intros Hlen. apply entries_of_absent. rewrite Hafter.
    by apply (added_evicts e).
Qed.

Lemma timeline_insert_idempotent_witness :
  wf (RedisClient.zget (getTimelineKey "u") Examples.small_timeline)
  /\ "u" ∈ ["v"; "u"]
  /\ Nat.iter 3 (fun r => AddToTimeline r "u" "p" 0%R (65 * Second)) Examples.small_timeline
     = AddToTimeline Examples.small_timeline "u" "p" 0%R (65 * Second)
  /\ entries_of "p"
       (RedisClient.zget (getTimelineKey "u")
          (Nat.iter 3 (fun r => BatchAddToTimeline r ["v"; "u"] "p" 0%R (65 * Second))
             Examples.small_timeline))
     = [mkZ 65 "p"]
  /\ wf (RedisClient.zget (getTimelineKey "u") Examples.full_timeline)
  /\ entries_of "p"
       (RedisClient.zget (getTimelineKey "u")
          (Nat.iter 2 (fun r => BatchAddToTimeline r ["v"; "u"] "p" 0%R (3000 * Second))
             Examples.full_timeline))
     = [mkZ 3000 "p"].
Proof.
  assert (wf (RedisClient.zget (getTimelineKey "u") Examples.small_timeline)) as Hwf.
  { split; by_evaluation. }
  assert (wf (RedisClient.zget (getTimelineKey "u") Examples.full_timeline)) as Hfull.
  { split; by_evaluation. }
  assert ("u" ∈ ["v"; "u"]) as Hin by by_evaluation.
  destruct (timeline_insert_idempotent Examples.small_timeline ["v"; "u"] "u" "p"
              0%R (65 * Second) 2 Hwf Hin) as (Hadd & _ & _ & _ & _ & _ & _ & Hone & _).
  destruct (timeline_insert_idempotent Examples.full_timeline ["v"; "u"] "u" "p"
              0%R (3000 * Second) 1 Hfull Hin) as (_ & _ & _ & _ & _ & _ & _ & Hnew & _).
  split; [exact Hwf |]. split; [exact Hin |]. split; [exact Hadd |].
  split; [apply Hone; vm_compute; lia |].
  split; [exact Hfull |].
  apply Hnew. vm_compute. lia.
Defined.

(** C6, as the claim states it, fails at a full timeline: the user holds a
    thousand posts, all created after post [p]; the fan-out of [p], run twice,
    leaves no entry for [p], because the trim that follows the insertion
    evicts the entry of lowest score, which is the one just inserted. *)
Lemma fanout_rerun_exactly_one_counterexample :
  wf (RedisClient.zget (getTimelineKey "u") Examples.full_timeline)
  /\ entries_of "p"
       (RedisClient.zget (getTimelineKey "u")
          (BatchAddToTimeline
             (BatchAddToTimeline Examples.full_timeline ["u"] "p" 0%R (1000 * Second))
             ["u"] "p" 0%R (1000 * Second)))
     = []
  /\ length (entries_of "p"
       (RedisClient.zget (getTimelineKey "u")
          (BatchAddToTimeline
             (BatchAddToTimeline Examples.full_timeline ["u"] "p" 0%R (1000 * Second))
             ["u"] "p" 0%R (1000 * Second))))
     <> 1%nat.
Proof.
  split; [split; by_evaluation |].
  split; [vm_compute; reflexivity | vm_compute; discriminate].
Qed.

(** C7.  After [AddToTimeline], and after a [BatchAddToTimeline] that names
    the user, the user's timeline holds at most [MaxTimelineSize = 1000]
    entries.  The entries that the write evicts are the ones of lowest rank
    of the set as it is after the insertion: there are as many as exceed the
    cap, and none has a score above the score of an entry that is kept. *)
Theorem timeline_cap_respected (r : Redis) (userIDs : list uuid)
    (userID postID : uuid) (score : R) (timestamp : Time) :
  wf (RedisClient.zget (getTimelineKey userID) r) ->
  userID ∈ userIDs ->
  let key := getTimelineKey userID in
  let e := mkZ (Unix timestamp) (uuid_String postID) in
  let inserted := SortedSet.ZAdd e (RedisClient.zget key r) in
  let after_add := RedisClient.zget key (AddToTimeline r userID postID score timestamp) in
  let after_batch :=
    RedisClient.zget key (BatchAddToTimeline r userIDs postID score timestamp) in
  after_batch = after_add
  /\ Z.of_nat (length after_add) <= MaxTimelineSize
  /\ exists evicted,
       inserted = evicted ++ after_add
       /\ length evicted = (length inserted - 1000)%nat
       /\ (forall x y, x ∈ evicted -> y ∈ after_add -> Score x <= Score y).
Proof.
  intros Hwf Hin key e inserted after_add after_batch.
  assert (after_add = added e (RedisClient.zget key r)) as Hadd
    by apply AddToTimeline_zget.
  split; [| split].
  - unfold after_batch, after_add, key.
    by rewrite !zget_view, BatchAddToTimeline_view, decide_True.
  - rewrite Hadd. pose proof (added_length e (RedisClient.zget key r)).
    unfold MaxTimelineSize. lia.
  - exists (take (length inserted - 1000) inserted). split; [| split].
    + rewrite Hadd. apply added_split.
    + rewrite length_take. lia.
    + intros x y Hx Hy. rewrite Hadd in Hy.
      pose proof (ZAdd_wf e _ Hwf) as [Hs _].
      rewrite (added_split e (RedisClient.zget (getTimelineKey userID) r)) in Hs.
      pose proof (StronglySorted_app_1_elem_of zle _ _ x y Hs Hx Hy) as Hxy.
      apply zle_iff in Hxy. lia.
Qed.

Lemma timeline_cap_respected_witness :
  wf (RedisClient.zget (getTimelineKey "u") Examples.full_timeline)
  /\ "u" ∈ ["u"]
  /\ Z.of_nat (length (RedisClient.zget (getTimelineKey "u")
                         (AddToTimeline Examples.full_timeline "u" "p" 0%R (3000 * Second))))
     <= MaxTimelineSize.
Proof.
  assert (wf (RedisClient.zget (getTimelineKey "u") Examples.full_timeline)) as Hwf.
  { split; by_evaluation. }
  assert ("u" ∈ ["u"]) as Hin by apply list_elem_of_here.
  split; [exact Hwf |]. split; [exact Hin |].
  exact (proj1 (proj2 (timeline_cap_respected Examples.full_timeline ["u"] "u" "p"
                         0%R (3000 * Second) Hwf Hin))).
Defined.

End TimelineWrites.

(** * The ordering key of the timeline *)

Section OrderingKey.
Import SortedSet TimelineCache Page.

Lemma zget_ZAdd (key : string) (e : ZEntry) (r : Redis) :
  RedisClient.zget key (RedisClient.ZAdd key e r)
  = SortedSet.ZAdd e (RedisClient.zget key r).
Proof.
  unfold RedisClient.ZAdd, RedisClient.zput.
  destruct (SortedSet.ZAdd e (RedisClient.zget key r)) as [| x l].
  - unfold RedisClient.zget. simpl. by rewrite lookup_delete_eq.
  - apply zget_insert.
Qed.

Lemma zget_Expire (key key' : string) (ttl : Duration) (r : Redis) :
  RedisClient.zget key (RedisClient.Expire key' ttl r) = RedisClient.zget key r.
Proof. unfold RedisClient.Expire. by destruct (RedisClient.Exists key' r =? 1). Qed.

Lemma zget_Delete (key : string) (r : Redis) :
  RedisClient.zget key (RedisClient.Delete key r) = [].
Proof. unfold RedisClient.zget. simpl. by rewrite lookup_delete_eq. Qed.

Lemma added_score (e x : ZEntry) (l : zset) :
  x ∈ added e l -> Member x = Member e -> x = e.
Proof.
  rewrite added_eq. intros Hx Hm. apply subseteq_drop in Hx.
  apply ZAdd_elem_of in Hx as [-> | [_ Hne]]; done.
Qed.

Lemma BatchAddToTimeline_score (r : Redis) (userIDs : list uuid) (userID postID : uuid)
    (score : R) (timestamp : Time) (x : ZEntry) :
  userID ∈ userIDs
  \/ (forall y, y ∈ RedisClient.zget (getTimelineKey userID) r ->
        Member y = uuid_String postID -> Score y = Unix timestamp) ->
  x ∈ RedisClient.zget (getTimelineKey userID)
        (BatchAddToTimeline r userIDs postID score timestamp) ->
  Member x = uuid_String postID -> Score x = Unix timestamp.
Proof.
  revert r. induction userIDs as [| v us IH]; intros r H.
  - destruct H as [H | H]; [by apply elem_of_nil in H | apply H].
  - rewrite BatchAddToTimeline_cons. apply IH.
    destruct (decide (v = userID)) as [-> | Hne].
    + right. intros y Hy Hm. rewrite AddToTimeline_zget in Hy.
      by rewrite (added_score _ y _ Hy Hm).
    + destruct H as [H | H].
      * left. apply elem_of_cons in H as [H | H]; [congruence | done].
      * right. intros y Hy. apply H.
        rewrite zget_view, AddToTimeline_view_ne in Hy; [done |].
        intros E. apply getTimelineKey_inj in E. congruence.
Qed.

Lemma rebuild_loop (key : string) (rows : list Timeline) (r : Redis) (x : ZEntry) :
  x ∈ RedisClient.zget key
        (fold_left
           (fun pipe timeline =>
              RedisClient.ZAdd key
                (mkZ (Unix (tl_CreatedAt timeline)) (uuid_String (tl_PostID timeline)))
                pipe)
           rows r) ->
  x ∈ RedisClient.zget key r
  \/ exists row, row ∈ rows
       /\ Member x = uuid_String (tl_PostID row)
       /\ Score x = Unix (tl_CreatedAt row).
Proof.
  revert r. induction rows as [| row rows IH]; intros r; simpl; [by left |].
  intros Hx. apply IH in Hx as [Hx | (row' & Hin & Hm & Hs)].
  - rewrite zget_ZAdd in Hx. apply ZAdd_elem_of in Hx as [-> | [Hx _]]; [| by left].
    right. exists row. split; [apply list_elem_of_here | done].
  - right. exists row'. split; [by apply list_elem_of_further | done].
Qed.

Lemma RebuildTimelineFromDB_entries (r : Redis) (userID : uuid) (rows : list Timeline)
    (x : ZEntry) :
  x ∈ RedisClient.zget (getTimelineKey userID) (RebuildTimelineFromDB r userID rows) ->
  exists row, row ∈ rows
    /\ Member x = uuid_String (tl_PostID row)
    /\ Score x = Unix (tl_CreatedAt row).
Proof.
  unfold RebuildTimelineFromDB. destruct rows as [| row rows].
  - rewrite zget_Delete. intros H. by apply elem_of_nil in H.
  - rewrite zget_Expire. intros Hx. apply rebuild_loop in Hx as [Hx | Hx]; [| done].
    rewrite zget_Delete in Hx. by apply elem_of_nil in Hx.
Qed.

Lemma zget_SetStatus (key key' : string) (d : DistributionStatus) (ttl : Duration)
    (r : Redis) :
  key <> key' ->
  RedisClient.zget key (RedisClient.SetStatus key' d ttl r) = RedisClient.zget key r.
Proof.
  intros H. unfold RedisClient.zget, RedisClient.SetStatus. simpl.
  by rewrite lookup_delete_ne.
Qed.

(** The fan-out keeps, for every user, the invariant that an entry for the
    post is filed under the creation second of the post. *)
Lemma distribute_score_invariant (uuid_Parse : string -> option uuid)
    (config : FeedConfig) (w : World) (post : Post) (author : User) (now : Time)
    (userID : uuid) :
  (forall x, x ∈ RedisClient.zget (getTimelineKey userID) (redis w) ->
             Member x = uuid_String (post_ID post) ->
             Score x = Unix (CreatedAt post)) ->
  forall x,
    x ∈ RedisClient.zget (getTimelineKey userID)
          (redis (fst (Distributor.distributePostOptimized uuid_Parse config w post
                         author now))) ->
    Member x = uuid_String (post_ID post) ->
    Score x = Unix (CreatedAt post).
Proof.
  intros Hinv x. unfold Distributor.distributePostOptimized.
  destruct (PushThreshold config <? Followers author).
  - unfold Distributor.distributeForInfluencer.
    destruct (Activity.GetActiveFollowers _ _ _ _ _) as [r followers] eqn:E.
    assert (r = redis w) as ->.
    { apply (f_equal fst) in E. simpl in E. rewrite <- E.
      unfold Activity.GetActiveFollowers.
      destruct (0 <? _); [by destruct (1000 <? _) | done]. }
    simpl. rewrite zget_SetStatus by discriminate.
    destruct (0 <? _); simpl; [| apply Hinv].
    intros Hx Hm.
    by apply (BatchAddToTimeline_score (redis w) followers userID (post_ID post)
                (post_Score post) (CreatedAt post) x (or_intror Hinv)).
  - unfold Distributor.distributeForRegularUser. simpl.
    set (followerIDs := ID <$> FollowRepository.GetFollowers _ _ _ _).
    intros Hx Hm.
    assert (forall r,
              (forall y, y ∈ RedisClient.zget (getTimelineKey userID) r ->
                         Member y = uuid_String (post_ID post) ->
                         Score y = Unix (CreatedAt post)) ->
              x ∈ RedisClient.zget (getTimelineKey userID)
                    (AddToTimeline r (ID author) (post_ID post) (post_Score post)
                       (CreatedAt post)) ->
              Score x = Unix (CreatedAt post)) as Hadd.
    { intros r Hr Hx'.
      by apply (BatchAddToTimeline_score r [ID author] userID (post_ID post)
                  (post_Score post) (CreatedAt post) x (or_intror Hr)). }
    destruct (0 <? _); simpl in Hx; [| by apply (Hadd (redis w))].
    apply (Hadd _ (fun y => BatchAddToTimeline_score (redis w) followerIDs userID
                              (post_ID post) (post_Score post) (CreatedAt post) y
                              (or_intror Hinv)) Hx).
Qed.

Lemma GetTimeline_sorted (ParseFloat : string -> option Q) (r : Redis) (userID : uuid)
    (cursor : string) (limit : Z) (now : Time) items nextCursor hasMore :
  wf (RedisClient.zget (getTimelineKey userID) r) ->
  GetTimeline ParseFloat r userID cursor limit now = Some (items, nextCursor, hasMore) ->
  exists results, items = toItem <$> results /\ StronglySorted (flip zle) results.
Proof.
  intros [Hwf _]. unfold GetTimeline.
  unfold RedisClient.ZRevRangeByScoreWithScores, SortedSet.ZRevRangeByScoreWithScores.
  set (hits := rev (List.filter _ _)).
  assert (StronglySorted (flip zle) hits) as Hhits
    by (by apply StronglySorted_rev, StronglySorted_filter).
  set (results0 := if wrap64 (limit + 1) <=? 0 then _ else _).
  assert (StronglySorted (flip zle) results0) as Hres0.
  { unfold results0. destruct (wrap64 (limit + 1) <=? 0); [done |].
    by apply StronglySorted_take. }
  destruct (_ && _); [done |]. rewrite page_loop. intros [= <- _ _].
  eexists. split; [reflexivity |].
  destruct (limit <? _); [by apply StronglySorted_take | done].
Qed.

(** C8.  The score under which a timeline write files a post is the Unix
    second of the time stamp it is given, and the callers give the creation
    time of the post.  The ranking score that [AddToTimeline] and
    [BatchAddToTimeline] receive does not influence the state they leave; the
    entry they leave for the post has the score [timestamp.Unix()]; every
    entry that [RebuildTimelineFromDB] leaves carries [CreatedAt.Unix()] of
    the row it comes from, and for the rows built from a page of posts that
    is the creation second of the post.  The fan-out passes the creation time
    of the post, so it keeps every entry for the post filed under the
    creation second.  A page read by score therefore lists
    the items from the latest creation second to the earliest, each with the
    second as its time stamp. *)
Theorem timeline_score_is_created_at (ParseFloat : string -> option Q)
    (uuid_Parse : string -> option uuid) (config : FeedConfig) (r : Redis)
    (userIDs : list uuid) (userID postID : uuid) (score score' : R)
    (timestamp : Time) (rows : list Timeline) (posts : list Post)
    (cursor : string) (limit : Z) (now : Time)
    (w : World) (post : Post) (author : User) :
  AddToTimeline r userID postID score timestamp
  = AddToTimeline r userID postID score' timestamp
  /\ BatchAddToTimeline r userIDs postID score timestamp
     = BatchAddToTimeline r userIDs postID score' timestamp
  /\ (forall x,
        x ∈ RedisClient.zget (getTimelineKey userID)
              (AddToTimeline r userID postID score timestamp) ->
        Member x = uuid_String postID -> Score x = Unix timestamp)
  /\ (userID ∈ userIDs ->
      forall x,
        x ∈ RedisClient.zget (getTimelineKey userID)
              (BatchAddToTimeline r userIDs postID score timestamp) ->
        Member x = uuid_String postID -> Score x = Unix timestamp)
  /\ (forall x,
        x ∈ RedisClient.zget (getTimelineKey userID)
              (RebuildTimelineFromDB r userID rows) ->
        exists row, row ∈ rows
          /\ Member x = uuid_String (tl_PostID row)
          /\ Score x = Unix (tl_CreatedAt row))
  /\ (forall x,
        x ∈ RedisClient.zget (getTimelineKey userID)
              (RebuildTimelineFromDB r userID (Distributor.rebuildRows userID posts)) ->
        exists post, post ∈ posts
          /\ Member x = uuid_String (post_ID post)
          /\ Score x = Unix (CreatedAt post))
  /\ ((forall x, x ∈ RedisClient.zget (getTimelineKey userID) (redis w) ->
                 Member x = uuid_String (post_ID post) ->
                 Score x = Unix (CreatedAt post)) ->
      forall x,
        x ∈ RedisClient.zget (getTimelineKey userID)
              (redis (fst (Distributor.distributePostOptimized uuid_Parse config w
                             post author now))) ->
        Member x = uuid_String (post_ID post) ->
        Score x = Unix (CreatedAt post))
  /\ (wf (RedisClient.zget (getTimelineKey userID) r) ->
      forall items nextCursor hasMore,
        GetTimeline ParseFloat r userID cursor limit now
        = Some (items, nextCursor, hasMore) ->
        StronglySorted (fun a b => Unix (item_Timestamp b) <= Unix (item_Timestamp a)) items
        /\ Forall (fun item => item_Timestamp item = time_Unix (item_Score item)) items).
Proof.
  split; [reflexivity |]. split; [reflexivity |].
  split; [| split; [| split; [| split; [| split]]]].
  - intros x Hx Hm. rewrite AddToTimeline_zget in Hx. by rewrite (added_score _ x _ Hx Hm).
  - intros Hin x. apply BatchAddToTimeline_score. by left.
  - intros x. apply RebuildTimelineFromDB_entries.
  - intros x Hx. apply RebuildTimelineFromDB_entries in Hx as (row & Hin & Hm & Hs).
    apply list_elem_of_fmap in Hin as (post' & -> & Hin). by exists post'.
  - apply distribute_score_invariant.
  - intros Hwf items nextCursor hasMore Hget.
    apply GetTimeline_sorted in Hget as (results & -> & Hs); [| done]. split.
    + apply (StronglySorted_fmap toItem (flip zle)); [| done].
      intros x y Hxy. unfold flip in Hxy. apply zle_iff in Hxy. simpl.
      unfold Unix, time_Unix. rewrite !Z.div_mul by done. lia.
    + apply Forall_fmap, Forall_forall. by intros x _.
Qed.

Lemma timeline_score_is_created_at_witness :
  "u" ∈ ["u"]
  /\ wf (RedisClient.zget (getTimelineKey "u") Examples.small_timeline)
  /\ (forall x,
        x ∈ RedisClient.zget (getTimelineKey "u")
              (BatchAddToTimeline Examples.small_timeline ["u"] "p" 7%R (65 * Second + 5)) ->
        Member x = "p" -> Score x = 65)
  /\ (forall items nextCursor hasMore,
        GetTimeline Examples.parse_100 Examples.small_timeline "u" "100" 2 0
        = Some (items, nextCursor, hasMore) ->
        StronglySorted (fun a b => Unix (item_Timestamp b) <= Unix (item_Timestamp a)) items
        /\ Forall (fun item => item_Timestamp item = time_Unix (item_Score item)) items).
Proof.
  assert ("u" ∈ ["u"]) as Hin by apply list_elem_of_here.
  assert (wf (RedisClient.zget (getTimelineKey "u") Examples.small_timeline)) as Hwf.
  { split; by_evaluation. }
  destruct (timeline_score_is_created_at Examples.parse_100 Examples.parse_any
              Examples.config Examples.small_timeline
              ["u"] "u" "p" 7%R 0%R (65 * Second + 5) [] [] "100" 2 0
              Examples.fresh_world Examples.post_p1 Examples.author_a)
    as (_ & _ & _ & Hbatch & _ & _ & _ & Hscan).
  split; [exact Hin |]. split; [exact Hwf |]. split; [exact (Hbatch Hin) | exact (Hscan Hwf)].
Defined.

End OrderingKey.

(** * The activity score *)

Section ActivityFacts.
Import Activity.

Lemma Hours_same_instant (now : Time) : (Hours (Sub now now) / 24 = 0)%R.
Proof. unfold Hours, Sub. rewrite Z.sub_diag. unfold Rdiv. by rewrite !Rmult_0_l. Qed.

Lemma Hours_one_day : (Hours (Sub (24 * Hour)%Z 0%Z) / 24 = 1)%R.
Proof.
  unfold Hours, Sub. rewrite Z.sub_0_r, mult_IZR.
  assert (IZR Hour <> 0%R) by (apply not_0_IZR; discriminate). by field.
Qed.

(** The score that [UpdateUserActivity] computes does not depend on the time
    of the previous activity: the decay is taken over the interval from
    [now] to [now]. *)
Lemma updatedUser_score (user : User) (activityType : string) (now : Time) :
  ActivityScore (updatedUser user activityType now)
  = Rmin MaxActivityScore (ActivityScore user + getActivityIncrement activityType).
Proof.
  unfold updatedUser. simpl. rewrite Hours_same_instant.
  rewrite Rpower_O by (unfold ActivityDecayFactor; lra). rewrite Rmult_1_r.
  unfold Rmin.
  destruct (Rlt_dec _ _) as [H | H], (Rle_dec _ _) as [H' | H']; simpl; lra.
Qed.

Lemma UpdateUserActivity_stored (w : World) (userID : uuid) (activityType : string)
    (now : Time) (user : User) :
  UserRepository.GetByID (db w) userID = Some user ->
  UserRepository.GetByID (db (fst (UpdateUserActivity w userID activityType now))) (ID user)
  = Some (updatedUser user activityType now)
  /\ snd (UpdateUserActivity w userID activityType now) = None.
Proof.
  intros Hget. unfold UpdateUserActivity. rewrite Hget. simpl. split; [| done].
  unfold UserRepository.GetByID. simpl.
  replace (ID (updatedUser user activityType now)) with (ID user).
  - by rewrite lookup_insert_eq.
  - unfold updatedUser. simpl. by destruct (Rlt_dec _ _).
Qed.

(** C1.  The code does not apply the decay of the claim.  For the user with
    score [100] who was last active a day before the call, a login stores
    [100 + 5 = 105], whereas the score of the claim,
    [min (1000, 100 * 0.9 ^ (24 / 24) + 5)], is [95]. *)
Theorem UpdateUserActivity_applies_no_decay :
  ActivityScore
    <$> UserRepository.GetByID
          (db (fst (UpdateUserActivity Examples.activity_world "u" "login" (24 * Hour))))
          "u"
  = Some 105%R
  /\ Rmin MaxActivityScore
       (ActivityScore Examples.alice
        * Rpower ActivityDecayFactor (Hours (Sub (24 * Hour)%Z 0%Z) / 24)
        + getActivityIncrement "login")
     = 95%R
  /\ 105%R <> 95%R.
Proof.
  split; [| split].
  - assert (UserRepository.GetByID (db Examples.activity_world) "u" = Some Examples.alice)
      as Hget by reflexivity.
    destruct (UpdateUserActivity_stored _ _ "login" (24 * Hour) _ Hget) as [Hstored _].
    change (ID Examples.alice) with "u" in Hstored. rewrite Hstored. simpl.
    rewrite updatedUser_score. f_equal.
    change (ActivityScore Examples.alice) with 100%R.
    change (getActivityIncrement "login") with 5%R.
    unfold Rmin, MaxActivityScore. destruct (Rle_dec _ _); lra.
  - rewrite Hours_one_day, Rpower_1 by (unfold ActivityDecayFactor; lra).
    change (ActivityScore Examples.alice) with 100%R.
    change (getActivityIncrement "login") with 5%R.
    unfold Rmin, MaxActivityScore, ActivityDecayFactor. destruct (Rle_dec _ _); lra.
  - lra.
Qed.

End ActivityFacts.

(** * The fan-out and its status records *)

Section DistributorFacts.
Import SortedSet TimelineCache Distributor.
Variable uuid_Parse : string -> option uuid.
Variable config : FeedConfig.

Lemma GetActiveFollowers_redis (r : Redis) (userID : uuid) (limit : Z) (now : Time) :
  fst (Activity.GetActiveFollowers uuid_Parse r userID limit now) = r.
Proof.
  unfold Activity.GetActiveFollowers.
  destruct (0 <? _); [by destruct (limit <? _) | done].
Qed.

(** The only status that the fan-out ever records is
    [influencer_push_completed]: no record of a started fan-out is written,
    in either mode. *)
Lemma distribute_status_writes (w : World) (post : Post) (author : User) (now : Time)
    (key status : string) :
  WStatus key status
    ∈ writes (fst (distributePostOptimized uuid_Parse config w post author now)) ->
  WStatus key status ∈ writes w \/ status = "influencer_push_completed".
Proof.
  unfold distributePostOptimized. destruct (PushThreshold config <? Followers author).
  - unfold distributeForInfluencer.
    destruct (Activity.GetActiveFollowers _ _ _ _ _) as [r followers]. simpl.
    destruct (0 <? _); simpl; rewrite ?elem_of_app, ?list_elem_of_singleton;
      intros H; destruct_or?; simplify_eq; auto.
  - unfold distributeForRegularUser. simpl.
    destruct (0 <? _); simpl; rewrite ?elem_of_app, ?list_elem_of_singleton;
      intros H; destruct_or?; simplify_eq; auto.
Qed.

Lemma status_key_not_timeline (p u : uuid) :
  "distribution_status:" +:+ uuid_String p <> getTimelineKey u.
Proof. discriminate. Qed.

Lemma view_SetStatus (key key' : string) (d : DistributionStatus) (ttl : Duration)
    (r : Redis) :
  key <> key' -> view key (RedisClient.SetStatus key' d ttl r) = view key r.
Proof.
  intros H. unfold view, RedisClient.SetStatus. simpl.
  by rewrite lookup_delete_ne, lookup_insert_ne.
Qed.

(** The influencer mode leaves the author's own timeline as it finds it,
    unless the author is cached as an active follower of themselves. *)
Lemma distributeForInfluencer_own_timeline (w : World) (post : Post) (author : User)
    (now : Time) :
  ID author ∉ snd (Activity.GetActiveFollowers uuid_Parse (redis w) (ID author) 1000 now) ->
  view (getTimelineKey (ID author))
       (redis (fst (distributeForInfluencer uuid_Parse w post author now)))
  = view (getTimelineKey (ID author)) (redis w).
Proof.
  unfold distributeForInfluencer.
  pose proof (GetActiveFollowers_redis (redis w) (ID author) 1000 now) as Hr.
  destruct (Activity.GetActiveFollowers _ _ _ _ _) as [r followers].
  simpl in *. subst r. intros Hout.
  destruct (0 <? _); simpl.
  - rewrite view_SetStatus by (symmetry; apply status_key_not_timeline).
    apply BatchAddToTimeline_other. intros u Hu E.
    apply getTimelineKey_inj in E. congruence.
  - by rewrite view_SetStatus by (symmetry; apply status_key_not_timeline).
Qed.

End DistributorFacts.

Section DistributorRuns.
Import SortedSet TimelineCache Distributor Examples.

(** C2.  The fan-out writes timelines without the status record that the
    claim requires.  For the author [a] with the follower [f] (push to all)
    the writes are the two timeline writes and the ledger stays empty; for the
    author [star] (push to active) the timeline of [f] is written first, and
    the only record written, after it, already says
    [influencer_push_completed]. *)
Theorem distribute_records_no_start :
  let regular :=
    fst (distributePostOptimized parse_any config fresh_world post_p1 author_a
           (100 * Second)) in
  let influencer :=
    fst (distributePostOptimized parse_any config active_world post_p2 author_star
           (200 * Second)) in
  writes regular = [WTimeline ["f"] "p1"; WTimeline ["a"] "p1"]
  /\ entries_of "p1" (RedisClient.zget (getTimelineKey "f") (redis regular))
     = [mkZ 100 "p1"]
  /\ statuses (redis regular) = ∅
  /\ writes influencer
     = [WTimeline ["f"] "p2";
        WStatus "distribution_status:p2" "influencer_push_completed"]
  /\ entries_of "p2" (RedisClient.zget (getTimelineKey "f") (redis influencer))
     = [mkZ 200 "p2"]
  /\ statuses (redis influencer)
     = {[ "distribution_status:p2" :=
            mkStatus "p2" "star" "influencer_push_completed" 200 ]}.
Proof. repeat split; vm_compute; reflexivity. Qed.

(** C3.  The influencer mode does not write the author's own timeline.
    [star] has more followers than the push threshold and no active follower
    is cached: after the fan-out of [p2] no sorted set exists, so the timeline
    of [star] does not hold [p2].  The regular mode does write the timeline of
    the author [a]. *)
Theorem influencer_own_timeline_not_written :
  let influencer :=
    fst (distributePostOptimized parse_any config fresh_world post_p2 author_star
           (200 * Second)) in
  let regular :=
    fst (distributePostOptimized parse_any config fresh_world post_p1 author_a
           (100 * Second)) in
  PushThreshold config < Followers author_star
  /\ snd (Activity.GetActiveFollowers parse_any (redis fresh_world) "star" 1000
            (200 * Second)) = []
  /\ entries_of "p2" (RedisClient.zget (getTimelineKey "star") (redis influencer)) = []
  /\ zsets (redis influencer) = ∅
  /\ Followers author_a <= PushThreshold config
  /\ entries_of "p1" (RedisClient.zget (getTimelineKey "a") (redis regular))
     = [mkZ 100 "p1"].
Proof. repeat split; vm_compute; (reflexivity || discriminate). Qed.

(** C4.  A recovery run recovers nothing, because the key scan returns no
    key.  The record of [p1] says [regular_push_started] since second [0], the
    run happens at second [1000], and [f] follows the author: the run leaves
    the state as it is, [f] does not receive [p1] and the record stays
    started.  Recovering the key itself would have delivered the post and
    completed the record. *)
Theorem recovery_run_recovers_nothing :
  let now := 1000 * Second in
  let key := "distribution_status:p1" in
  let after := fst (Recovery.RecoverPendingDistributions parse_any stalled_world now) in
  let single := fst (Recovery.recoverSingleDistribution parse_any stalled_world key now) in
  statuses (redis stalled_world) !! key
  = Some (mkStatus "p1" "a" "regular_push_started" 0)
  /\ 300 < Unix now - 0
  /\ ID <$> FollowRepository.GetFollowers (db stalled_world) "a" 0 10000 = ["f"]
  /\ after = stalled_world
  /\ entries_of "p1" (RedisClient.zget (getTimelineKey "f") (redis after)) = []
  /\ Status <$> statuses (redis after) !! key = Some "regular_push_started"
  /\ entries_of "p1" (RedisClient.zget (getTimelineKey "f") (redis single))
     = [mkZ 100 "p1"]
  /\ Status <$> statuses (redis single) !! key = Some "regular_push_completed".
Proof.
  repeat split; try reflexivity; vm_compute; reflexivity.
Qed.

End DistributorRuns.

(** The recovery run is the identity, whatever the state. *)
Lemma RecoverPendingDistributions_noop (uuid_Parse : string -> option uuid)
    (w : World) (now : Time) :
  Recovery.RecoverPendingDistributions uuid_Parse w now = (w, None).
Proof. reflexivity. Qed.

(** * Deleting a post *)

Section DeletePostFacts.
Import Feed.
Variable uuid_Parse : string -> option uuid.


End DeletePostFacts.


(** * Removing, clearing and measuring a timeline *)

Section TimelineMaintenance.
Import SortedSet TimelineCache Page.

Lemma zget_zput (key : string) (l : zset) (r : Redis) :
  RedisClient.zget key (RedisClient.zput key l r) = l.
Proof.
  unfold RedisClient.zput. destruct l as [| x l].
  - unfold RedisClient.zget. simpl. by rewrite lookup_delete_eq.
  - apply zget_insert.
Qed.

Lemma view_zput_ne (key key' : string) (l : zset) (r : Redis) :
  key <> key' -> view key (RedisClient.zput key' l r) = view key r.
Proof.
  intros H. unfold view, RedisClient.zput. destruct l; simpl.
  - by rewrite !lookup_delete_ne.
  - by rewrite lookup_insert_ne.
Qed.

Lemma entries_of_ZRem (p : uuid) (l : zset) :
  entries_of p (SortedSet.ZRem (uuid_String p) l) = [].
Proof. apply entries_of_absent, ZRem_member_gone. Qed.

Lemma ZRem_idem (m : string) (l : zset) :
  SortedSet.ZRem m (SortedSet.ZRem m l) = SortedSet.ZRem m l.
Proof. apply ZRem_notin, ZRem_member_gone. Qed.

Lemma ZRem_wf (m : string) (l : zset) : wf l -> wf (SortedSet.ZRem m l).
Proof. intros [Hs Hn]. split; [by apply ZRem_sorted | by apply ZRem_NoDup]. Qed.

(** After [RemoveFromTimeline] the user's timeline has no entry for the
    post and keeps every other entry; removing is idempotent and leaves the
    other keys alone.  Removing a post right after adding it gives back the
    entries the timeline had, when the post was not there and the timeline
    was below its cap. *)
Theorem RemoveFromTimeline_removes (r : Redis) (userID postID : uuid) (score : R)
    (timestamp : Time) :
  let key := getTimelineKey userID in
  let removed := RemoveFromTimeline r userID postID in
  entries_of postID (RedisClient.zget key removed) = []
  /\ (forall x, x ∈ RedisClient.zget key removed <->
                x ∈ RedisClient.zget key r /\ Member x <> uuid_String postID)
  /\ (wf (RedisClient.zget key r) -> wf (RedisClient.zget key removed))
  /\ RedisClient.zget key (RemoveFromTimeline removed userID postID)
     = RedisClient.zget key removed
  /\ (forall key', key' <> key -> view key' removed = view key' r)
  /\ (uuid_String postID ∉ Member <$> RedisClient.zget key r ->
      (length (RedisClient.zget key r) < 1000)%nat ->
      RedisClient.zget key
        (RemoveFromTimeline (AddToTimeline r userID postID score timestamp) userID postID)
      = RedisClient.zget key r).
Proof.
  intros key removed. subst key removed. unfold RemoveFromTimeline, RedisClient.ZRem.
  rewrite !zget_zput.
  split; [apply entries_of_ZRem |]. split; [intros x; apply ZRem_elem_of |].
  split; [apply ZRem_wf |]. split; [apply ZRem_idem |].
  split; [intros key' Hne; by apply view_zput_ne |].
  intros Hout Hlen. rewrite AddToTimeline_zget, added_eq.
  set (e := mkZ (Unix timestamp) (uuid_String postID)).
  set (l := RedisClient.zget (getTimelineKey userID) r) in *.
  assert (length (SortedSet.ZAdd e l) = S (length l)) as Hl.
  { unfold SortedSet.ZAdd. rewrite zinsert_length. simpl. by rewrite ZRem_notin. }
  rewrite Hl. replace (S (length l) - 1000)%nat with 0%nat by lia.
  rewrite drop_0. change (uuid_String postID) with (Member e) in Hout |- *.
  unfold SortedSet.ZAdd. rewrite (ZRem_zinsert e), ZRem_idem. by apply ZRem_notin.
Qed.

Lemma RemoveFromTimeline_removes_witness :
  ("p" ∉ (Member <$> RedisClient.zget (getTimelineKey "u") Examples.small_timeline))
  /\ (length (RedisClient.zget (getTimelineKey "u") Examples.small_timeline) < 1000)%nat
  /\ RedisClient.zget (getTimelineKey "u")
       (RemoveFromTimeline
          (AddToTimeline Examples.small_timeline "u" "p" 0%R (65 * Second)) "u" "p")
     = RedisClient.zget (getTimelineKey "u") Examples.small_timeline.
Proof.
  assert ("p" ∉ Member <$> RedisClient.zget (getTimelineKey "u") Examples.small_timeline)
    as Hout by by_evaluation.
  assert (length (RedisClient.zget (getTimelineKey "u") Examples.small_timeline) < 1000)%nat
    as Hlen by (vm_compute; lia).
  split; [exact Hout |]. split; [exact Hlen |].
  exact (proj2 (proj2 (proj2 (proj2 (proj2
           (RemoveFromTimeline_removes Examples.small_timeline "u" "p" 0%R (65 * Second))))))
           Hout Hlen).
Defined.

Lemma Exists_Delete (key : string) (r : Redis) :
  RedisClient.Exists key (RedisClient.Delete key r) = 0.
Proof.
  unfold RedisClient.Exists, RedisClient.Delete. simpl.
  rewrite !lookup_delete_eq.
  rewrite !bool_decide_eq_false_2; [done | | |]; by intros [? ?].
Qed.

Lemma view_Delete_ne (key key' : string) (r : Redis) :
  key <> key' -> view key (RedisClient.Delete key' r) = view key r.
Proof. intros H. unfold view. simpl. by rewrite !lookup_delete_ne. Qed.

(** [ClearUserTimeline] empties the timeline of one user: its size is [0],
    it is no longer cached, every page read from it is empty with no next
    cursor, and the other keys are as before.  After [AddToTimeline] the
    timeline is cached and its size lies between [1] and the cap. *)
Theorem ClearUserTimeline_empties (ParseFloat : string -> option Q) (r : Redis)
    (userID postID : uuid) (score : R) (timestamp : Time) (cursor : string)
    (limit : Z) (now : Time) :
  let cleared := ClearUserTimeline r userID in
  let added := AddToTimeline r userID postID score timestamp in
  GetTimelineSize cleared userID = 0
  /\ IsTimelineCached cleared userID = false
  /\ (0 <= limit -> GetTimeline ParseFloat cleared userID cursor limit now
                    = Some ([], "", false))
  /\ (forall key, key <> getTimelineKey userID -> view key cleared = view key r)
  /\ IsTimelineCached added userID = true
  /\ 1 <= GetTimelineSize added userID <= MaxTimelineSize.
Proof.
  intros cleared added. unfold cleared, added, ClearUserTimeline.
  split; [| split; [| split; [| split; [| split]]]].
  - unfold GetTimelineSize, RedisClient.ZCard. by rewrite zget_Delete.
  - unfold IsTimelineCached. by rewrite Exists_Delete.
  - intros Hlimit. unfold GetTimeline, RedisClient.ZRevRangeByScoreWithScores.
    rewrite zget_Delete. unfold SortedSet.ZRevRangeByScoreWithScores. simpl.
    assert ((if wrap64 (limit + 1) <=? 0 then [] else take (Z.to_nat (wrap64 (limit + 1))) [])
            = @nil ZEntry) as ->.
    { destruct (wrap64 (limit + 1) <=? 0); [done | by rewrite take_nil]. }
    simpl. change (Z.of_nat 0) with 0.
    destruct (Z.ltb_spec limit 0); [lia | reflexivity].
  - intros key Hne. by apply view_Delete_ne.
  - unfold IsTimelineCached. rewrite AddToTimeline_eq.
    unfold RedisClient.Exists. simpl. rewrite lookup_insert_eq.
    by rewrite bool_decide_eq_true_2 by eauto.
  - unfold GetTimelineSize, RedisClient.ZCard. rewrite AddToTimeline_zget.
    pose proof (added_length (mkZ (Unix timestamp) (uuid_String postID))
                  (RedisClient.zget (getTimelineKey userID) r)) as Hle.
    pose proof (added_nonempty (mkZ (Unix timestamp) (uuid_String postID))
                  (RedisClient.zget (getTimelineKey userID) r)) as Hne.
    unfold MaxTimelineSize, SortedSet.ZCard.
    destruct (TimelineCache.added _ _); [done | simpl in *; lia].
Qed.

Lemma ClearUserTimeline_empties_witness :
  0 <= 20
  /\ GetTimeline Examples.parse_100
       (ClearUserTimeline Examples.small_timeline "u") "u" "100" 20 0
     = Some ([], "", false).
Proof.
  assert (0 <= 20) as H by lia. split; [exact H |].
  exact (proj1 (proj2 (proj2
           (ClearUserTimeline_empties Examples.parse_100 Examples.small_timeline
              "u" "p" 0%R 0 "100" 20 0))) H).
Defined.

(** [GetOldestPostScore] is the lowest score of the timeline: no entry has a
    smaller score and some entry has it; for a timeline that does not exist
    it is [0]. *)
Theorem GetOldestPostScore_is_minimum (r : Redis) (userID : uuid) :
  wf (RedisClient.zget (getTimelineKey userID) r) ->
  let timeline := RedisClient.zget (getTimelineKey userID) r in
  (timeline = [] -> GetOldestPostScore r userID = 0)
  /\ (forall x, x ∈ timeline -> GetOldestPostScore r userID <= Score x)
  /\ (timeline <> [] -> exists x, x ∈ timeline /\ Score x = GetOldestPostScore r userID).
Proof.
  intros [Hs _] timeline. unfold GetOldestPostScore, RedisClient.ZRangeWithScores,
    SortedSet.ZRangeFirst. fold timeline. fold timeline in Hs.
  destruct timeline as [| y l]; simpl.
  - split; [done |]. split; [| done]. intros x Hx. by apply elem_of_nil in Hx.
  - split; [done |]. split.
    + intros x Hx. apply elem_of_cons in Hx as [-> | Hx]; [lia |].
      apply StronglySorted_inv in Hs as [_ Hy]. rewrite Forall_forall in Hy.
      specialize (Hy x Hx). apply zle_iff in Hy. lia.
    + intros _. exists y. split; [apply list_elem_of_here | done].
Qed.

Lemma GetOldestPostScore_is_minimum_witness :
  wf (RedisClient.zget (getTimelineKey "u") Examples.small_timeline)
  /\ GetOldestPostScore Examples.small_timeline "u" <= 60.
Proof.
  assert (wf (RedisClient.zget (getTimelineKey "u") Examples.small_timeline)) as Hwf
    by (split; by_evaluation).
  split; [exact Hwf |].
  apply (proj1 (proj2 (GetOldestPostScore_is_minimum Examples.small_timeline "u" Hwf))
           (mkZ 60 "b")).
  by_evaluation.
Defined.

End TimelineMaintenance.

(** * Rebuilding a timeline *)

Section Rebuild.
Import SortedSet TimelineCache.

Lemma view_Expire_ne (key key' : string) (ttl : Duration) (r : Redis) :
  key <> key' -> view key (RedisClient.Expire key' ttl r) = view key r.
Proof.
  intros H. unfold RedisClient.Expire. destruct (RedisClient.Exists key' r =? 1); [| done].
  unfold view. simpl. by rewrite lookup_insert_ne.
Qed.

Lemma zsets_ZAdd (key : string) (e : ZEntry) (r : Redis) :
  zsets (RedisClient.ZAdd key e r) !! key
  = Some (RedisClient.zget key (RedisClient.ZAdd key e r)).
Proof.
  rewrite zget_ZAdd. unfold RedisClient.ZAdd, RedisClient.zput.
  pose proof (ZAdd_length_pos e (RedisClient.zget key r)) as Hpos.
  destruct (SortedSet.ZAdd e (RedisClient.zget key r)); [simpl in Hpos; lia |].
  simpl. by rewrite lookup_insert_eq.
Qed.

Lemma rebuild_fold_zget (key : string) (rows : list Timeline) (r : Redis) :
  RedisClient.zget key
    (fold_left (fun pipe timeline => RedisClient.ZAdd key (rebuild_entry timeline) pipe)
               rows r)
  = fold_left (fun l timeline => SortedSet.ZAdd (rebuild_entry timeline) l) rows
              (RedisClient.zget key r).
Proof.
  revert r. induction rows as [| row rows IH]; intros r; simpl; [done |].
  by rewrite IH, zget_ZAdd.
Qed.

Lemma rebuild_fold_zsets (key : string) (rows : list Timeline) (r : Redis) :
  rows <> [] \/ zsets r !! key = Some (RedisClient.zget key r) ->
  let pipe :=
    fold_left (fun pipe timeline => RedisClient.ZAdd key (rebuild_entry timeline) pipe)
              rows r in
  zsets pipe !! key = Some (RedisClient.zget key pipe).
Proof.
  revert r. induction rows as [| row rows IH]; intros r H; simpl.
  - by destruct H.
  - apply IH. right. apply zsets_ZAdd.
Qed.

Lemma rebuild_fold_view_ne (key key' : string) (rows : list Timeline) (r : Redis) :
  key' <> key ->
  view key'
    (fold_left (fun pipe timeline => RedisClient.ZAdd key (rebuild_entry timeline) pipe)
               rows r)
  = view key' r.
Proof.
  intros H. revert r. induction rows as [| row rows IH]; intros r; simpl; [done |].
  rewrite IH. by apply view_zput_ne.
Qed.

Lemma rebuild_fold_wf (rows : list Timeline) (l : zset) :
  wf l -> wf (fold_left (fun l timeline => SortedSet.ZAdd (rebuild_entry timeline) l) rows l).
Proof.
  revert l. induction rows as [| row rows IH]; intros l H; simpl; [done |].
  by apply IH, ZAdd_wf.
Qed.

Lemma rebuild_fold_fresh (rows : list Timeline) (l : zset) :
  NoDup (tl_PostID <$> rows) ->
  (forall row, row ∈ rows -> uuid_String (tl_PostID row) ∉ (Member <$> l)) ->
  let l' := fold_left (fun l timeline => SortedSet.ZAdd (rebuild_entry timeline) l) rows l in
  length l' = (length l + length rows)%nat
  /\ (forall x, x ∈ l -> x ∈ l')
  /\ (forall row, row ∈ rows -> rebuild_entry row ∈ l').
Proof.
  revert l. induction rows as [| row rows IH]; intros l Hn Hfresh; simpl.
  - split; [lia |]. split; [done |]. intros row H. by apply elem_of_nil in H.
  - simpl in Hn. apply NoDup_cons in Hn as [Hrow Hn].
    assert (SortedSet.ZRem (Member (rebuild_entry row)) l = l) as Hrem.
    { apply ZRem_notin. apply Hfresh, list_elem_of_here. }
    destruct (IH (SortedSet.ZAdd (rebuild_entry row) l) Hn) as (Hlen & Hold & Hnew).
    { intros row' Hrow'. unfold SortedSet.ZAdd. rewrite Hrem, zinsert_members.
      apply not_elem_of_cons. split.
      - intros E. apply Hrow. cbv [rebuild_entry Member uuid_String] in E.
        rewrite <- E. by apply list_elem_of_fmap_2.
      - by apply Hfresh, list_elem_of_further. }
    split; [| split].
    + rewrite Hlen. unfold SortedSet.ZAdd. rewrite Hrem, zinsert_length. lia.
    + intros x Hx. apply Hold. unfold SortedSet.ZAdd. rewrite Hrem.
      apply zinsert_elem_of. by right.
    + intros row' Hrow'. apply elem_of_cons in Hrow' as [-> | Hrow']; [| by apply Hnew].
      apply Hold. apply ZAdd_elem_of. by left.
Qed.

(** [RebuildTimelineFromDB] replaces the timeline of the user: what it
    leaves does not depend on what the timeline held before, is well formed,
    and no other key changes.  With no rows the timeline is deleted; with
    rows it is cached for [TimelineCacheTTL].  For rows of distinct posts it
    holds one entry per row, each under the creation second of the row: the
    rows are not trimmed to [MaxTimelineSize]. *)
Theorem RebuildTimelineFromDB_replaces (r r' : Redis) (userID : uuid)
    (rows : list Timeline) :
  let key := getTimelineKey userID in
  let rebuilt := RebuildTimelineFromDB r userID rows in
  RedisClient.zget key rebuilt
  = RedisClient.zget key (RebuildTimelineFromDB r' userID rows)
  /\ wf (RedisClient.zget key rebuilt)
  /\ (rows = [] -> IsTimelineCached rebuilt userID = false)
  /\ (rows <> [] ->
      IsTimelineCached rebuilt userID = true
      /\ expires rebuilt !! key = Some TimelineCacheTTL)
  /\ (NoDup (tl_PostID <$> rows) ->
      length (RedisClient.zget key rebuilt) = length rows
      /\ forall row, row ∈ rows ->
           mkZ (Unix (tl_CreatedAt row)) (uuid_String (tl_PostID row))
             ∈ RedisClient.zget key rebuilt)
  /\ (forall key', key' <> key -> view key' rebuilt = view key' r).
Proof.
  intros key rebuilt. subst key rebuilt.
  assert (forall r0,
            RedisClient.zget (getTimelineKey userID) (RebuildTimelineFromDB r0 userID rows)
            = fold_left (fun l timeline => SortedSet.ZAdd (rebuild_entry timeline) l) rows [])
    as Hget.
  { intros r0. unfold RebuildTimelineFromDB. destruct rows as [| row rows].
    - apply zget_Delete.
    - rewrite zget_Expire.
      rewrite (rebuild_fold_zget (getTimelineKey userID) (row :: rows)).
      by rewrite zget_Delete. }
  split; [by rewrite !Hget |]. split; [rewrite Hget; apply rebuild_fold_wf, wf_nil |].
  split; [intros ->; unfold IsTimelineCached; simpl; by rewrite Exists_Delete |].
  split; [| split].
  - intros Hne. unfold RebuildTimelineFromDB. destruct rows as [| row rows]; [done |].
    pose proof (rebuild_fold_zsets (getTimelineKey userID) (row :: rows)
                  (RedisClient.Delete (getTimelineKey userID) r) (or_introl Hne)) as Hz.
    simpl in Hz.
    unfold IsTimelineCached, RedisClient.Expire.
    assert (RedisClient.Exists (getTimelineKey userID)
              (fold_left
                 (fun pipe timeline =>
                    RedisClient.ZAdd (getTimelineKey userID)
                      (mkZ (Unix (tl_CreatedAt timeline)) (uuid_String (tl_PostID timeline)))
                      pipe)
                 (row :: rows) (RedisClient.Delete (getTimelineKey userID) r)) = 1) as He.
    { unfold RedisClient.Exists. simpl. unfold rebuild_entry in Hz. rewrite Hz.
      by rewrite bool_decide_eq_true_2 by eauto. }
    rewrite He. simpl. split.
    + unfold RedisClient.Exists. simpl. unfold rebuild_entry in Hz. rewrite Hz.
      by rewrite bool_decide_eq_true_2 by eauto.
    + by rewrite lookup_insert_eq.
  - intros Hn. rewrite Hget.
    destruct (rebuild_fold_fresh rows [] Hn) as (Hlen & _ & Hnew).
    { intros row _ H. by apply elem_of_nil in H. }
    split; [done | exact Hnew].
  - intros key' Hne. unfold RebuildTimelineFromDB. destruct rows as [| row rows].
    + by apply view_Delete_ne.
    + rewrite view_Expire_ne by done.
      rewrite (rebuild_fold_view_ne (getTimelineKey userID) key' (row :: rows)) by done.
      by apply view_Delete_ne.
Qed.

End Rebuild.

Lemma RebuildTimelineFromDB_replaces_witness :
  NoDup (tl_PostID <$> Scenarios.two_rows)
  /\ length (RedisClient.zget (TimelineCache.getTimelineKey "u")
               (TimelineCache.RebuildTimelineFromDB Examples.small_timeline "u"
                  Scenarios.two_rows))
     = 2%nat.
Proof.
  assert (NoDup (tl_PostID <$> Scenarios.two_rows)) as Hn by by_evaluation.
  split; [exact Hn |].
  exact (proj1 (proj1 (proj2 (proj2 (proj2 (proj2
           (RebuildTimelineFromDB_replaces Examples.small_timeline RedisClient.empty "u"
              Scenarios.two_rows))))) Hn)).
Defined.

(** * Following the cursor *)

Section NextPage.
Import SortedSet TimelineCache Page.

Lemma pretty_N_go_nonempty (x : N) (s : string) : s <> "" -> pretty_N_go x s <> "".
Proof.
  revert s. induction (N.lt_wf_0 x) as [x _ IH]; intros s Hs.
  assert (x = 0 \/ 0 < x)%N as [-> | Hx] by lia.
  - by rewrite pretty_N_go_0.
  - rewrite pretty_N_go_step by done. apply IH; [by apply N.div_lt | done].
Qed.

Lemma Sprintf_0f_nonempty (z : Z) : Sprintf_0f z <> "".
Proof.
  unfold Sprintf_0f, pretty, pretty_Z. destruct z as [| x | x]; [done | | done].
  unfold pretty, pretty_positive, pretty, pretty_N. simpl.
  rewrite pretty_N_go_step by lia. by apply pretty_N_go_nonempty.
Qed.

Lemma GetTimeline_cursor_after (ParseFloat : string -> option Q) (r : Redis)
    (userID : uuid) (cursor : string) (limit : Z) (now : Time) items nextCursor hasMore :
  GetTimeline ParseFloat r userID cursor limit now = Some (items, nextCursor, hasMore) ->
  nextCursor = cursor_after items.
Proof.
  unfold GetTimeline. destruct (_ && _); [done |]. rewrite page_loop.
  intros [= <- <- _]. simpl. by rewrite cursor_after_fmap.
Qed.

Lemma StronglySorted_last {A} (rel : relation A) (l : list A) (x : A) :
  StronglySorted rel l -> last l = Some x -> forall y, y ∈ l -> y = x \/ rel y x.
Proof.
  intros Hs Hlast. apply last_Some in Hlast as [l' ->].
  intros y Hy. apply elem_of_app in Hy as [Hy | Hy].
  - right. apply (StronglySorted_app_1_elem_of rel l' [x] y x Hs Hy), list_elem_of_here.
  - left. by apply list_elem_of_singleton in Hy.
Qed.

(** Feeding the cursor of a page back returns the next page: the highest
    entries whose score lies strictly below the score of the last item
    already returned.  No item of the next page is an item of the page
    before, and all of them are older; an entry that shares the score of
    that last item and was not returned with it is not returned later. *)
Theorem GetTimeline_next_page (ParseFloat : string -> option Q) (r : Redis)
    (userID : uuid) (cursor : string) (limit : Z) (now now' : Time)
    (items : list TimelineItem) (nextCursor : string) (hasMore : bool)
    (item : TimelineItem) :
  wf (RedisClient.zget (getTimelineKey userID) r) ->
  0 <= limit <= MaxInt64 ->
  GetTimeline ParseFloat r userID cursor limit now = Some (items, nextCursor, hasMore) ->
  last items = Some item ->
  (exists q, ParseFloat nextCursor = Some q /\ q == inject_Z (item_Score item)) ->
  let timeline := RedisClient.zget (getTimelineKey userID) r in
  let hits := below (item_Score item) timeline in
  let next := toItem <$> take (Z.to_nat limit) hits in
  GetTimeline ParseFloat r userID nextCursor limit now'
  = Some (next, cursor_after next, limit <? Z.of_nat (length hits))
  /\ (forall a b, a ∈ items -> b ∈ next -> item_Score b < item_Score a)
  /\ (forall e, e ∈ timeline -> Score e = item_Score item -> toItem e ∉ next).
Proof.
  intros Hwf Hlimit Hget Hlast (q & Hparse & Hq) timeline hits next.
  pose proof (GetTimeline_cursor_after _ _ _ _ _ _ _ _ _ Hget) as Hnc.
  assert (nextCursor = Sprintf_0f (item_Score item)) as Hcur.
  { rewrite Hnc. unfold cursor_after. by rewrite Hlast. }
  assert (forall b, b ∈ next -> item_Score b < item_Score item) as Hbelow.
  { intros b Hb. apply list_elem_of_fmap in Hb as (e & -> & He).
    apply subseteq_take, below_elem_of in He as [_ He]. done. }
  split; [| split].
  - apply GetTimeline_page; [done |]. unfold cursor_epoch.
    destruct (String.eqb_spec nextCursor "") as [E | _].
    + exfalso. apply (Sprintf_0f_nonempty (item_Score item)). by rewrite <- Hcur.
    + by rewrite Hparse.
  - intros a b Ha Hb. specialize (Hbelow b Hb).
    apply GetTimeline_sorted in Hget as (results & -> & Hs); [| done].
    assert (StronglySorted (fun x y => item_Score y <= item_Score x) (toItem <$> results))
      as Hs'.
    { apply (StronglySorted_fmap toItem (flip zle)); [| done].
      intros x y Hxy. unfold flip in Hxy. apply zle_iff in Hxy. simpl. lia. }
    destruct (StronglySorted_last _ _ _ Hs' Hlast a Ha) as [-> | Hle]; lia.
  - intros e He Hscore Hin. specialize (Hbelow _ Hin). simpl in Hbelow. lia.
Qed.

Lemma GetTimeline_next_page_witness :
  wf (RedisClient.zget (getTimelineKey "u") Examples.small_timeline)
  /\ 0 <= 1 <= MaxInt64
  /\ GetTimeline Scenarios.parse_digits Examples.small_timeline "u" "" 1 (1000 * Second)
     = Some ([mkItem "c" 70 (time_Unix 70)], "70", true)
  /\ GetTimeline Scenarios.parse_digits Examples.small_timeline "u" "70" 1 0
     = Some ([mkItem "b" 60 (time_Unix 60)], "60", true).
Proof.
  assert (wf (RedisClient.zget (getTimelineKey "u") Examples.small_timeline)) as Hwf
    by (split; by_evaluation).
  assert (0 <= 1 <= MaxInt64) as Hlimit by (vm_compute; split; discriminate).
  assert (GetTimeline Scenarios.parse_digits Examples.small_timeline "u" "" 1 (1000 * Second)
          = Some ([mkItem "c" 70 (time_Unix 70)], "70", true)) as Hget
    by (vm_compute; reflexivity).
  split; [exact Hwf |]. split; [exact Hlimit |]. split; [exact Hget |].
  destruct (GetTimeline_next_page Scenarios.parse_digits Examples.small_timeline "u" ""
              1 (1000 * Second) 0 _ _ _ (mkItem "c" 70 (time_Unix 70)) Hwf Hlimit Hget
              eq_refl) as [Hnext _].
  - exists (inject_Z 70). split; reflexivity.
  - rewrite Hnext. vm_compute. reflexivity.
Defined.

End NextPage.

(** * Activity tracking *)

Section ActivityTracking.
Import Activity ActivityService.

Lemma getActivityIncrement_bounds (activityType : string) :
  (1 <= getActivityIncrement activityType <= 15)%R.
Proof. unfold getActivityIncrement. repeat case_match; lra. Qed.

Lemma updatedUser_fields (user : User) (activityType : string) (now : Time) :
  let user' := updatedUser user activityType now in
  ID user' = ID user /\ Followers user' = Followers user
  /\ Following user' = Following user
  /\ LastActiveAt user' = Some now /\ IsOnline user' = true.
Proof. unfold updatedUser. simpl. by destruct (Rlt_dec _ _). Qed.

(** What [UpdateUserActivity] leaves for a stored user. *)
Lemma UpdateUserActivity_known (w : World) (userID : uuid) (activityType : string)
    (now : Time) (user : User) :
  UserRepository.GetByID (db w) userID = Some user ->
  let result := UpdateUserActivity w userID activityType now in
  exists user',
    snd result = None
    /\ UserRepository.GetByID (db (fst result)) (ID user) = Some user'
    /\ (ActivityScore user' <= MaxActivityScore)%R
    /\ ((ActivityScore user <= MaxActivityScore)%R ->
        (ActivityScore user <= ActivityScore user')%R)
    /\ IsOnline user' = true
    /\ LastActiveAt user' = Some now
    /\ Followers user' = Followers user
    /\ (forall id, id <> ID user ->
          UserRepository.GetByID (db (fst result)) id
          = UserRepository.GetByID (db w) id)
    /\ RedisClient.Get ("user_online:" +:+ uuid_String userID) (redis (fst result))
       = Some "1"
    /\ expires (redis (fst result)) !! ("user_online:" +:+ uuid_String userID)
       = Some OnlineUserCacheTTL
    /\ RedisClient.Get ("user_active:" +:+ uuid_String userID) (redis (fst result))
       = None.
Proof.
  intros Hget result. exists (updatedUser user activityType now).
  destruct (UpdateUserActivity_stored w userID activityType now user Hget)
    as [Hstored Herr].
  destruct (updatedUser_fields user activityType now) as (Hid & Hf & _ & Hlast & Hon).
  pose proof (updatedUser_score user activityType now) as Hscore.
  pose proof (getActivityIncrement_bounds activityType) as Hinc.
  split; [done |]. split; [done |].
  split; [rewrite Hscore; apply Rmin_l |].
  split.
  { intros Hle. rewrite Hscore. apply Rmin_glb; lra. }
  split; [done |]. split; [done |]. split; [done |].
  unfold result, UpdateUserActivity. rewrite Hget. simpl.
  split; [| split; [| split]].
  - intros id Hid'. unfold UserRepository.GetByID. simpl.
    rewrite lookup_insert_ne; [done |]. by rewrite Hid.
  - unfold RedisClient.Get. simpl.
    rewrite lookup_delete_ne by discriminate. by rewrite lookup_insert_eq.
  - rewrite lookup_delete_ne by discriminate. by rewrite lookup_insert_eq.
  - unfold RedisClient.Get. simpl. by rewrite lookup_delete_eq.
Qed.

(** [UpdateUserActivity] on a stored user never stores a score above
    [MaxActivityScore], never lowers a score that was within the bound, marks
    the user online and last active now, flags the user online in the cache
    for [15] minutes and drops the cached activity answer; it changes no other
    user.  For an id that is not stored it reports [user not found] and
    changes nothing. *)
Theorem UpdateUserActivity_effects (w : World) (userID : uuid) (activityType : string)
    (now : Time) :
  let result := UpdateUserActivity w userID activityType now in
  (UserRepository.GetByID (db w) userID = None ->
   result = (w, Some "user not found"))
  /\ (forall user,
        UserRepository.GetByID (db w) userID = Some user ->
        exists user',
          snd result = None
          /\ UserRepository.GetByID (db (fst result)) (ID user) = Some user'
          /\ (ActivityScore user' <= MaxActivityScore)%R
          /\ ((ActivityScore user <= MaxActivityScore)%R ->
              (ActivityScore user <= ActivityScore user')%R)
          /\ IsOnline user' = true
          /\ LastActiveAt user' = Some now
          /\ Followers user' = Followers user
          /\ (forall id, id <> ID user ->
                UserRepository.GetByID (db (fst result)) id
                = UserRepository.GetByID (db w) id)
          /\ RedisClient.Get ("user_online:" +:+ uuid_String userID) (redis (fst result))
             = Some "1"
          /\ expires (redis (fst result)) !! ("user_online:" +:+ uuid_String userID)
             = Some OnlineUserCacheTTL
          /\ RedisClient.Get ("user_active:" +:+ uuid_String userID) (redis (fst result))
             = None).
Proof.
  intros result. split.
  - intros Hnone. unfold result, UpdateUserActivity. by rewrite Hnone.
  - intros user Hget. by apply UpdateUserActivity_known.
Qed.

Lemma UpdateUserActivity_effects_witness :
  UserRepository.GetByID (db Examples.activity_world) "nobody" = None
  /\ UpdateUserActivity Examples.activity_world "nobody" "login" 0
     = (Examples.activity_world, Some "user not found").
Proof.
  assert (UserRepository.GetByID (db Examples.activity_world) "nobody" = None) as H
    by reflexivity.
  split; [exact H |].
  exact (proj1 (UpdateUserActivity_effects Examples.activity_world "nobody" "login" 0) H).
Defined.

(** Right after an activity the user is reported active: the cached answer
    was dropped, so [IsUserActive] reads the stored user, who is online, and
    caches the answer [1] for five minutes. *)
Theorem IsUserActive_after_activity (w : World) (userID : uuid) (activityType : string)
    (now now' : Time) (user : User) :
  UserRepository.GetByID (db w) userID = Some user ->
  ID user = userID ->
  let w' := fst (UpdateUserActivity w userID activityType now) in
  snd (IsUserActive w' userID now') = true
  /\ RedisClient.Get ("user_active:" +:+ uuid_String userID)
       (redis (fst (IsUserActive w' userID now'))) = Some "1"
  /\ expires (redis (fst (IsUserActive w' userID now')))
       !! ("user_active:" +:+ uuid_String userID) = Some (5 * Minute).
Proof.
  intros Hget Hid w'.
  destruct (UpdateUserActivity_known w userID activityType now user Hget)
    as (user' & _ & Hstored & _ & _ & Hon & _ & _ & _ & _ & _ & Hcache).
  fold w' in Hstored, Hcache. rewrite Hid in Hstored.
  unfold IsUserActive. rewrite Hcache, Hstored.
  unfold calculateUserActivity. rewrite Hon. simpl.
  unfold RedisClient.Get. simpl. by rewrite !lookup_insert_eq.
Qed.

Lemma IsUserActive_after_activity_witness :
  UserRepository.GetByID (db Examples.activity_world) "u" = Some Examples.alice
  /\ ID Examples.alice = "u"
  /\ snd (IsUserActive (fst (UpdateUserActivity Examples.activity_world "u" "like" 5)) "u" 9)
     = true.
Proof.
  split; [reflexivity |]. split; [reflexivity |].
  exact (proj1 (IsUserActive_after_activity Examples.activity_world "u" "like" 5 9
                  Examples.alice eq_refl eq_refl)).
Defined.

(** An answer that [IsUserActive] computes is served from the cache while the
    key lives: the call that finds no cached answer for a stored user caches
    what [calculateUserActivity] says for five minutes, and a call within
    these five minutes on a cache that still holds the key returns that
    answer and changes nothing, whatever has become of the user's row. *)
Theorem IsUserActive_cached_answer (w w' : World) (userID : uuid) (now now' : Time)
    (user : User) :
  RedisClient.Get ("user_active:" +:+ uuid_String userID) (redis w) = None ->
  UserRepository.GetByID (db w) userID = Some user ->
  now <= now' < now + 5 * Minute ->
  let first := IsUserActive w userID now in
  redis w' = redis (fst first) ->
  snd first = calculateUserActivity user now
  /\ RedisClient.Get ("user_active:" +:+ uuid_String userID) (redis (fst first))
     = Some (if snd first then "1" else "0")
  /\ expires (redis (fst first)) !! ("user_active:" +:+ uuid_String userID)
     = Some (5 * Minute)
  /\ IsUserActive w' userID now' = (w', snd first).
Proof.
  intros Hmiss Hget Hlife first Hredis.
  assert (first = (with_redis (RedisClient.Set_ ("user_active:" +:+ uuid_String userID)
                                 (if calculateUserActivity user now then "1" else "0")
                                 (5 * Minute)) w,
                   calculateUserActivity user now)) as Hfirst.
  { unfold first, IsUserActive. by rewrite Hmiss, Hget. }
  assert (RedisClient.Get ("user_active:" +:+ uuid_String userID) (redis (fst first))
          = Some (if snd first then "1" else "0")) as Hcached.
  { rewrite Hfirst. unfold RedisClient.Get. simpl. by rewrite lookup_insert_eq. }
  split; [by rewrite Hfirst |]. split; [done |]. split.
  - rewrite Hfirst. simpl. by rewrite lookup_insert_eq.
  - unfold IsUserActive. rewrite Hredis, Hcached. by destruct (snd first).
Qed.

Lemma IsUserActive_cached_answer_witness :
  let w := Examples.activity_world in
  let first := IsUserActive w "u" 0 in
  RedisClient.Get ("user_active:" +:+ uuid_String "u") (redis w) = None
  /\ UserRepository.GetByID (db w) "u" = Some Examples.alice
  /\ 0 <= Minute < 0 + 5 * Minute
  /\ redis (fst first) = redis (fst first)
  /\ IsUserActive (fst first) "u" Minute = (fst first, snd first).
Proof.
  intros w first.
  assert (RedisClient.Get ("user_active:" +:+ uuid_String "u") (redis w) = None) as H1
    by reflexivity.
  assert (UserRepository.GetByID (db w) "u" = Some Examples.alice) as H2 by reflexivity.
  assert (0 <= Minute < 0 + 5 * Minute) as H3 by (unfold Minute, Second; lia).
  split; [exact H1 |]. split; [exact H2 |]. split; [exact H3 |]. split; [reflexivity |].
  exact (proj2 (proj2 (proj2
           (IsUserActive_cached_answer w (fst first) "u" 0 Minute Examples.alice
              H1 H2 H3 eq_refl)))).
Defined.

(** A user who acted and then went offline is reported active when the
    stored score reaches the threshold [50] or the activity is less than seven
    days old, and inactive otherwise. *)
Theorem IsUserActive_after_going_offline (w : World) (userID : uuid)
    (activityType : string) (now now' : Time) (user : User) :
  UserRepository.GetByID (db w) userID = Some user ->
  ID user = userID ->
  let w1 := fst (UpdateUserActivity w userID activityType now) in
  let w2 := fst (SetUserOffline w1 userID) in
  let score :=
    Rmin MaxActivityScore (ActivityScore user + getActivityIncrement activityType) in
  (snd (IsUserActive w2 userID now') = true <->
   (ActiveUserScoreThreshold <= score)%R \/ Sub now' now < 7 * 24 * Hour)
  /\ ActivityScore <$> UserRepository.GetByID (db w2) userID = Some score.
Proof.
  intros Hget Hid w1 w2 score.
  destruct (UpdateUserActivity_known w userID activityType now user Hget)
    as (user' & _ & Hstored & _ & _ & Hon & Hlast & _ & _ & _ & _ & Hcache).
  fold w1 in Hstored, Hcache. rewrite Hid in Hstored.
  assert (ActivityScore user' = score) as Hscore.
  { destruct (UpdateUserActivity_stored w userID activityType now user Hget) as [H _].
    fold w1 in H. rewrite Hid, Hstored in H. injection H as ->.
    apply updatedUser_score. }
  assert (ID user' = userID) as Hid'.
  { destruct (UpdateUserActivity_stored w userID activityType now user Hget) as [H _].
    fold w1 in H. rewrite Hid, Hstored in H. injection H as ->.
    by rewrite (proj1 (updatedUser_fields user activityType now)). }
  assert (UserRepository.GetByID (db w2) userID = Some (set_IsOnline false user')) as Hdb.
  { unfold w2, SetUserOffline. rewrite Hstored. simpl.
    unfold UserRepository.GetByID. simpl. rewrite Hid'. by rewrite lookup_insert_eq. }
  assert (RedisClient.Get ("user_active:" +:+ uuid_String userID) (redis w2) = None)
    as Hcache2.
  { unfold w2, SetUserOffline. rewrite Hstored. simpl. unfold RedisClient.Get in *.
    simpl. by rewrite lookup_delete_ne by discriminate. }
  split; [| by rewrite Hdb; simpl; rewrite Hscore].
  unfold IsUserActive. rewrite Hcache2, Hdb. simpl.
  unfold calculateUserActivity. simpl. rewrite Hscore, Hlast.
  destruct (Rle_dec ActiveUserScoreThreshold score) as [Hs | Hs].
  - split; [by left | done].
  - rewrite Z.ltb_lt. split; [by right | by intros [? | ?]].
Qed.

Lemma IsUserActive_after_going_offline_witness :
  UserRepository.GetByID (db Examples.activity_world) "u" = Some Examples.alice
  /\ ID Examples.alice = "u"
  /\ ActivityScore
       <$> UserRepository.GetByID
             (db (fst (SetUserOffline
                         (fst (UpdateUserActivity Examples.activity_world "u" "like" 5))
                         "u"))) "u"
     = Some (Rmin MaxActivityScore (ActivityScore Examples.alice + getActivityIncrement "like")).
Proof.
  split; [reflexivity |]. split; [reflexivity |].
  exact (proj2 (IsUserActive_after_going_offline Examples.activity_world "u" "like" 5 9
                  Examples.alice eq_refl eq_refl)).
Defined.

End ActivityTracking.

(** * The fan-out and its recovery *)

Section FanoutDelivery.
Import SortedSet TimelineCache Distributor Fanout.
Variable uuid_Parse : string -> option uuid.
Variable config : FeedConfig.


Lemma fanout_redis (w : World) (ids : list uuid) (post : Post) :
  redis (if 0 <? Z.of_nat (length ids)
         then logged (WTimeline ids (post_ID post))
                (with_redis (fun r => BatchAddToTimeline r ids (post_ID post)
                                        (post_Score post) (CreatedAt post)) w)
         else w)
  = BatchAddToTimeline (redis w) ids (post_ID post) (post_Score post) (CreatedAt post).
Proof. by destruct ids. Qed.

Lemma fanout_db (w : World) (ids : list uuid) (post : Post) :
  db (if 0 <? Z.of_nat (length ids)
      then logged (WTimeline ids (post_ID post))
             (with_redis (fun r => BatchAddToTimeline r ids (post_ID post)
                                     (post_Score post) (CreatedAt post)) w)
      else w)
  = db w.
Proof. by destruct (0 <? _). Qed.



Lemma checkPostInTimeline_spec (r : Redis) (userID postID : uuid) :
  Recovery.checkPostInTimeline r userID postID
  = bool_decide (uuid_String postID ∈ Member <$> RedisClient.zget (getTimelineKey userID) r).
Proof.
  unfold Recovery.checkPostInTimeline, RedisClient.ZScore, SortedSet.ZScore.
  change ("timeline:" +:+ uuid_String userID) with (getTimelineKey userID).
  induction (RedisClient.zget (getTimelineKey userID) r) as [| x l IH]; simpl.
  - done.
  - destruct (String.eqb_spec (Member x) (uuid_String postID)) as [E | E]; simpl.
    + symmetry. apply bool_decide_eq_true_2. rewrite E. apply list_elem_of_here.
    + rewrite IH. apply bool_decide_ext. rewrite elem_of_cons.
      split; [by right | by intros [? | ?]].
Qed.

Lemma statuses_AddToTimeline (r : Redis) (userID postID : uuid) (score : R) (t : Time) :
  statuses (AddToTimeline r userID postID score t) = statuses r.
Proof. by rewrite AddToTimeline_eq. Qed.

Lemma statuses_BatchAddToTimeline (r : Redis) (userIDs : list uuid) (postID : uuid)
    (score : R) (t : Time) :
  statuses (BatchAddToTimeline r userIDs postID score t) = statuses r.
Proof.
  revert r. induction userIDs as [| u us IH]; intros r; [done |].
  by rewrite BatchAddToTimeline_cons, IH, statuses_AddToTimeline.
Qed.

(** The writes of a recovery: the timelines of the users that lack the post,
    then the record of the post. *)
Lemma recovery_writes (w : World) (post : Post) (ids : list uuid) (completed : string)
    (now : Time) (userID : uuid) :
  wf (RedisClient.zget (getTimelineKey userID) (redis w)) ->
  completed <> "completed" ->
  let need :=
    List.filter (fun followerID =>
                   negb (Recovery.checkPostInTimeline (redis w) followerID (post_ID post)))
                ids in
  let w1 :=
    if 0 <? Z.of_nat (length need)
    then logged (WTimeline need (post_ID post))
           (with_redis (fun r => BatchAddToTimeline r need (post_ID post)
                                   (post_Score post) (CreatedAt post)) w)
    else w in
  let record := "distribution_status:" +:+ uuid_String (post_ID post) in
  let w2 := fst (Recovery.updateDistributionStatus w1 record completed now) in
  let timeline := RedisClient.zget (getTimelineKey userID) (redis w) in
  view (getTimelineKey userID) (redis w2)
  = (if decide (userID ∈ ids /\ uuid_String (post_ID post) ∉ Member <$> timeline)
     then (Some (added (entry post) timeline), Some TimelineCacheTTL)
     else view (getTimelineKey userID) (redis w))
  /\ RedisClient.GetStatus record (redis w2)
     = (fun old => mkStatus (PostID old) (AuthorID old) completed (Unix now))
         <$> RedisClient.GetStatus record (redis w)
  /\ (is_Some (RedisClient.GetStatus record (redis w)) ->
      expires (redis w2) !! record = Some (24 * Hour))
  /\ db w2 = db w.
Proof.
  intros Hwf Hc need w1 record w2 timeline.
  assert (redis w1 = BatchAddToTimeline (redis w) need (post_ID post) (post_Score post)
                       (CreatedAt post)) as Hr1 by apply fanout_redis.
  assert (db w1 = db w) as Hd1 by apply fanout_db.
  assert (RedisClient.GetStatus record (redis w1) = RedisClient.GetStatus record (redis w))
    as Hs1.
  { unfold RedisClient.GetStatus. by rewrite Hr1, statuses_BatchAddToTimeline. }
  assert (view (getTimelineKey userID) (redis w1)
          = if decide (userID ∈ ids /\ uuid_String (post_ID post) ∉ Member <$> timeline)
            then (Some (added (entry post) timeline), Some TimelineCacheTTL)
            else view (getTimelineKey userID) (redis w)) as Hv1.
  { rewrite Hr1, BatchAddToTimeline_view by done.
    assert (userID ∈ need
            <-> userID ∈ ids /\ uuid_String (post_ID post) ∉ Member <$> timeline) as Hneed.
    { unfold need. rewrite list_elem_of_In, filter_In, <- list_elem_of_In.
      rewrite checkPostInTimeline_spec, negb_true_iff, bool_decide_eq_false. done. }
    destruct (decide (userID ∈ need)) as [Hin | Hout].
    - rewrite decide_True by (by apply Hneed). apply AddToTimeline_view_eq.
    - rewrite decide_False; [done | by rewrite <- Hneed]. }
  assert (String.eqb completed "completed" = false) as Hc' by (by apply String.eqb_neq).
  unfold w2, Recovery.updateDistributionStatus. rewrite Hs1.
  destruct (RedisClient.GetStatus record (redis w)) as [old |] eqn:Hold;
    cbn [fst redis db logged with_redis fmap option_fmap option_map].
  - rewrite Hc'. split; [| split; [| split]].
    + rewrite view_SetStatus by (symmetry; apply status_key_not_timeline). apply Hv1.
    + unfold RedisClient.GetStatus, RedisClient.SetStatus. simpl.
      by rewrite lookup_insert_eq.
    + intros _. unfold RedisClient.SetStatus. simpl. by rewrite lookup_insert_eq.
    + done.
  - split; [done |]. split; [by rewrite Hs1 |]. split; [by intros [? ?] | done].
Qed.

(** Recovering a stalled fan-out inserts the post into the timelines of the
    users it looks at that do not hold it, and leaves every other timeline,
    the holders' included, as it was.  The record filed under the post's id is
    completed, keeping its ids, with a time to live of [24] hours; no record
    is created when there is none.  The database is not touched. *)
Theorem recoverSingleDistribution_delivers (w : World) (key : string) (now : Time)
    (status : DistributionStatus) (post : Post) (author : User) (userID : uuid) :
  stalled uuid_Parse w key now status post author ->
  wf (RedisClient.zget (getTimelineKey userID) (redis w)) ->
  let result := Recovery.recoverSingleDistribution uuid_Parse w key now in
  let targets := recovery_targets uuid_Parse w (Status status) author now in
  let timeline := RedisClient.zget (getTimelineKey userID) (redis w) in
  let record := "distribution_status:" +:+ uuid_String (post_ID post) in
  let completed :=
    if String.eqb (Status status) "influencer_push_started"
    then "influencer_push_completed" else "regular_push_completed" in
  view (getTimelineKey userID) (redis (fst result))
  = (if decide (userID ∈ targets /\ uuid_String (post_ID post) ∉ Member <$> timeline)
     then (Some (added (entry post) timeline), Some TimelineCacheTTL)
     else view (getTimelineKey userID) (redis w))
  /\ RedisClient.GetStatus record (redis (fst result))
     = (fun old => mkStatus (PostID old) (AuthorID old) completed (Unix now))
         <$> RedisClient.GetStatus record (redis w)
  /\ (is_Some (RedisClient.GetStatus record (redis w)) ->
      expires (redis (fst result)) !! record = Some (24 * Hour))
  /\ db (fst result) = db w
  /\ snd result = None.
Proof.
  intros (Hst & Hage & (postID & Hp & Hpost) & (authorID & Ha & Hauthor) & Hs) Hwf.
  intros result targets timeline record completed.
  unfold result, Recovery.recoverSingleDistribution.
  rewrite Hst. destruct (Z.ltb_spec (Unix now - Timestamp status) 300) as [? | _]; [lia |].
  rewrite Hp, Ha, Hpost, Hauthor.
  unfold targets, completed, recovery_targets.
  destruct Hs as [Hs | Hs]; rewrite Hs.
  - change ("influencer_push_started" =? "influencer_push_started")%string with true.
    cbv iota. unfold Recovery.recoverInfluencerDistribution.
    pose proof (GetActiveFollowers_redis uuid_Parse (redis w) (ID author) 1000 now) as Hr.
    destruct (Activity.GetActiveFollowers _ _ _ _ _) as [r followers].
    simpl in Hr. subst r. cbn [fst snd].
    set (w0 := with_redis (fun _ => redis w) w).
    assert (redis w0 = redis w) as Hr0 by done.
    assert (db w0 = db w) as Hd0 by done.
    rewrite <- Hr0, <- Hd0. rewrite <- Hr0 in Hwf.
    split; [| split; [| split; [| split; [| done]]]];
      by apply (recovery_writes w0 post followers "influencer_push_completed" now userID).
  - change ("regular_push_started" =? "influencer_push_started")%string with false.
    change ("regular_push_started" =? "regular_push_started")%string with true.
    cbv iota. unfold Recovery.recoverRegularDistribution. cbn [fst snd].
    split; [| split; [| split; [| split; [| done]]]];
      by apply (recovery_writes w post _ "regular_push_completed" now userID).
Qed.

(** Unless the record under the key is a stalled one, looking at it writes
    no timeline and no status, and does not touch the database: at most the
    key itself is deleted. *)
Theorem recoverSingleDistribution_guards (w : World) (key : string) (now : Time) :
  (forall status post author, ~ stalled uuid_Parse w key now status post author) ->
  let result := Recovery.recoverSingleDistribution uuid_Parse w key now in
  db (fst result) = db w
  /\ writes (fst result) = writes w
  /\ (forall key', key' <> key ->
        view key' (redis (fst result)) = view key' (redis w)
        /\ RedisClient.GetStatus key' (redis (fst result))
           = RedisClient.GetStatus key' (redis w)).
Proof.
  intros Hno result. unfold result, Recovery.recoverSingleDistribution.
  assert (forall key', key' <> key ->
            view key' (RedisClient.Delete key (redis w)) = view key' (redis w)
            /\ RedisClient.GetStatus key' (RedisClient.Delete key (redis w))
               = RedisClient.GetStatus key' (redis w)) as Hdel.
  { intros key' Hne. split; [by apply view_Delete_ne |].
    unfold RedisClient.GetStatus, RedisClient.Delete. simpl.
    by rewrite lookup_delete_ne. }
  destruct (RedisClient.GetStatus key (redis w)) as [status |] eqn:Hst; [| done].
  destruct (Z.ltb_spec (Unix now - Timestamp status) 300) as [? | Hage]; [done |].
  destruct (uuid_Parse (PostID status)) as [postID |] eqn:Hp; [| done].
  destruct (uuid_Parse (AuthorID status)) as [authorID |] eqn:Ha; [| done].
  destruct (PostRepository.GetByID (db w) postID) as [post |] eqn:Hpost; [| done].
  destruct (UserRepository.GetByID (db w) authorID) as [author |] eqn:Hauthor; [| done].
  destruct (String.eqb_spec (Status status) "influencer_push_started") as [Hs | _].
  { exfalso. apply (Hno status post author). unfold stalled. eauto 10. }
  destruct (String.eqb_spec (Status status) "regular_push_started") as [Hs | _].
  { exfalso. apply (Hno status post author). unfold stalled. eauto 10. }
  done.
Qed.

(** The record that the fan-out of an author above the push threshold files
    already says completed.  A recovery that looks at it leaves everything as
    it is while the record is younger than [300] seconds, and afterwards
    deletes the record without writing a timeline. *)
Theorem completed_record_is_dropped (w : World) (post : Post) (author : User)
    (now now' : Time) :
  PushThreshold config < Followers author ->
  uuid_Parse (uuid_String (post_ID post)) = Some (post_ID post) ->
  uuid_Parse (uuid_String (ID author)) = Some (ID author) ->
  let w1 := fst (distributePostOptimized uuid_Parse config w post author now) in
  let record := "distribution_status:" +:+ uuid_String (post_ID post) in
  let result := Recovery.recoverSingleDistribution uuid_Parse w1 record now' in
  RedisClient.GetStatus record (redis w1)
  = Some (mkStatus (uuid_String (post_ID post)) (uuid_String (ID author))
                   "influencer_push_completed" (Unix now))
  /\ expires (redis w1) !! record = Some (24 * Hour)
  /\ (Unix now' - Unix now < 300 -> result = (w1, None))
  /\ (300 <= Unix now' - Unix now ->
      snd result = None
      /\ RedisClient.GetStatus record (redis (fst result)) = None
      /\ db (fst result) = db w1
      /\ forall userID,
           view (getTimelineKey userID) (redis (fst result))
           = view (getTimelineKey userID) (redis w1)).
Proof.
  intros Hinf Hp Ha w1 record result.
  assert (RedisClient.GetStatus record (redis w1)
          = Some (mkStatus (uuid_String (post_ID post)) (uuid_String (ID author))
                           "influencer_push_completed" (Unix now))
          /\ expires (redis w1) !! record = Some (24 * Hour)) as [Hst Hex].
  { unfold w1, distributePostOptimized.
    destruct (Z.ltb_spec (PushThreshold config) (Followers author)) as [_ | ?]; [| lia].
    unfold distributeForInfluencer.
    destruct (Activity.GetActiveFollowers _ _ _ _ _) as [r followers].
    cbn [fst]. unfold recordDistributionStatus, Publish. cbn [redis logged with_redis].
    unfold RedisClient.GetStatus, RedisClient.SetStatus. cbn [statuses expires].
    by rewrite !lookup_insert_eq. }
  split; [done |]. split; [done |].
  unfold result, Recovery.recoverSingleDistribution. rewrite Hst. cbn [Timestamp].
  split.
  - intros Hyoung.
    by destruct (Z.ltb_spec (Unix now' - Unix now) 300) as [_ | ?]; [| lia].
  - intros Hold.
    destruct (Z.ltb_spec (Unix now' - Unix now) 300) as [? | _]; [lia |].
    cbn [PostID AuthorID Status]. rewrite Hp, Ha.
    assert (forall w2 : World,
              w2 = with_redis (RedisClient.Delete record) w1 ->
              RedisClient.GetStatus record (redis w2) = None
              /\ db w2 = db w1
              /\ forall userID,
                   view (getTimelineKey userID) (redis w2)
                   = view (getTimelineKey userID) (redis w1)) as Hdel.
    { intros w2 ->. cbn [redis db with_redis]. split; [| split; [done |]].
      - unfold RedisClient.GetStatus, RedisClient.Delete. simpl.
        by rewrite lookup_delete_eq.
      - intros userID. apply view_Delete_ne. symmetry. apply status_key_not_timeline. }
    destruct (PostRepository.GetByID (db w1) (post_ID post)) as [post' |];
      [| split; [done | by apply Hdel]].
    destruct (UserRepository.GetByID (db w1) (ID author)) as [author' |];
      [| split; [done | by apply Hdel]].
    change ("influencer_push_completed" =? "influencer_push_started")%string with false.
    change ("influencer_push_completed" =? "regular_push_started")%string with false.
    cbv iota. split; [done | by apply Hdel].
Qed.

End FanoutDelivery.

Section FanoutWitnesses.
Import SortedSet TimelineCache Distributor Fanout Examples.


Lemma recoverSingleDistribution_delivers_witness :
  let status := mkStatus "p1" "a" "regular_push_started" 0 in
  stalled parse_any stalled_world "distribution_status:p1" (1000 * Second) status
    post_p1 author_a
  /\ wf (RedisClient.zget (getTimelineKey "f") (redis stalled_world))
  /\ view (getTimelineKey "f")
       (redis (fst (Recovery.recoverSingleDistribution parse_any stalled_world
                      "distribution_status:p1" (1000 * Second))))
     = (Some [mkZ 100 "p1"], Some TimelineCacheTTL).
Proof.
  intros status.
  assert (stalled parse_any stalled_world "distribution_status:p1" (1000 * Second) status
            post_p1 author_a) as Hs.
  { unfold stalled. split; [reflexivity |]. split; [vm_compute; discriminate |].
    split; [exists "p1"; split; reflexivity |].
    split; [exists "a"; split; reflexivity |]. right. reflexivity. }
  assert (wf (RedisClient.zget (getTimelineKey "f") (redis stalled_world))) as H
    by by_evaluation.
  split; [exact Hs |]. split; [exact H |].
  destruct (recoverSingleDistribution_delivers parse_any stalled_world
              "distribution_status:p1" (1000 * Second) status post_p1 author_a "f" Hs H)
    as [Hv _].
  rewrite Hv. vm_compute. reflexivity.
Defined.

Lemma recoverSingleDistribution_guards_witness :
  (forall status post author,
     ~ stalled parse_any fresh_world "distribution_status:p1" (1000 * Second)
         status post author)
  /\ writes (fst (Recovery.recoverSingleDistribution parse_any fresh_world
                    "distribution_status:p1" (1000 * Second)))
     = writes fresh_world.
Proof.
  assert (forall status post author,
            ~ stalled parse_any fresh_world "distribution_status:p1" (1000 * Second)
                status post author) as H.
  { intros status post author [Hst _]. vm_compute in Hst. discriminate Hst. }
  split; [exact H |].
  exact (proj1 (proj2 (recoverSingleDistribution_guards parse_any fresh_world
                         "distribution_status:p1" (1000 * Second) H))).
Defined.

Lemma completed_record_is_dropped_witness :
  PushThreshold config < Followers author_star
  /\ parse_any (uuid_String (post_ID post_p2)) = Some (post_ID post_p2)
  /\ parse_any (uuid_String (ID author_star)) = Some (ID author_star)
  /\ expires (redis (fst (distributePostOptimized parse_any config fresh_world post_p2
                            author_star (200 * Second))))
       !! "distribution_status:p2" = Some (24 * Hour).
Proof.
  assert (PushThreshold config < Followers author_star) as H by (vm_compute; reflexivity).
  split; [exact H |]. split; [reflexivity |]. split; [reflexivity |].
  exact (proj1 (proj2 (completed_record_is_dropped parse_any config fresh_world post_p2
                         author_star (200 * Second) (1000 * Second) H eq_refl eq_refl))).
Defined.

End FanoutWitnesses.

(** * Reading posts for a page of the timeline *)

Section PostsOfTimeline.
Import TimelineCache OptimizedFeed.
Variable uuid_Parse : string -> option uuid.

Lemma omap_pointwise {A B} (f g : A -> option B) (l : list A) :
  (forall x, x ∈ l -> f x = g x) -> omap f l = omap g l.
Proof.
  induction l as [| x l IH]; intros H; [done |]. cbn.
  rewrite (H x) by apply list_elem_of_here.
  rewrite IH; [done |]. intros y Hy. by apply H, list_elem_of_further.
Qed.

Lemma omap_none {A B} (l : list A) : omap (fun _ : A => @None B) l = [].
Proof. by induction l. Qed.

Lemma omap_nil_inv {A B} (f : A -> option B) (l : list A) (x : A) :
  omap f l = [] -> x ∈ l -> f x = None.
Proof.
  induction l as [| y l IH]; intros H Hx; [by apply elem_of_nil in Hx |].
  cbn in H. destruct (f y) eqn:E; [done |].
  apply elem_of_cons in Hx as [-> | Hx]; [done | by apply IH].
Qed.

(** What the map [postMap] holds after the loop over the fetched posts. *)
Lemma postMap_holds (Q : uuid -> Post -> Prop) (ps : list Post) (m : gmap uuid Post) :
  (forall p, p ∈ ps -> Q (post_ID p) p) ->
  (forall k v, m !! k = Some v -> Q k v) ->
  forall k v,
    fold_left (fun postMap post => <[post_ID post := post]> postMap) ps m !! k = Some v ->
    Q k v.
Proof.
  revert m. induction ps as [| p ps IH]; intros m Hps Hm k v; simpl; [apply Hm |].
  apply IH.
  - intros q Hq. by apply Hps, list_elem_of_further.
  - intros k' v' H. apply lookup_insert_Some in H as [[<- <-] | [_ H]].
    + apply Hps, list_elem_of_here.
    + by apply Hm.
Qed.

Lemma postMap_keeps (ps : list Post) (m : gmap uuid Post) (k : uuid) :
  is_Some (m !! k) ->
  is_Some (fold_left (fun postMap post => <[post_ID post := post]> postMap) ps m !! k).
Proof.
  revert m. induction ps as [| p ps IH]; intros m H; simpl; [done |].
  apply IH. destruct (decide (post_ID p = k)) as [<- | Hne].
  - rewrite lookup_insert_eq. eauto.
  - by rewrite lookup_insert_ne.
Qed.

Lemma postMap_covers (ps : list Post) (m : gmap uuid Post) (p : Post) :
  p ∈ ps ->
  is_Some (fold_left (fun postMap post => <[post_ID post := post]> postMap) ps m
             !! post_ID p).
Proof.
  revert m. induction ps as [| q ps IH]; intros m H; [by apply elem_of_nil in H |].
  simpl. apply elem_of_cons in H as [<- | H]; [| by apply IH].
  apply postMap_keeps. rewrite lookup_insert_eq. eauto.
Qed.

Lemma GetByIDs_elem_of (d : DB) (postIDs : list uuid) (p : Post) :
  p ∈ PostQueries.GetByIDs d postIDs
  <-> exists id, posts d !! id = Some p /\ id ∈ postIDs /\ IsDeleted p = false.
Proof.
  unfold PostQueries.GetByIDs. rewrite list_elem_of_fmap. split.
  - intros [[id q] [-> H]]. exists id.
    apply list_elem_of_In, filter_In in H as [H1 H2]. simpl in *.
    apply list_elem_of_In, elem_of_map_to_list in H1.
    apply andb_true_iff in H2 as [H2 H3]. apply bool_decide_eq_true in H2.
    apply negb_true_iff in H3. done.
  - intros [id (H1 & H2 & H3)]. exists (id, p). split; [done |].
    apply list_elem_of_In, filter_In. split.
    + by apply list_elem_of_In, elem_of_map_to_list.
    + simpl. rewrite H3, bool_decide_eq_true_2 by done. done.
Qed.

(** The posts of a page are read in the order of the timeline: each item
    whose id parses and names a stored post that is not deleted gives that
    post, every other item is skipped.  The order in which the database
    returns the rows does not matter, provided each post is stored under its
    own id. *)
Theorem getPostsByIDs_in_timeline_order (d : DB) (items : list TimelineItem) :
  map_Forall (fun id post => post_ID post = id) (posts d) ->
  getPostsByIDs uuid_Parse d items
  = omap (fun item => uuid_Parse (item_PostID item) ≫= PostRepository.GetByID d) items.
Proof.
  intros Hkey. unfold getPostsByIDs.
  set (postIDs := omap (fun item => uuid_Parse (item_PostID item)) items).
  destruct postIDs as [| id0 rest] eqn:Hids.
  - symmetry. rewrite (omap_pointwise _ (fun _ => None)).
    + by rewrite omap_none.
    + intros item Hitem.
      by rewrite (omap_nil_inv _ items item Hids Hitem).
  - rewrite <- Hids. clear id0 rest Hids.
    set (fetched := PostQueries.GetByIDs d postIDs).
    set (postMap := fold_left _ fetched ∅).
    apply omap_pointwise. intros item Hitem.
    destruct (uuid_Parse (item_PostID item)) as [postID |] eqn:Hparse; [| done].
    simpl. unfold PostRepository.GetByID.
    assert (postID ∈ postIDs) as Hin.
    { unfold postIDs. apply list_elem_of_omap. eauto. }
    destruct (postMap !! postID) as [post |] eqn:Hmap.
    + apply (postMap_holds
               (fun k v => posts d !! k = Some v /\ IsDeleted v = false) fetched ∅)
        in Hmap as [Hstored Hlive].
      * by rewrite Hstored.
      * intros p Hp. apply GetByIDs_elem_of in Hp as [id (H1 & _ & H3)].
        by rewrite (Hkey id p H1).
      * intros k v H. by rewrite lookup_empty in H.
    + destruct (posts d !! postID) as [post |] eqn:Hstored; [| done].
      destruct (IsDeleted post) eqn:Hlive; [done |].
      assert (post ∈ fetched) as Hfetched.
      { apply GetByIDs_elem_of. eauto. }
      apply (postMap_covers fetched ∅) in Hfetched.
      rewrite (Hkey postID post Hstored) in Hfetched. fold postMap in Hfetched.
      rewrite Hmap in Hfetched. by destruct Hfetched.
Qed.

End PostsOfTimeline.

Lemma getPostsByIDs_in_timeline_order_witness :
  map_Forall (fun id post => post_ID post = id) (posts Examples.database)
  /\ OptimizedFeed.getPostsByIDs Examples.parse_any Examples.database
       [TimelineCache.mkItem "p2" 200 (200 * Second);
        TimelineCache.mkItem "gone" 150 (150 * Second);
        TimelineCache.mkItem "p1" 100 (100 * Second)]
     = [Examples.post_p2; Examples.post_p1].
Proof.
  assert (map_Forall (fun id post => post_ID post = id) (posts Examples.database)) as H.
  { apply map_Forall_to_list. vm_compute. repeat constructor. }
  split; [exact H |].
  rewrite (getPostsByIDs_in_timeline_order Examples.parse_any Examples.database _ H).
  reflexivity.
Defined.

(** * The fan-out into the [timelines] table *)

Section FeedRows.
Import TimelineRows FeedService Rows.
Variable uuid_Parse : string -> option uuid.
Variable unique_user_post : bool.
Variable config : FeedConfig.

(** The two modes run the same statements and differ in the number of
    followers they read. *)
Lemma distributePost_pushPost (w : World) (post : Post) (author : User) :
  distributePost unique_user_post config w post author
  = pushPost unique_user_post
      (if Followers author <=? PushThreshold config then config
       else mkFeedConfig (PushThreshold config) 1000)
      w post author.
Proof. unfold distributePost. by destruct (Followers author <=? PushThreshold config). Qed.

(** The outcome of the two insertions of a fan-out. *)
Lemma distributePost_eq (w : World) (post : Post) (author : User) :
  let rows := row post <$> followers config w author in
  distributePost unique_user_post config w post author
  = if negb (bool_decide (rows = [])) && negb (accepts unique_user_post (db w) rows)
    then (w, Some "failed to create timelines")
    else
      let d := mkDB (users (db w)) (posts (db w)) (follows (db w))
                    (timelines (db w) ++ rows) in
      (if accepts unique_user_post d [row post (ID author)]
       then with_db (fun _ => mkDB (users (db w)) (posts (db w)) (follows (db w))
                                   (timelines (db w) ++ rows ++ [row post (ID author)])) w
       else with_db (fun _ => d) w,
       None).
Proof.
  intros rows. rewrite distributePost_pushPost. unfold pushPost.
  set (c := if Followers author <=? PushThreshold config then config
            else mkFeedConfig (PushThreshold config) 1000).
  assert ((fun follower => mkTimeline (ID follower) (post_ID post) (post_Score post)
                             (CreatedAt post))
            <$> FollowRepository.GetFollowers (db w) (ID author) 0 (MaxFeedSize c)
          = rows) as ->.
  { unfold rows, followers. rewrite <- list_fmap_compose.
    unfold c. by destruct (Followers author <=? PushThreshold config). }
  cbv zeta. clearbody rows. destruct rows as [| t rows'].
  - simpl. rewrite app_nil_r.
    assert (mkDB (users (db w)) (posts (db w)) (follows (db w)) (timelines (db w)) = db w)
      as Hd by (by destruct (db w)).
    unfold Create. cbn [db with_db]. rewrite Hd.
    destruct (accepts unique_user_post (db w) _); [| by destruct w].
    done.
  - assert ((0 <? Z.of_nat (length (t :: rows'))) = true) as -> by done.
    rewrite bool_decide_eq_false_2 by done. simpl negb. rewrite andb_true_l.
    unfold CreateBatch. destruct (accepts unique_user_post (db w) (t :: rows')); [| done].
    simpl negb. cbv iota. unfold Create. cbn [db with_db users posts follows timelines].
    destruct (accepts unique_user_post _ _); [| done].
    cbn [db with_db]. by rewrite <- app_assoc.
Qed.

Lemma accepts_frame (d d' : DB) (rows : list Timeline) :
  users d' = users d -> posts d' = posts d -> timelines d' = timelines d ->
  accepts unique_user_post d' rows = accepts unique_user_post d rows.
Proof.
  intros Hu Hp Ht. unfold accepts, references, present. by rewrite Hu, Hp, Ht.
Qed.

Lemma accepts_held (d : DB) (rows : list Timeline) (t : Timeline) :
  unique_user_post = true -> t ∈ rows -> pair t ∈ pair <$> timelines d ->
  accepts unique_user_post d rows = false.
Proof.
  intros -> Ht Hheld. unfold accepts. simpl.
  apply andb_false_iff. right. apply andb_false_iff. right.
  apply not_true_iff_false. intros Hall. rewrite forallb_forall in Hall.
  specialize (Hall t ltac:(by apply list_elem_of_In)).
  apply negb_true_iff in Hall. unfold present in Hall.
  by apply bool_decide_eq_false in Hall.
Qed.

Lemma accepts_NoDup (d : DB) (rows : list Timeline) :
  unique_user_post = true -> accepts unique_user_post d rows = true ->
  NoDup (pair <$> timelines d) -> NoDup (pair <$> (timelines d ++ rows)).
Proof.
  intros -> Hacc Hn. unfold accepts in Hacc. simpl in Hacc.
  apply andb_true_iff in Hacc as [_ Hacc]. apply andb_true_iff in Hacc as [Hrows Hnew].
  apply bool_decide_eq_true in Hrows. rewrite forallb_forall in Hnew.
  rewrite fmap_app. apply NoDup_app. split; [done |]. split; [| done].
  intros p Hp Hp'. apply list_elem_of_fmap in Hp' as (t & -> & Ht).
  specialize (Hnew t ltac:(by apply list_elem_of_In)).
  apply negb_true_iff in Hnew. unfold present in Hnew.
  by apply bool_decide_eq_false in Hnew.
Qed.

Lemma accepts_fresh (d : DB) (rows : list Timeline) :
  forallb (references d) rows = true ->
  NoDup (pair <$> rows) ->
  (forall t, t ∈ rows -> pair t ∉ pair <$> timelines d) ->
  accepts unique_user_post d rows = true.
Proof.
  intros Hrefs Hn Hnew. unfold accepts. rewrite Hrefs. simpl.
  apply orb_true_iff. right. apply andb_true_iff. split.
  - by apply bool_decide_eq_true.
  - apply forallb_forall. intros t Ht. apply negb_true_iff. unfold present.
    apply bool_decide_eq_false. by apply Hnew, list_elem_of_In.
Qed.

Lemma accepts_plain (d : DB) (rows : list Timeline) :
  unique_user_post = false ->
  accepts unique_user_post d rows = forallb (references d) rows.
Proof. intros ->. unfold accepts. simpl. by rewrite andb_true_r. Qed.

Lemma followers_frame (w w' : World) (author : User) :
  users (db w') = users (db w) -> follows (db w') = follows (db w) ->
  followers config w' author = followers config w author.
Proof.
  intros Hu Hf. unfold followers, FollowRepository.GetFollowers. by rewrite Hu, Hf.
Qed.

Lemma recipients_followers (w : World) (author : User) :
  recipients config w author = followers config w author ++ [ID author].
Proof. done. Qed.

Lemma pair_row (post : Post) (userIDs : list uuid) :
  pair <$> (row post <$> userIDs) = (fun u => (u, post_ID post)) <$> userIDs.
Proof. by rewrite <- list_fmap_compose. Qed.

(** What a fan-out leaves of the world: only rows of the post are added to
    the [timelines] table. *)
Lemma distributePost_frame (w : World) (post : Post) (author : User) :
  let w1 := fst (distributePost unique_user_post config w post author) in
  users (db w1) = users (db w) /\ posts (db w1) = posts (db w)
  /\ follows (db w1) = follows (db w) /\ redis w1 = redis w /\ bus w1 = bus w
  /\ exists filed,
       timelines (db w1) = timelines (db w) ++ filed
       /\ filed ⊆ row post <$> recipients config w author.
Proof.
  cbv zeta. rewrite distributePost_eq, recipients_followers, fmap_app. cbv zeta.
  set (rows := row post <$> followers config w author).
  destruct (negb (bool_decide (rows = [])) && negb (accepts unique_user_post (db w) rows)).
  - cbn [fst]. repeat split. exists []. split; [by rewrite app_nil_r |].
    intros x Hx. by apply elem_of_nil in Hx.
  - cbn [fst]. destruct (accepts unique_user_post _ [row post (ID author)]);
      cbn [db with_db users posts follows timelines redis bus]; repeat split.
    + by exists (rows ++ [row post (ID author)]).
    + exists rows. split; [done |]. intros x Hx. apply elem_of_app. by left.
Qed.

Lemma without_rows (post : Post) (userIDs : list uuid) :
  without (post_ID post) (row post <$> userIDs) = [].
Proof.
  induction userIDs as [| u us IH]; [done |]. unfold without in *. simpl.
  by rewrite String.eqb_refl.
Qed.

Lemma without_filed (post : Post) (userIDs : list uuid) (filed : list Timeline) :
  filed ⊆ row post <$> userIDs -> without (post_ID post) filed = [].
Proof.
  intros Hsub. induction filed as [| t filed IH]; [done |].
  assert (t ∈ row post <$> userIDs) as Ht by (apply Hsub, list_elem_of_here).
  apply list_elem_of_fmap in Ht as (u & -> & _).
  unfold without in *. simpl. rewrite String.eqb_refl. simpl.
  apply IH. intros x Hx. by apply Hsub, list_elem_of_further.
Qed.

(** The two runs of a fan-out in closed form, over the rows [rows] of the
    followers and the row [A] of the author. *)
Lemma distributePost_twice (w : World) (post : Post) (author : User) :
  let rows := row post <$> followers config w author in
  let A := row post (ID author) in
  let first := distributePost unique_user_post config w post author in
  let second := distributePost unique_user_post config (fst first) post author in
  let table := timelines (db w) in
  let table1 := timelines (db (fst first)) in
  let at_ := fun rows' => mkDB (users (db w)) (posts (db w)) (follows (db w)) rows' in
  first
  = (if negb (bool_decide (rows = [])) && negb (accepts unique_user_post (db w) rows)
     then (w, Some "failed to create timelines")
     else (if accepts unique_user_post (at_ (table ++ rows)) [A]
           then with_db (fun _ => at_ (table ++ rows ++ [A])) w
           else with_db (fun _ => at_ (table ++ rows)) w, None))
  /\ second
     = (if negb (bool_decide (rows = []))
           && negb (accepts unique_user_post (at_ table1) rows)
        then (fst first, Some "failed to create timelines")
        else (if accepts unique_user_post (at_ (table1 ++ rows)) [A]
              then with_db (fun _ => at_ (table1 ++ rows ++ [A])) (fst first)
              else with_db (fun _ => at_ (table1 ++ rows)) (fst first), None)).
Proof.
  cbv zeta.
  pose proof (distributePost_frame w post author) as (Hu & Hp & Hf & _ & _ & _).
  split; [apply distributePost_eq |].
  rewrite (distributePost_eq (fst _)). cbv zeta.
  rewrite (followers_frame w _ author Hu Hf), Hu, Hp, Hf.
  by rewrite (accepts_frame (mkDB (users (db w)) (posts (db w)) (follows (db w))
                               (timelines (db (fst (distributePost unique_user_post config
                                                      w post author)))))
                (db (fst (distributePost unique_user_post config w post author)))).
Qed.

Lemma distributePost_unique (w : World) (post : Post) (author : User) :
  unique_user_post = true ->
  let first := distributePost unique_user_post config w post author in
  let second := distributePost unique_user_post config (fst first) post author in
  (NoDup (pair <$> timelines (db w)) -> NoDup (pair <$> timelines (db (fst first))))
  /\ timelines (db (fst second)) = timelines (db (fst first)).
Proof.
  intros Huniq first second.
  destruct (distributePost_twice w post author) as [E1 E2]. cbv zeta in E1, E2.
  fold first in E1, E2. fold second in E2.
  generalize dependent (row post (ID author)). intros A.
  generalize dependent (row post <$> followers config w author). intros rows.
  destruct rows as [| t rows'].
  - rewrite (bool_decide_eq_true_2 ([] = [])) by done. simpl. rewrite !app_nil_r.
    intros E1 E2.
    destruct (accepts unique_user_post _ [A]) eqn:HA in E1.
    + assert (timelines (db (fst first)) = timelines (db w) ++ [A]) as Ht by (by rewrite E1).
      split.
      * intros Hn. rewrite Ht. by apply (accepts_NoDup _ [A] Huniq HA).
      * rewrite Ht in E2. rewrite (accepts_held _ [A] A Huniq) in E2.
        -- rewrite E2. by rewrite Ht.
        -- apply list_elem_of_here.
        -- cbn [timelines]. rewrite fmap_app. apply elem_of_app. right.
           apply list_elem_of_here.
    + assert (timelines (db (fst first)) = timelines (db w)) as Ht by (by rewrite E1).
      split; [by rewrite Ht |].
      rewrite Ht, HA in E2. rewrite E2. by rewrite Ht.
  - rewrite (bool_decide_eq_false_2 (t :: rows' = [])) by done. simpl negb.
    rewrite !andb_true_l. intros E1 E2.
    destruct (accepts unique_user_post (db w) (t :: rows')) eqn:Hacc; simpl negb in E1;
      cbv iota in E1.
    + pose proof (accepts_NoDup _ _ Huniq Hacc) as Hn1.
      assert (pair t ∈ pair <$> timelines (db (fst first))) as Hheld.
      { rewrite E1. destruct (accepts unique_user_post _ [A]);
          cbn [fst db with_db timelines]; rewrite !fmap_app;
          apply elem_of_app; right; [apply elem_of_app; left |];
          apply list_elem_of_fmap_2, list_elem_of_here. }
      split.
      * intros Hn. specialize (Hn1 Hn). rewrite E1.
        destruct (accepts unique_user_post _ [A]) eqn:HA;
          cbn [fst db with_db timelines]; [| done].
        rewrite app_assoc. by apply (accepts_NoDup _ [A] Huniq HA).
      * rewrite (accepts_held _ (t :: rows') t Huniq) in E2;
          [| apply list_elem_of_here | done].
        simpl negb in E2. cbv iota in E2. by rewrite E2.
    + assert (fst first = w) as Hw by (by rewrite E1).
      split; [by rewrite Hw |].
      rewrite Hw in E2.
      rewrite (accepts_frame (db w)) in E2 by done.
      rewrite Hacc in E2. simpl negb in E2. cbv iota in E2. rewrite E2. by rewrite Hw.
Qed.

Lemma references_frame (d d' : DB) (rows : list Timeline) :
  users d' = users d -> posts d' = posts d ->
  forallb (references d') rows = forallb (references d) rows.
Proof.
  intros Hu Hp. induction rows as [| t rows IH]; [done |]. simpl. rewrite IH.
  f_equal. unfold references. by rewrite Hu, Hp.
Qed.

Lemma distributePost_plain (w : World) (post : Post) (author : User) :
  unique_user_post = false ->
  let new := row post <$> recipients config w author in
  let first := distributePost unique_user_post config w post author in
  let second := distributePost unique_user_post config (fst first) post author in
  forallb (references (db w)) new = true ->
  timelines (db (fst first)) = timelines (db w) ++ new /\ snd first = None
  /\ timelines (db (fst second)) = timelines (db w) ++ new ++ new /\ snd second = None.
Proof.
  intros Hplain new first second Hrefs.
  destruct (distributePost_twice w post author) as [E1 E2]. cbv zeta in E1, E2.
  fold first in E1, E2. fold second in E2.
  unfold new in *. rewrite recipients_followers, fmap_app in *.
  rewrite forallb_app in Hrefs. apply andb_true_iff in Hrefs as [Hrefs HrefA].
  change (row post <$> [ID author]) with [row post (ID author)] in *.
  remember (row post (ID author)) as A eqn:EA. clear EA.
  remember (row post <$> followers config w author) as rows eqn:Erows. clear Erows.
  rewrite !accepts_plain in E1 by done. rewrite !accepts_plain in E2 by done.
  rewrite (references_frame (db w) (mkDB _ _ _ _) [A]) in E1 by done.
  rewrite (references_frame (db w) (mkDB _ _ _ _) rows) in E2 by done.
  rewrite (references_frame (db w) (mkDB _ _ _ _) [A]) in E2 by done.
  rewrite Hrefs, HrefA in E1, E2. rewrite andb_false_r in E1, E2. cbv iota in E1, E2.
  assert (timelines (db (fst first)) = timelines (db w) ++ rows ++ [A]) as Ht
    by (by rewrite E1).
  split; [done |]. split; [by rewrite E1 |].
  rewrite E2. cbn [fst snd db with_db timelines]. rewrite Ht.
  split; [| done]. by rewrite <- !app_assoc.
Qed.

Lemma distributePost_fresh (w : World) (post : Post) (author : User) :
  unique_user_post = true ->
  let targets := recipients config w author in
  let new := row post <$> targets in
  let first := distributePost unique_user_post config w post author in
  let second := distributePost unique_user_post config (fst first) post author in
  forallb (references (db w)) new = true ->
  NoDup targets ->
  (forall userID, userID ∈ targets ->
     (userID, post_ID post) ∉ pair <$> timelines (db w)) ->
  timelines (db (fst first)) = timelines (db w) ++ new /\ snd first = None
  /\ snd second
     = if decide (targets = [ID author]) then None
       else Some "failed to create timelines".
Proof.
  intros Huniq targets new first second Hrefs Hn Hfresh.
  destruct (distributePost_twice w post author) as [E1 E2]. cbv zeta in E1, E2.
  fold first in E1, E2. fold second in E2.
  unfold new, targets in *. rewrite recipients_followers in *. rewrite fmap_app in *.
  rewrite forallb_app in Hrefs. apply andb_true_iff in Hrefs as [Hrefs HrefA].
  apply NoDup_app in Hn as (Hnfs & Hdisj & _).
  set (fs := followers config w author) in *.
  assert (accepts unique_user_post (db w) (row post <$> fs) = true) as Hacc.
  { apply accepts_fresh; [done | |].
    - rewrite pair_row. apply (NoDup_fmap_2 _). done.
    - intros t Ht. apply list_elem_of_fmap in Ht as (u & -> & Hu').
      apply Hfresh. apply elem_of_app. by left. }
  assert (accepts unique_user_post
            (mkDB (users (db w)) (posts (db w)) (follows (db w))
                  (timelines (db w) ++ (row post <$> fs)))
            [row post (ID author)] = true) as HA.
  { apply accepts_fresh.
    - by rewrite (references_frame (db w)).
    - apply NoDup_singleton.
    - intros t Ht. apply list_elem_of_singleton in Ht as ->.
      cbn [timelines]. rewrite fmap_app. intros Hin.
      apply elem_of_app in Hin as [Hin | Hin].
      + revert Hin. apply Hfresh. apply elem_of_app. right. apply list_elem_of_here.
      + rewrite pair_row in Hin.
        apply list_elem_of_fmap in Hin as (u & Hpair & Hu').
        injection Hpair as Hau. apply (Hdisj u Hu'). rewrite <- Hau.
        apply list_elem_of_here. }
  rewrite Hacc, HA in E1. rewrite andb_false_r in E1. cbv iota in E1.
  assert (timelines (db (fst first))
          = timelines (db w) ++ (row post <$> fs) ++ [row post (ID author)]) as Ht
    by (by rewrite E1).
  split; [done |]. split; [by rewrite E1 |].
  destruct fs as [| f fs'] eqn:Efs.
  - rewrite decide_True by done.
    rewrite (bool_decide_eq_true_2 (row post <$> [] = [])) in E2 by done.
    simpl in E2. rewrite E2. by destruct (accepts unique_user_post _ _).
  - rewrite decide_False by (intros H; apply (f_equal length) in H;
                            rewrite length_app in H; simpl in H; lia).
    rewrite (bool_decide_eq_false_2 (row post <$> f :: fs' = [])) in E2 by done.
    rewrite (accepts_held _ _ (row post f) Huniq) in E2.
    + simpl in E2. by rewrite E2.
    + apply list_elem_of_here.
    + cbn [timelines]. rewrite Ht, !fmap_app. apply elem_of_app. right.
      apply elem_of_app. left. apply list_elem_of_fmap_2, list_elem_of_here.
Qed.

(** The fan-out of the first feed service into the [timelines] table, read
    under both schemas.  It changes nothing but the table, to which it only
    adds rows of the post for its recipients.  When the rows refer to stored
    users and a stored post: without the unique constraint every run appends
    one row per follower read and one for the author, so a second run files
    the same rows once more; with the constraint, a first run for recipients
    that hold no row of the post files these rows, and the second run is
    refused, with the error [failed to create timelines] when there is a
    follower.  Under the constraint a second run never changes the table,
    and the table keeps holding each pair once. *)
Theorem distributePost_files_rows (w : World) (post : Post) (author : User) :
  let targets := recipients config w author in
  let new := row post <$> targets in
  let first := distributePost unique_user_post config w post author in
  let second := distributePost unique_user_post config (fst first) post author in
  let table := timelines (db w) in
  (users (db (fst first)) = users (db w) /\ posts (db (fst first)) = posts (db w)
   /\ follows (db (fst first)) = follows (db w) /\ redis (fst first) = redis w)
  /\ (exists filed, timelines (db (fst first)) = table ++ filed /\ filed ⊆ new)
  /\ (unique_user_post = true ->
      (NoDup (pair <$> table) -> NoDup (pair <$> timelines (db (fst first))))
      /\ timelines (db (fst second)) = timelines (db (fst first)))
  /\ (forallb (references (db w)) new = true ->
      (unique_user_post = false ->
       timelines (db (fst first)) = table ++ new /\ snd first = None
       /\ timelines (db (fst second)) = table ++ new ++ new /\ snd second = None)
      /\ (unique_user_post = true ->
          NoDup targets ->
          (forall userID, userID ∈ targets -> (userID, post_ID post) ∉ pair <$> table) ->
          timelines (db (fst first)) = table ++ new /\ snd first = None
          /\ snd second
             = if decide (targets = [ID author]) then None
               else Some "failed to create timelines")).
Proof.
  intros targets new first second table.
  pose proof (distributePost_frame w post author) as (Hu & Hp & Hf & Hr & _ & Hfiled).
  split; [done |]. split; [exact Hfiled |].
  split; [intros Huniq; by apply distributePost_unique |].
  intros Hrefs. split.
  - intros Hplain. by apply distributePost_plain.
  - intros Huniq Hn Hfresh. by apply distributePost_fresh.
Qed.

(** Deleting a post after its fan-out removes every row that files it, the
    rows of the fan-out and older ones; the rows of other posts stay, in their
    order.  The post can no longer be read, the other posts are read as
    before, and one [post_deleted] event is published. *)
Theorem DeletePost_after_distributePost (w : World) (post : Post) (author : User)
    (userID postID : string) (now : Time) :
  uuid_Parse postID = Some (post_ID post) ->
  PostRepository.GetByID (db w) (post_ID post) = Some post ->
  userID = uuid_String (post_UserID post) ->
  let w1 := fst (distributePost unique_user_post config w post author) in
  let result := Feed.DeletePost uuid_Parse w1 userID postID now in
  snd result = None
  /\ timelines (db (fst result)) = without (post_ID post) (timelines (db w))
  /\ PostRepository.GetByID (db (fst result)) (post_ID post) = None
  /\ (forall id, id <> post_ID post ->
        PostRepository.GetByID (db (fst result)) id = PostRepository.GetByID (db w) id)
  /\ bus (fst result)
     = bus w ++ [(userID, mkEvent "post_deleted" now
                            [("post_id", postID); ("user_id", userID)])].
Proof.
  intros Hparse Hpost -> w1 result.
  pose proof (distributePost_frame w post author)
    as (_ & Hp & _ & _ & Hbus & filed & Hfiled & Hsub).
  fold w1 in Hp, Hbus, Hfiled.
  assert (PostRepository.GetByID (db w1) (post_ID post) = Some post) as Hpost'.
  { unfold PostRepository.GetByID in *. by rewrite Hp. }
  unfold result, Feed.DeletePost. rewrite Hparse, Hpost', String.eqb_refl.
  cbn [negb fst snd].
  split; [done |]. split; [| split; [| split]].
  - cbn [db with_db Publish TimelineRepository.DeleteByPostID PostRepository.Delete timelines].
    rewrite Hfiled. fold (without (post_ID post) (timelines (db w) ++ filed)).
    unfold without at 1. rewrite List.filter_app.
    fold (without (post_ID post) filed) (without (post_ID post) (timelines (db w))).
    by rewrite (without_filed post _ filed Hsub), app_nil_r.
  - unfold PostRepository.GetByID in *. simpl. rewrite lookup_alter_eq, Hp.
    by destruct (posts (db w) !! post_ID post) as [p |].
  - intros id Hne. unfold PostRepository.GetByID. simpl.
    by rewrite lookup_alter_ne, Hp.
  - simpl. by rewrite Hbus.
Qed.

End FeedRows.

Section RowsWitnesses.
Import TimelineRows FeedService Rows Examples.

Lemma distributePost_files_rows_witness :
  let first := distributePost true config fresh_world post_p2 author_star in
  let targets := recipients config fresh_world author_star in
  forallb (references (db fresh_world)) (row post_p2 <$> targets) = true
  /\ NoDup targets
  /\ (forall userID, userID ∈ targets ->
        (userID, post_ID post_p2) ∉ pair <$> timelines (db fresh_world))
  /\ timelines (db (fst first))
     = timelines (db fresh_world) ++ [row post_p2 "f"; row post_p2 "star"]
  /\ snd (distributePost true config (fst first) post_p2 author_star)
     = Some "failed to create timelines".
Proof.
  intros first targets.
  assert (forallb (references (db fresh_world)) (row post_p2 <$> targets) = true) as H1
    by (vm_compute; reflexivity).
  assert (NoDup targets) as H2 by by_evaluation.
  assert (forall userID, userID ∈ targets ->
            (userID, post_ID post_p2) ∉ pair <$> timelines (db fresh_world)) as H3.
  { apply Forall_forall. by_evaluation. }
  split; [exact H1 |]. split; [exact H2 |]. split; [exact H3 |].
  destruct (distributePost_files_rows true config fresh_world post_p2 author_star)
    as (_ & _ & _ & Hrefs).
  destruct (proj2 (Hrefs H1) eq_refl H2 H3) as (Hrows & _ & Hsecond).
  split; [exact Hrows | exact Hsecond].
Defined.

Lemma DeletePost_after_distributePost_witness :
  parse_any "p1" = Some (post_ID post_p1)
  /\ PostRepository.GetByID (db fresh_world) (post_ID post_p1) = Some post_p1
  /\ "a" = uuid_String (post_UserID post_p1)
  /\ timelines (db (fst (Feed.DeletePost parse_any
                           (fst (distributePost true config fresh_world post_p1 author_a))
                           "a" "p1" 0)))
     = without "p1" (timelines (db fresh_world)).
Proof.
  split; [reflexivity |]. split; [reflexivity |]. split; [reflexivity |].
  exact (proj1 (proj2 (DeletePost_after_distributePost parse_any true config
                         fresh_world post_p1 author_a
                         "a" "p1" 0 eq_refl eq_refl eq_refl))).
Defined.

End RowsWitnesses.

(** * The ranking score of a post *)

Section Scores.
Import OptimizedFeed.
Local Open Scope R_scope.

Lemma Log10_nonneg (x : R) : 1 <= x -> 0 <= Log10 x.
Proof.
  intros Hx. unfold Log10.
  assert (0 < ln 10) as H10.
  { rewrite <- ln_1. apply ln_increasing; lra. }
  assert (0 <= ln x) as Hln.
  { destruct (Rle_lt_or_eq_dec 1 x Hx) as [Hlt | <-].
    - rewrite <- ln_1. left. apply ln_increasing; lra.
    - rewrite ln_1. lra. }
  apply Rmult_le_pos; [done |]. left. by apply Rinv_0_lt_compat.
Qed.

Lemma exp_le (x y : R) : x <= y -> exp x <= exp y.
Proof.
  intros [H | ->]; [left; by apply exp_increasing | lra].
Qed.

Lemma Hours_monotone (d d' : Duration) : (d <= d')%Z -> Activity.Hours d <= Activity.Hours d'.
Proof.
  intros H. unfold Activity.Hours.
  apply Rmult_le_compat_r.
  - left. apply Rinv_0_lt_compat. apply IZR_lt. reflexivity.
  - by apply IZR_le.
Qed.

Lemma Hours_zero : Activity.Hours 0%Z = 0.
Proof. unfold Activity.Hours. lra. Qed.

(** With counts that are not negative, the initial score of an author is at
    least [1]; the score of a post is positive, never above the initial score
    plus the weighted engagement, and does not grow as the post ages. *)
Theorem calculatePostScore_bounds (post : Post) (user : User) (now now' : Time) :
  (0 <= Following user)%Z ->
  (0 <= LikeCount post)%Z -> (0 <= CommentCount post)%Z -> (0 <= ShareCount post)%Z ->
  (CreatedAt post <= now)%Z -> (now <= now')%Z ->
  let engagement :=
    IZR (LikeCount post) * (1 / 10) + IZR (CommentCount post) * (2 / 10)
    + IZR (ShareCount post) * (3 / 10) in
  1 <= calculateInitialScore user
  /\ 0 < calculatePostScore post user now'
  /\ calculatePostScore post user now' <= calculatePostScore post user now
  /\ calculatePostScore post user now <= calculateInitialScore user + engagement.
Proof.
  intros Hfollowing Hlike Hcomment Hshare Hcreated Hlater engagement.
  assert (1 <= calculateInitialScore user) as Hinit.
  { unfold calculateInitialScore.
    apply IZR_le in Hfollowing.
    destruct (Z.ltb_spec 0 (Followers user)) as [Hpos | _]; [| lra].
    apply IZR_lt in Hpos.
    pose proof (Log10_nonneg (IZR (Followers user) + 1) ltac:(lra)). nra. }
  assert (0 <= engagement) as Heng.
  { unfold engagement. apply IZR_le in Hlike, Hcomment, Hshare. lra. }
  split; [done |].
  unfold calculatePostScore. fold engagement.
  set (base := calculateInitialScore user + engagement).
  assert (1 <= base) as Hbase by (unfold base; lra).
  set (decay := fun t : Time => exp (- Activity.Hours (Sub t (CreatedAt post)) / 24)).
  change (0 < base * decay now' /\ base * decay now' <= base * decay now
          /\ base * decay now <= base) in |- *.
  assert (forall t, 0 < decay t) as Hpos by (intros t; apply exp_pos).
  assert (decay now' <= decay now) as Hmono.
  { unfold decay. apply exp_le.
    pose proof (Hours_monotone (Sub now (CreatedAt post)) (Sub now' (CreatedAt post))
                  ltac:(unfold Sub; lia)). lra. }
  assert (decay now <= 1) as Hone.
  { unfold decay. rewrite <- exp_0. apply exp_le.
    pose proof (Hours_monotone 0%Z (Sub now (CreatedAt post)) ltac:(unfold Sub; lia)) as H.
    rewrite Hours_zero in H. lra. }
  split; [| split].
  - apply Rmult_lt_0_compat; [lra | apply Hpos].
  - apply Rmult_le_compat_l; [lra | done].
  - rewrite <- (Rmult_1_r base) at 2. apply Rmult_le_compat_l; [lra | done].
Qed.

Lemma calculatePostScore_bounds_witness :
  (0 <= Following Examples.author_a)%Z
  /\ (0 <= LikeCount Examples.post_p1)%Z /\ (0 <= CommentCount Examples.post_p1)%Z
  /\ (0 <= ShareCount Examples.post_p1)%Z
  /\ (CreatedAt Examples.post_p1 <= 100 * Second)%Z /\ (100 * Second <= 200 * Second)%Z
  /\ 1 <= calculateInitialScore Examples.author_a.
Proof.
  assert (0 <= Following Examples.author_a)%Z as H1 by (vm_compute; discriminate).
  assert (0 <= LikeCount Examples.post_p1)%Z as H2 by (vm_compute; discriminate).
  assert (0 <= CommentCount Examples.post_p1)%Z as H3 by (vm_compute; discriminate).
  assert (0 <= ShareCount Examples.post_p1)%Z as H4 by (vm_compute; discriminate).
  assert (CreatedAt Examples.post_p1 <= 100 * Second)%Z as H5 by (vm_compute; discriminate).
  assert (100 * Second <= 200 * Second)%Z as H6 by (vm_compute; discriminate).
  repeat (split; [assumption |]).
  exact (proj1 (calculatePostScore_bounds Examples.post_p1 Examples.author_a
                  (100 * Second)%Z (200 * Second)%Z H1 H2 H3 H4 H5 H6)).
Defined.

End Scores.

(** * Cache strategy *)

Section CacheStrategyFacts.
Import SortedSet TimelineCache CacheStrategy.

Lemma ZRemRangeByRank_keep (maxItems : Z) (l : zset) :
  0 <= maxItems ->
  SortedSet.ZRemRangeByRank 0 (- maxItems - 1) l
  = drop (length l - Z.to_nat maxItems) l.
Proof.
  intros Hmax. unfold SortedSet.ZRemRangeByRank. cbv zeta.
  destruct (Z.ltb_spec (- maxItems - 1) 0) as [_ | ?]; [| lia].
  change (0 <? 0) with false; cbv iota. change (0 <? 0) with false; cbv iota.
  destruct (Z.ltb_spec (Z.of_nat (length l) + (- maxItems - 1)) 0) as [E | E]; simpl.
  - replace (length l - Z.to_nat maxItems)%nat with 0%nat by lia. reflexivity.
  - destruct (Z.leb_spec (Z.of_nat (length l)) 0) as [E1 | E1]; [lia |].
    destruct (Z.leb_spec (Z.of_nat (length l))
                (Z.of_nat (length l) + (- maxItems - 1))) as [E2 | E2]; [lia |].
    f_equal. lia.
Qed.

Lemma zget_zput_eq (key : string) (l : zset) (r : Redis) :
  RedisClient.zget key (RedisClient.zput key l r) = l.
Proof.
  unfold RedisClient.zget, RedisClient.zput. destruct l; simpl.
  - by rewrite lookup_delete_eq.
  - by rewrite lookup_insert_eq.
Qed.

(** Trimming a timeline to [maxItems] keeps its [maxItems] entries of
    highest rank, that is the newest ones, and all of them when there are
    fewer: every entry it removes ranks below every entry it keeps.  No other
    key changes. *)
Theorem trimUserTimeline_keeps_newest (r : Redis) (userID : uuid) (maxItems : Z) :
  0 <= maxItems ->
  let timeline := RedisClient.zget (getTimelineKey userID) r in
  let trimmed := trimUserTimeline r userID maxItems in
  let kept := RedisClient.zget (getTimelineKey userID) trimmed in
  kept = drop (length timeline - Z.to_nat maxItems) timeline
  /\ GetTimelineSize trimmed userID = Z.min (GetTimelineSize r userID) maxItems
  /\ (wf timeline ->
      wf kept
      /\ forall old new, old ∈ timeline -> old ∉ kept -> new ∈ kept -> zle old new)
  /\ (forall key', key' <> getTimelineKey userID -> view key' trimmed = view key' r).
Proof.
  intros Hmax timeline trimmed kept.
  assert (kept = drop (length timeline - Z.to_nat maxItems) timeline) as Hkept.
  { unfold kept, trimmed, trimUserTimeline, RedisClient.ZRemRangeByRank.
    change ("timeline:" +:+ uuid_String userID) with (getTimelineKey userID).
    rewrite zget_zput_eq. by apply ZRemRangeByRank_keep. }
  split; [done |]. split; [| split].
  - unfold GetTimelineSize, RedisClient.ZCard, SortedSet.ZCard. fold kept timeline.
    rewrite Hkept, length_drop. lia.
  - intros Hwf. rewrite Hkept. split; [by apply wf_drop |].
    intros old new Hold Hgone Hnew.
    destruct Hwf as [Hs _].
    rewrite <- (take_drop (length timeline - Z.to_nat maxItems) timeline) in Hs, Hold.
    apply elem_of_app in Hold as [Hold | Hold]; [| done].
    by apply (StronglySorted_app_1_elem_of zle _ _ old new Hs).
  - intros key' Hne. unfold trimmed, trimUserTimeline, RedisClient.ZRemRangeByRank.
    change ("timeline:" +:+ uuid_String userID) with (getTimelineKey userID).
    by apply view_zput_ne.
Qed.

Lemma trimUserTimeline_keeps_newest_witness :
  0 <= 2
  /\ RedisClient.zget (getTimelineKey "u") (trimUserTimeline Examples.small_timeline "u" 2)
     = [mkZ 60 "b"; mkZ 70 "c"].
Proof.
  assert (0 <= 2) as H by lia.
  split; [exact H |].
  exact (proj1 (trimUserTimeline_keeps_newest Examples.small_timeline "u" 2 H)).
Defined.

Section WithLibraries.
Variable json_Marshal : UserCacheStrategy -> string.
Variable uuid_Parse : string -> option uuid.

Lemma substring_all (s : string) : String.substring 0 (String.length s) s = s.
Proof. induction s as [| c s IH]; [done |]. simpl. by rewrite IH. Qed.

Lemma substring_none (s : string) : String.substring 0 0 s = "".
Proof. by destruct s. Qed.

Lemma substring_split (n : nat) (s : string) :
  (n <= String.length s)%nat ->
  String.substring 0 n s +:+ String.substring n (String.length s - n) s = s.
Proof.
  revert s. induction n as [| n IH]; intros s Hn.
  - rewrite substring_none, Nat.sub_0_r, substring_all. done.
  - destruct s as [| c s]; simpl in *; [lia |].
    change (String c (String.substring 0 n s +:+ String.substring n (String.length s - n) s)
            = String c s).
    f_equal. apply IH. lia.
Qed.

(** [extractUserIDFromTimelineKey] inverts [getTimelineKey]: it yields a user
    id exactly for the keys made of the prefix [timeline:] and a non-empty
    string that [uuid.Parse] accepts, and then the id that string parses to. *)
Theorem extractUserIDFromTimelineKey_inverts (key : string) (userID : uuid) :
  extractUserIDFromTimelineKey uuid_Parse key = Some userID
  <-> exists s, key = "timeline:" +:+ s /\ s <> "" /\ uuid_Parse s = Some userID.
Proof.
  unfold extractUserIDFromTimelineKey. split.
  - destruct (Z.ltb_spec (Z.of_nat (String.length key)) 10) as [? | Hlen]; [done |].
    destruct (String.eqb_spec (String.substring 0 9 key) "timeline:") as [Hpre | ?];
      [| done].
    simpl. intros Hparse.
    exists (String.substring 9 (String.length key - 9) key).
    split; [| split; [| done]].
    + rewrite <- Hpre. symmetry. apply substring_split. lia.
    + intros Hempty.
      pose proof (substring_split 9 key ltac:(lia)) as Hsplit.
      rewrite Hempty, Hpre in Hsplit. rewrite <- Hsplit in Hlen. simpl in Hlen. lia.
  - intros (s & -> & Hs & Hparse).
    destruct s as [| c s]; [done |].
    simpl. rewrite substring_all.
    destruct (Z.ltb_spec (Z.of_nat (S (S (S (S (S (S (S (S (S (S (String.length s))))))))))))
                10) as [? | _]; [lia |].
    done.
Qed.

Lemma view_Set_ne (key key' value : string) (ttl : Duration) (r : Redis) :
  key <> key' -> view key (RedisClient.Set_ key' value ttl r) = view key r.
Proof.
  intros H. unfold view, RedisClient.Set_. simpl.
  by rewrite lookup_delete_ne, lookup_insert_ne.
Qed.

Lemma IsUserActive_view (w : World) (userID : uuid) (now : Time) (key : string) :
  key <> "user_active:" +:+ uuid_String userID ->
  view key (redis (fst (ActivityService.IsUserActive w userID now))) = view key (redis w).
Proof.
  intros Hne. unfold ActivityService.IsUserActive.
  destruct (RedisClient.Get _ _); [done |].
  destruct (UserRepository.GetByID _ _); [| done].
  cbn [fst redis with_redis]. by apply view_Set_ne.
Qed.

Lemma IsUserActive_db (w : World) (userID : uuid) (now : Time) :
  db (fst (ActivityService.IsUserActive w userID now)) = db w.
Proof.
  unfold ActivityService.IsUserActive.
  destruct (RedisClient.Get _ _); [done |].
  by destruct (UserRepository.GetByID _ _).
Qed.

Lemma view_Expire_eq (key : string) (ttl : Duration) (r : Redis) (l : zset) :
  zsets r !! key = Some l ->
  view key (RedisClient.Expire key ttl r) = (Some l, Some ttl).
Proof.
  intros H. unfold RedisClient.Expire, RedisClient.Exists.
  rewrite (bool_decide_eq_true_2 (is_Some (zsets r !! key))) by eauto. simpl.
  unfold view. simpl. by rewrite H, lookup_insert_eq.
Qed.

(** Applying the cache strategy to a user whose timeline is cached: the
    timeline of an active user keeps its entries and lives for seven days;
    the timeline of an inactive user is cut to its [200] newest entries and
    lives for two hours.  The strategy that was applied is cached for [24]
    hours; no user is ever treated as a VIP.  The database is not touched. *)
Theorem ApplyCacheStrategy_outcome (w : World) (userID : uuid) (now : Time)
    (timeline : zset) :
  zsets (redis w) !! getTimelineKey userID = Some timeline ->
  let active := snd (ActivityService.IsUserActive w userID now) in
  let result := ApplyCacheStrategy json_Marshal w userID now in
  let strategy :=
    mkStrategy userID active false
      (if active then 7 * 24 * Hour else 2 * Hour)
      (if active then 1000 else 200) now in
  view (getTimelineKey userID) (redis (fst result))
  = (Some (if active then timeline else drop (length timeline - 200) timeline),
     Some (if active then 7 * 24 * Hour else 2 * Hour))
  /\ RedisClient.Get ("user_cache_strategy:" +:+ uuid_String userID) (redis (fst result))
     = Some (json_Marshal strategy)
  /\ expires (redis (fst result)) !! ("user_cache_strategy:" +:+ uuid_String userID)
     = Some (24 * Hour)
  /\ db (fst result) = db w
  /\ snd result = None.
Proof.
  intros Hcached active result strategy.
  unfold result, ApplyCacheStrategy, DetermineUserCacheStrategy.
  pose proof (IsUserActive_view w userID now (getTimelineKey userID) ltac:(discriminate))
    as Hview.
  pose proof (IsUserActive_db w userID now) as Hdb.
  fold active in strategy. unfold active in *.
  destruct (ActivityService.IsUserActive w userID now) as [w1 isActive].
  cbn [fst snd] in *.
  assert (zsets (redis w1) !! getTimelineKey userID = Some timeline) as Hcached1.
  { apply (f_equal fst) in Hview. simpl in Hview. by rewrite Hview. }
  destruct isActive; cbn [cs_IsActive cs_MaxTimelineItems negb fst snd].
  - split; [| split; [| split; [| done]]].
    + cbn [redis with_redis]. unfold cacheUserStrategy.
      rewrite view_Set_ne by discriminate.
      unfold SetTimelineExpiration. by apply view_Expire_eq.
    + cbn [redis with_redis]. unfold cacheUserStrategy, RedisClient.Get, RedisClient.Set_.
      simpl. by rewrite lookup_insert_eq.
    + cbn [redis with_redis]. unfold cacheUserStrategy, RedisClient.Set_.
      simpl. by rewrite lookup_insert_eq.
  - set (w2 := with_redis (fun r => SetTimelineExpiration r userID false) w1).
    assert (view (getTimelineKey userID) (redis w2) = (Some timeline, Some (2 * Hour)))
      as Hview2.
    { unfold w2. cbn [redis with_redis]. unfold SetTimelineExpiration.
      by apply view_Expire_eq. }
    assert (RedisClient.zget (getTimelineKey userID) (redis w2) = timeline) as Hget2.
    { by rewrite zget_view, Hview2. }
    unfold GetTimelineSize, RedisClient.ZCard, SortedSet.ZCard. rewrite Hget2.
    unfold MaxTimelineItemsInactive.
    split; [| split; [| split; [| split; [| done]]]].
    + destruct (Z.ltb_spec 200 (Z.of_nat (length timeline))) as [Hbig | Hsmall].
      * cbn [redis with_redis]. unfold cacheUserStrategy.
        rewrite view_Set_ne by discriminate.
        unfold trimUserTimeline, RedisClient.ZRemRangeByRank.
        change ("timeline:" +:+ uuid_String userID) with (getTimelineKey userID).
        rewrite Hget2, ZRemRangeByRank_keep by lia.
        change (Z.to_nat 200) with 200%nat.
        unfold view, RedisClient.zput.
        destruct (drop (length timeline - 200) timeline) as [| x rest] eqn:Hdrop.
        { apply (f_equal length) in Hdrop. rewrite length_drop in Hdrop.
          simpl in Hdrop. lia. }
        simpl. rewrite lookup_insert_eq. f_equal.
        apply (f_equal snd) in Hview2. exact Hview2.
      * cbn [redis with_redis]. unfold cacheUserStrategy.
        rewrite view_Set_ne by discriminate. rewrite Hview2.
        replace (length timeline - 200)%nat with 0%nat by lia. done.
    + destruct (200 <? Z.of_nat (length timeline)); cbn [redis with_redis];
        unfold cacheUserStrategy, RedisClient.Get, RedisClient.Set_; simpl;
        by rewrite lookup_insert_eq.
    + destruct (200 <? Z.of_nat (length timeline)); cbn [redis with_redis];
        unfold cacheUserStrategy, RedisClient.Set_; simpl;
        by rewrite lookup_insert_eq.
    + by destruct (200 <? Z.of_nat (length timeline)).
Qed.

End WithLibraries.

End CacheStrategyFacts.

Lemma ApplyCacheStrategy_outcome_witness :
  let w := mkWorld Examples.database Examples.small_timeline [] [] in
  zsets (redis w) !! TimelineCache.getTimelineKey "u"
  = Some [SortedSet.mkZ 50 "a"; SortedSet.mkZ 60 "b"; SortedSet.mkZ 70 "c"]
  /\ expires (redis (fst (CacheStrategy.ApplyCacheStrategy cs_UserID w "u" 0)))
       !! TimelineCache.getTimelineKey "u"
     = Some (2 * Hour).
Proof.
  intros w.
  assert (zsets (redis w) !! TimelineCache.getTimelineKey "u"
          = Some [SortedSet.mkZ 50 "a"; SortedSet.mkZ 60 "b"; SortedSet.mkZ 70 "c"]) as H
    by reflexivity.
  split; [exact H |].
  destruct (ApplyCacheStrategy_outcome cs_UserID w "u" 0 _ H) as [Hv _].
  apply (f_equal snd) in Hv. exact Hv.
Defined.

(** * Rebuilding the cache after a page was read from the database *)

Section RebuildCache.
Import SortedSet TimelineCache OptimizedFeed.

Lemma RebuildTimelineFromDB_zget (r : Redis) (userID : uuid) (rows : list Timeline) :
  RedisClient.zget (getTimelineKey userID) (RebuildTimelineFromDB r userID rows)
  = fold_left (fun l timeline => SortedSet.ZAdd (rebuild_entry timeline) l) rows [].
Proof.
  unfold RebuildTimelineFromDB. destruct rows as [| row rows].
  - apply zget_Delete.
  - rewrite zget_Expire.
    rewrite (rebuild_fold_zget (getTimelineKey userID) (row :: rows)).
    by rewrite zget_Delete.
Qed.

Lemma RebuildTimelineFromDB_view (r : Redis) (userID : uuid) (rows : list Timeline) :
  let rebuilt := RebuildTimelineFromDB r userID rows in
  fst (view (getTimelineKey userID) rebuilt)
  = match rows with
    | [] => None
    | _ => Some (RedisClient.zget (getTimelineKey userID) rebuilt)
    end.
Proof.
  unfold RebuildTimelineFromDB. destruct rows as [| row rows].
  - unfold view, RedisClient.Delete. simpl. by rewrite lookup_delete_eq.
  - cbv zeta.
    assert (row :: rows <> []) as Hne by discriminate.
    pose proof (rebuild_fold_zsets (getTimelineKey userID) (row :: rows)
                  (RedisClient.Delete (getTimelineKey userID) r)
                  (or_introl Hne)) as Hz.
    cbv zeta in Hz. unfold rebuild_entry in Hz.
    rewrite zget_Expire. unfold RedisClient.Expire.
    destruct (RedisClient.Exists _ _ =? 1); simpl; exact Hz.
Qed.

Lemma Get_zput (key key' : string) (l : zset) (r : Redis) :
  RedisClient.Get key' (RedisClient.zput key l r) = RedisClient.Get key' r.
Proof. unfold RedisClient.Get, RedisClient.zput. by destruct l. Qed.

Lemma Get_Expire (key key' : string) (ttl : Duration) (r : Redis) :
  RedisClient.Get key' (RedisClient.Expire key ttl r) = RedisClient.Get key' r.
Proof. unfold RedisClient.Get, RedisClient.Expire. by destruct (_ =? 1). Qed.

Lemma RebuildTimelineFromDB_Get (r : Redis) (userID : uuid) (rows : list Timeline)
    (key' : string) :
  key' <> getTimelineKey userID ->
  RedisClient.Get key' (RebuildTimelineFromDB r userID rows) = RedisClient.Get key' r.
Proof.
  intros Hne. unfold RebuildTimelineFromDB.
  assert (RedisClient.Get key' (RedisClient.Delete (getTimelineKey userID) r)
          = RedisClient.Get key' r) as Hdel.
  { unfold RedisClient.Get, RedisClient.Delete. simpl. by rewrite lookup_delete_ne. }
  destruct rows as [| row rows]; [exact Hdel |].
  rewrite Get_Expire. rewrite <- Hdel.
  generalize (RedisClient.Delete (getTimelineKey userID) r).
  induction (row :: rows) as [| x xs IH]; intros r0; simpl; [done |].
  rewrite IH. apply Get_zput.
Qed.

Lemma IsUserActive_answer (w w' : World) (userID : uuid) (now : Time) :
  RedisClient.Get ("user_active:" +:+ uuid_String userID) (redis w')
  = RedisClient.Get ("user_active:" +:+ uuid_String userID) (redis w) ->
  db w' = db w ->
  snd (ActivityService.IsUserActive w' userID now)
  = snd (ActivityService.IsUserActive w userID now).
Proof.
  intros Hget Hdb. unfold ActivityService.IsUserActive. rewrite Hget, Hdb.
  destruct (RedisClient.Get _ (redis w)); [done |].
  by destruct (UserRepository.GetByID _ _).
Qed.

(** After a page was read from the database the cached timeline of the user
    is replaced by the posts of the page, one entry per post under its
    creation second, whatever it held before.  The time to live that the
    rebuild sets is overwritten according to the user's activity: seven days
    for an active user, two hours otherwise.  With no posts the timeline is
    left uncached. *)
Theorem rebuildTimelineCache_outcome (w : World) (userID : uuid) (posts : list Post)
    (now : Time) :
  NoDup (post_ID <$> posts) ->
  let active := snd (ActivityService.IsUserActive w userID now) in
  let w' := rebuildTimelineCache w userID posts now in
  let cached := RedisClient.zget (getTimelineKey userID) (redis w') in
  wf cached
  /\ length cached = length posts
  /\ (forall e, e ∈ cached <-> exists post, post ∈ posts /\ e = Fanout.entry post)
  /\ view (getTimelineKey userID) (redis w')
     = match posts with
       | [] => (None, None)
       | _ => (Some cached,
               Some (if active then ActiveUserCacheTTL else InactiveUserCacheTTL))
       end
  /\ db w' = db w.
Proof.
  intros Hn active w' cached.
  set (rows := (fun post => mkTimeline userID (post_ID post) (post_Score post)
                              (CreatedAt post)) <$> posts).
  set (w1 := with_redis (fun r => RebuildTimelineFromDB r userID rows) w).
  assert (snd (ActivityService.IsUserActive w1 userID now) = active) as Hactive.
  { apply IsUserActive_answer; [| done].
    unfold w1. cbn [redis with_redis]. by apply RebuildTimelineFromDB_Get. }
  pose proof (IsUserActive_view w1 userID now (getTimelineKey userID) ltac:(discriminate))
    as Hview.
  pose proof (IsUserActive_db w1 userID now) as Hdb.
  assert (w' = with_redis (fun r => SetTimelineExpiration r userID active)
                 (fst (ActivityService.IsUserActive w1 userID now))) as Hw'.
  { unfold w', rebuildTimelineCache. fold rows. fold w1. rewrite <- Hactive.
    by destruct (ActivityService.IsUserActive w1 userID now). }
  set (w2 := fst (ActivityService.IsUserActive w1 userID now)) in *.
  assert (tl_PostID <$> rows = post_ID <$> posts) as Hids.
  { unfold rows. rewrite <- list_fmap_compose. done. }
  assert (cached = RedisClient.zget (getTimelineKey userID) (redis w1)) as Hcached.
  { unfold cached. rewrite Hw'. cbn [redis with_redis]. unfold SetTimelineExpiration.
    rewrite zget_Expire. by rewrite zget_view, Hview, <- zget_view. }
  assert (RedisClient.zget (getTimelineKey userID) (redis w1)
          = fold_left (fun l timeline => SortedSet.ZAdd (rebuild_entry timeline) l) rows [])
    as Hfold by apply RebuildTimelineFromDB_zget.
  destruct (rebuild_fold_fresh rows []) as (Hlen & _ & Hnew).
  { by rewrite Hids. }
  { intros row _ H. by apply elem_of_nil in H. }
  split; [| split; [| split; [| split]]].
  - rewrite Hcached, Hfold. apply rebuild_fold_wf, wf_nil.
  - rewrite Hcached, Hfold, Hlen. unfold rows. by rewrite length_fmap.
  - intros e. rewrite Hcached. split.
    + intros He. apply RebuildTimelineFromDB_entries in He as (row & Hrow & Hm & Hs).
      apply list_elem_of_fmap in Hrow as (post & -> & Hpost).
      exists post. split; [done |]. destruct e. simpl in *. by subst.
    + intros (post & Hpost & ->). rewrite Hfold.
      apply (Hnew (mkTimeline userID (post_ID post) (post_Score post) (CreatedAt post))).
      unfold rows. apply list_elem_of_fmap. by exists post.
  - pose proof (RebuildTimelineFromDB_view (redis w) userID rows) as Hfst.
    cbv zeta in Hfst.
    change (RebuildTimelineFromDB (redis w) userID rows) with (redis w1) in Hfst.
    rewrite <- Hview in Hfst.
    destruct posts as [| post posts'].
    + rewrite Hw'. cbn [redis with_redis]. unfold SetTimelineExpiration.
      simpl in Hfst.
      assert (view (getTimelineKey userID) (redis w2) = (None, None)) as Hnone.
      { rewrite Hview. unfold w1. cbn [redis with_redis]. simpl.
        unfold view, RedisClient.Delete. simpl. by rewrite !lookup_delete_eq. }
      unfold RedisClient.Expire, RedisClient.Exists.
      assert (zsets (redis w2) !! getTimelineKey userID = None) as Hz
        by (by apply (f_equal fst) in Hnone).
      assert (strs (redis w2) !! getTimelineKey userID = None) as Hs.
      { unfold w2, ActivityService.IsUserActive.
        destruct (RedisClient.Get _ (redis w1)).
        - unfold w1. simpl. by rewrite lookup_delete_eq.
        - destruct (UserRepository.GetByID _ _); simpl.
          + rewrite lookup_insert_ne by discriminate. by rewrite lookup_delete_eq.
          + by rewrite lookup_delete_eq. }
      assert (statuses (redis w2) !! getTimelineKey userID = None) as Hst.
      { unfold w2, ActivityService.IsUserActive.
        destruct (RedisClient.Get _ (redis w1)).
        - unfold w1. simpl. by rewrite lookup_delete_eq.
        - destruct (UserRepository.GetByID _ _); simpl.
          + rewrite lookup_delete_ne by discriminate. by rewrite lookup_delete_eq.
          + by rewrite lookup_delete_eq. }
      rewrite Hz, Hs, Hst. simpl. exact Hnone.
    + rewrite Hw'. cbn [redis with_redis]. unfold SetTimelineExpiration.
      simpl in Hfst. rewrite (view_Expire_eq _ _ _ _ Hfst). by rewrite Hcached.
  - rewrite Hw'. cbn [db with_redis]. by rewrite Hdb.
Qed.

End RebuildCache.

Lemma rebuildTimelineCache_outcome_witness :
  NoDup (post_ID <$> [Examples.post_p1; Examples.post_p2])
  /\ length (RedisClient.zget (TimelineCache.getTimelineKey "f")
               (redis (OptimizedFeed.rebuildTimelineCache Examples.fresh_world "f"
                         [Examples.post_p1; Examples.post_p2] 0)))
     = 2%nat.
Proof.
  assert (NoDup (post_ID <$> [Examples.post_p1; Examples.post_p2])) as H by by_evaluation.
  split; [exact H |].
  exact (proj1 (proj2 (rebuildTimelineCache_outcome Examples.fresh_world "f"
                         [Examples.post_p1; Examples.post_p2] 0 H))).
Defined.

(** * The cache of active followers *)

Section ActiveFollowers.
Import SortedSet Activity.
Variable uuid_Parse : string -> option uuid.

Lemma ZAdd_fold_zget {A} (g : A -> ZEntry) (key : string) (xs : list A) (r : Redis) :
  RedisClient.zget key (fold_left (fun r x => RedisClient.ZAdd key (g x) r) xs r)
  = fold_left (fun l x => SortedSet.ZAdd (g x) l) xs (RedisClient.zget key r).
Proof.
  revert r. induction xs as [| x xs IH]; intros r; simpl; [done |].
  by rewrite IH, zget_ZAdd.
Qed.

Lemma ZAdd_fold_keeps {A} (g : A -> ZEntry) (key : string) (xs : list A) (r : Redis) :
  is_Some (zsets r !! key) ->
  is_Some (zsets (fold_left (fun r x => RedisClient.ZAdd key (g x) r) xs r) !! key).
Proof.
  revert r. induction xs as [| x xs IH]; intros r H; simpl; [done |].
  apply IH. rewrite zsets_ZAdd. eauto.
Qed.

Lemma ZAdd_fold_zsets {A} (g : A -> ZEntry) (key : string) (xs : list A) (r : Redis) :
  xs <> [] ->
  is_Some (zsets (fold_left (fun r x => RedisClient.ZAdd key (g x) r) xs r) !! key).
Proof.
  destruct xs as [| x xs]; [done |]. intros _. simpl.
  apply ZAdd_fold_keeps. rewrite zsets_ZAdd. eauto.
Qed.

Lemma ZAdd_members (e : ZEntry) (l : zset) (m : string) :
  m ∈ Member <$> SortedSet.ZAdd e l <-> m = Member e \/ m ∈ Member <$> l.
Proof.
  rewrite !list_elem_of_fmap. split.
  - intros (x & -> & Hx). apply ZAdd_elem_of in Hx as [-> | [Hx _]]; [by left |].
    right. by exists x.
  - intros [-> | (x & -> & Hx)].
    + exists e. split; [done |]. apply ZAdd_elem_of. by left.
    + destruct (decide (Member x = Member e)) as [E | E].
      * exists e. split; [done |]. apply ZAdd_elem_of. by left.
      * exists x. split; [done |]. apply ZAdd_elem_of. by right.
Qed.

Lemma ZAdd_fold_members {A} (g : A -> ZEntry) (xs : list A) (l : zset) (m : string) :
  m ∈ Member <$> fold_left (fun l x => SortedSet.ZAdd (g x) l) xs l
  <-> m ∈ (fun x => Member (g x)) <$> xs \/ m ∈ Member <$> l.
Proof.
  revert l. induction xs as [| x xs IH]; intros l; simpl.
  - split; [by right | intros [H | H]; [by apply elem_of_nil in H | done]].
  - rewrite IH, ZAdd_members, elem_of_cons. tauto.
Qed.

Lemma ZAdd_fold_wf {A} (g : A -> ZEntry) (xs : list A) (l : zset) :
  wf l -> wf (fold_left (fun l x => SortedSet.ZAdd (g x) l) xs l).
Proof.
  revert l. induction xs as [| x xs IH]; intros l H; simpl; [done |].
  by apply IH, ZAdd_wf.
Qed.

Lemma fmap_rev' {A B} (f : A -> B) (l : list A) : f <$> rev l = rev (f <$> l).
Proof.
  induction l as [| x l IH]; [done |]. simpl. by rewrite fmap_app, IH.
Qed.

Lemma elem_of_rev' {A} (x : A) (l : list A) : x ∈ rev l <-> x ∈ l.
Proof. by rewrite !list_elem_of_In, <- in_rev. Qed.

Lemma omap_id (ms : list string) :
  (forall m, m ∈ ms -> uuid_Parse m = Some m) -> omap uuid_Parse ms = ms.
Proof.
  induction ms as [| m ms IH]; intros H; [done |]. cbn.
  rewrite (H m) by apply list_elem_of_here. f_equal.
  apply IH. intros m' Hm'. by apply H, list_elem_of_further.
Qed.

(** Reading back what [cacheActiveFollowers] stored under a fresh key gives
    the followers that were cached, each once, when their ids parse back;
    the key lives for ten minutes.  [GetActiveFollowers] then answers with the
    first [limit] of them and writes nothing. *)
Theorem cacheActiveFollowers_round_trip (r : Redis) (userID : uuid)
    (followers : list uuid) (limit : Z) (now now' : Time) :
  followers <> [] ->
  (forall follower, follower ∈ followers ->
     uuid_Parse (uuid_String follower) = Some follower) ->
  0 <= limit ->
  let key := "active_followers:" +:+ uuid_String userID in
  RedisClient.zget key r = [] ->
  let r' := cacheActiveFollowers r key followers now in
  let cached := getActiveFollowersFromCache uuid_Parse r' key in
  (forall follower, follower ∈ cached <-> follower ∈ followers)
  /\ NoDup cached
  /\ expires r' !! key = Some (10 * Minute)
  /\ GetActiveFollowers uuid_Parse r' userID limit now'
     = (r', take (Z.to_nat limit) cached).
Proof.
  intros Hne Hparse Hlimit key Hfresh r' cached.
  set (g := fun follower : uuid => mkZ (Unix now) (uuid_String follower)).
  set (pipe := fold_left (fun r follower => RedisClient.ZAdd key (g follower) r)
                         followers r).
  assert (r' = RedisClient.Expire key (10 * Minute) pipe) as Hr'.
  { unfold r', cacheActiveFollowers. by destruct followers. }
  set (final := fold_left (fun l follower => SortedSet.ZAdd (g follower) l) followers []).
  assert (RedisClient.zget key r' = final) as Hget.
  { rewrite Hr', zget_Expire. unfold pipe. by rewrite ZAdd_fold_zget, Hfresh. }
  assert (wf final) as Hwf by apply ZAdd_fold_wf, wf_nil.
  assert (forall m, m ∈ Member <$> final <-> m ∈ followers) as Hmembers.
  { intros m. unfold final. rewrite ZAdd_fold_members.
    change ((fun x => Member (g x)) <$> followers) with ((fun x : uuid => x) <$> followers).
    rewrite list_fmap_id. split; [intros [H | H]; [done | by apply elem_of_nil in H] | by left]. }
  assert (cached = Member <$> rev final) as Hcached.
  { unfold cached, getActiveFollowersFromCache, RedisClient.ZRevRange, ZRevRangeAll.
    rewrite Hget. apply omap_id. intros m Hm.
    rewrite fmap_rev', elem_of_rev' in Hm. apply Hmembers in Hm. by apply Hparse. }
  split; [| split; [| split]].
  - intros follower. rewrite Hcached, fmap_rev', elem_of_rev'. apply Hmembers.
  - rewrite Hcached, fmap_rev'. apply NoDup_ListNoDup, NoDup_rev, NoDup_ListNoDup, Hwf.
  - rewrite Hr'. unfold RedisClient.Expire, RedisClient.Exists.
    destruct (ZAdd_fold_zsets g key followers r Hne) as [l Hl]. fold pipe in Hl.
    rewrite Hl. rewrite (bool_decide_eq_true_2 (is_Some (Some l))) by eauto.
    simpl. by rewrite lookup_insert_eq.
  - unfold GetActiveFollowers. fold key. fold cached.
    assert (cached <> []) as Hsome.
    { destruct followers as [| f fs]; [done |].
      intros Hnil. assert (f ∈ cached) as Hf.
      { rewrite Hcached, fmap_rev', elem_of_rev'. apply Hmembers, list_elem_of_here. }
      rewrite Hnil in Hf. by apply elem_of_nil in Hf. }
    destruct (Z.ltb_spec 0 (Z.of_nat (length cached))) as [_ | Hzero].
    + destruct (Z.ltb_spec limit (Z.of_nat (length cached))) as [_ | Hall]; [done |].
      by rewrite take_ge by lia.
    + destruct cached; [done | simpl in Hzero; lia].
Qed.

End ActiveFollowers.

Lemma cacheActiveFollowers_round_trip_witness :
  ["f"; "g"] <> []
  /\ (forall follower, follower ∈ ["f"; "g"] ->
        Examples.parse_any (uuid_String follower) = Some follower)
  /\ 0 <= 1000
  /\ RedisClient.zget "active_followers:star" RedisClient.empty = []
  /\ Activity.GetActiveFollowers Examples.parse_any
       (Activity.cacheActiveFollowers RedisClient.empty "active_followers:star"
          ["f"; "g"] 0)
       "star" 1000 0
     = (Activity.cacheActiveFollowers RedisClient.empty "active_followers:star"
          ["f"; "g"] 0,
        ["g"; "f"]).
Proof.
  assert (["f"; "g"] <> ([] : list uuid)) as H1 by discriminate.
  assert (forall follower : uuid, follower ∈ ["f"; "g"] ->
            Examples.parse_any (uuid_String follower) = Some follower) as H2
    by reflexivity.
  assert (0 <= 1000) as H3 by lia.
  assert (RedisClient.zget "active_followers:star" RedisClient.empty = []) as H4
    by reflexivity.
  split; [exact H1 |]. split; [exact H2 |]. split; [exact H3 |]. split; [exact H4 |].
  destruct (cacheActiveFollowers_round_trip Examples.parse_any RedisClient.empty "star"
              ["f"; "g"] 1000 0 0 H1 H2 H3 H4) as (_ & _ & _ & Hget).
  etrans; [exact Hget | reflexivity].
Defined.
